(** * SwiftWeather: the TTL cache, the data fetchers and the controller of
    [src/App.js], embedded in Rocq.

    The embedding follows the JavaScript source function by function.
    - JavaScript values are the inductive [JSValue]. A number is a rational
      (every finite IEEE double is one, taken at its exact value) or [NaN];
      arithmetic is exact and the infinities are not represented.
    - Strings are byte strings ([string] of the Standard Library).
    - [mem] (a JS [Map]) and [localStorage] are finite maps ([gmap]).
    - A function that can throw returns an [Outcome]; the module-level state
      it reads and writes is threaded explicitly (monad [M]).
    - An [async] function that awaits [fetch] returns [Pending] with the
      request and is continued by a separate "resume" function when the
      response arrives.
    - An exception that nothing catches ends the job that threw it and is
      logged ([uncaught]); so is the rejection of a promise that nobody
      awaits, which does not reach the caller of the [async] function.
    - The DOM is the log of the writes made to it; [localStorage] is
      unbounded and always accessible.
    - Built-ins whose result depends on the JavaScript engine ([JSON.parse],
      [JSON.stringify], number formatting and parsing, Unicode string
      functions) are the fields of the class [Platform]; the general
      theorems hold for every platform, and [Ref.platform] is an executable
      one for running the program on concrete inputs. *)

From Stdlib Require Import QArith Qround Qabs Ascii String Lqa.
From stdpp Require Import gmap strings list fin_maps pretty.

Local Open Scope string_scope.
Local Open Scope Z_scope.

(** ** JavaScript values *)

Set Warnings "-register-all".

Inductive number : Type :=
| NaN
| Num (q : Q).

Inductive JSValue : Type :=
| JUndefined
| JNull
| JBool (b : bool)
| JNum (n : number)
| JStr (s : string)
| JArr (items : list JSValue)
| JObj (fields : list (string * JSValue)).

Inductive JSError : Type :=
| SyntaxError
| TypeError
| URIError
| FetchError.

Inductive Outcome (A : Type) : Type :=
| Normal (a : A)
| Throw (e : JSError).
Arguments Normal {A} a.
Arguments Throw {A} e.

Definition num_of_Z (z : Z) : number := Num (inject_Z z).

Definition num_add (a b : number) : number :=
  match a, b with
  | Num x, Num y => Num (x + y)%Q
  | _, _ => NaN
  end.

(** [a > b] on numbers; any comparison with [NaN] is false. *)
Definition num_gt (a b : number) : bool :=
  match a, b with
  | Num x, Num y => negb (Qle_bool x y)
  | _, _ => false
  end.

(** ToBoolean. *)
Definition truthy (v : JSValue) : bool :=
  match v with
  | JUndefined | JNull => false
  | JBool b => b
  | JNum NaN => false
  | JNum (Num q) => negb (Qeq_bool q 0)
  | JStr s => negb (String.eqb s "")
  | JArr _ | JObj _ => true
  end.

Definition is_undefined (v : JSValue) : bool :=
  match v with JUndefined => true | _ => false end.

(** [null] or [undefined]. *)
Definition is_nullish (v : JSValue) : bool :=
  match v with JUndefined | JNull => true | _ => false end.

Definition is_Some_bool {A} (o : option A) : bool :=
  match o with Some _ => true | None => false end.

Fixpoint assoc (k : string) (fs : list (string * JSValue)) : option JSValue :=
  match fs with
  | [] => None
  | (k', v) :: fs' => if String.eqb k k' then Some v else assoc k fs'
  end.

(** Property read [v.name], for the names this program reads ([exp], [val],
    [results], [lat], [lon], [place], ...): none of them is defined on a
    built-in prototype, so on a primitive or an array the read is
    [undefined]; on [null] and [undefined] it throws a TypeError. *)
Definition get_prop (v : JSValue) (name : string) : Outcome JSValue :=
  match v with
  | JUndefined | JNull => Throw TypeError
  | JObj fs => Normal (default JUndefined (assoc name fs))
  | _ => Normal JUndefined
  end.

(** ** Engine built-ins *)

Class Platform : Type := {
  (** [JSON.parse]; [None] is a thrown SyntaxError. *)
  JSON_parse : string -> option JSValue;
  (** [JSON.stringify] of an object literal (always a string). *)
  JSON_stringify : JSValue -> string;
  (** Number::toString, as used by template literals. *)
  NumberToString : number -> string;
  (** StringToNumber, the ToNumber conversion of a string. *)
  StringToNumber : string -> number;
  (** ToPrimitive of an array or object, which goes through [toString];
      [None] is the TypeError thrown when no callable conversion exists. *)
  ObjectToString : JSValue -> option string;
  (** [String.prototype.toLowerCase] and [String.prototype.trim]. *)
  toLowerCase : string -> string;
  trim : string -> string;
  (** [encodeURIComponent]; [None] is the URIError thrown on a lone
      surrogate. *)
  encodeURIComponent : string -> option string
}.

(** ** The environment: clock, [mem] and [localStorage] *)

Record Env : Type := mkEnv {
  clock : Z;                       (* Date.now(), in ms *)
  mem : gmap string JSValue;       (* const mem = new Map() *)
  ls : gmap string string;         (* localStorage *)
  ls_reads : list string;          (* log of localStorage.getItem calls *)
  fetched : list string            (* log of fetch(url) calls *)
}.

Definition set_clock (t : Z) (e : Env) : Env :=
  mkEnv t (mem e) (ls e) (ls_reads e) (fetched e).
Definition set_mem (m : gmap string JSValue) (e : Env) : Env :=
  mkEnv (clock e) m (ls e) (ls_reads e) (fetched e).
Definition set_ls (l : gmap string string) (e : Env) : Env :=
  mkEnv (clock e) (mem e) l (ls_reads e) (fetched e).
Definition set_ls_reads (r : list string) (e : Env) : Env :=
  mkEnv (clock e) (mem e) (ls e) r (fetched e).
Definition set_fetched (f : list string) (e : Env) : Env :=
  mkEnv (clock e) (mem e) (ls e) (ls_reads e) f.

(** ** State and exception monad *)

Definition ST (S A : Type) : Type := S -> Outcome A * S.
Abbreviation M := (ST Env).

Definition ret {S A} (a : A) : ST S A := fun e => (Normal a, e).
Definition throw {S A} (x : JSError) : ST S A := fun e => (Throw x, e).
Definition bind {S A B} (c : ST S A) (k : A -> ST S B) : ST S B :=
  fun e =>
    match c e with
    | (Normal a, e') => k a e'
    | (Throw x, e') => (Throw x, e')
    end.
(** [try { c } catch { h }]: the state changes made before the throw stay. *)
Definition try_catch {S A} (c : ST S A) (h : JSError -> ST S A) : ST S A :=
  fun e =>
    match c e with
    | (Normal a, e') => (Normal a, e')
    | (Throw x, e') => h x e'
    end.
Definition lift {S A} (o : Outcome A) : ST S A := fun e => (o, e).

Notation "'let*' x ':=' c 'in' k" := (bind c (fun x => k))
  (at level 10, x name, c at level 100, k at level 200, only parsing).
Notation "'run' c 'in' k" := (bind c (fun _ => k))
  (at level 10, c at level 100, k at level 200, only parsing).

Definition now : M number := fun e => (Normal (num_of_Z (clock e)), e).
Definition mem_has (key : string) : M bool :=
  fun e => (Normal (bool_decide (is_Some (mem e !! key))), e).
Definition mem_get (key : string) : M JSValue :=
  fun e => (Normal (default JUndefined (mem e !! key)), e).
Definition mem_set (key : string) (v : JSValue) : M unit :=
  fun e => (Normal tt, set_mem (<[key := v]> (mem e)) e).
Definition localStorage_getItem (key : string) : M (option string) :=
  fun e => (Normal (ls e !! key), set_ls_reads (ls_reads e ++ [key]) e).
Definition localStorage_setItem (key value : string) : M unit :=
  fun e => (Normal tt, set_ls (<[key := value]> (ls e)) e).

(** ** Asynchronous functions

    An [async] function runs until its first [await fetch(...)]: the result
    is [Ready] when it returned without awaiting the network, [Pending]
    when the request was sent; a [Throw] is a rejected promise. The function
    named [.._resume] is the rest of the body, run on the response
    ([Throw] when [fetch] or [r.json()] rejects). *)

Inductive Async (A : Type) : Type :=
| Ready (a : A)
| Pending (url key : string).
Arguments Ready {A} a.
Arguments Pending {A} url key.

Definition fetch (url : string) : M unit :=
  fun e => (Normal tt, set_fetched (fetched e ++ [url]) e).

(** The object [{data, cached, ms}]; [ms], a [performance.now()] difference
    that only feeds the [#perf] label, is left out. *)
Record Fetched : Type := mkFetched { data : JSValue; cached : bool }.

Definition ten_minutes : number := num_of_Z (1000 * 60 * 10).
Definition thirty_days : number := num_of_Z (1000 * 60 * 60 * 24 * 30).

Section WithPlatform.
Context `{Platform}.

Definition parse (raw : string) : M JSValue :=
  match JSON_parse raw with
  | Some v => ret v
  | None => throw SyntaxError
  end.

(** ToNumber. *)
Definition ToNumber (v : JSValue) : Outcome number :=
  match v with
  | JUndefined => Normal NaN
  | JNull => Normal (Num 0)
  | JBool b => Normal (Num (if b then 1 else 0))
  | JNum n => Normal n
  | JStr s => Normal (StringToNumber s)
  | JArr _ | JObj _ =>
      match ObjectToString v with
      | Some s => Normal (StringToNumber s)
      | None => Throw TypeError
      end
  end.

(** [v > n] where the right operand is a number: the left operand is
    converted by ToNumber (the string-with-string case cannot arise). *)
Definition js_gt_num (v : JSValue) (n : number) : Outcome bool :=
  match ToNumber v with
  | Normal x => Normal (num_gt x n)
  | Throw x => Throw x
  end.

(** *** The cache, lines 13-22 *)

Definition envelope (val : JSValue) (exp : number) : JSValue :=
  JObj [("val", val); ("exp", JNum exp)].

(** The [try] block of [cacheGet]: [Some v] when it executes [return obj.val],
    [None] when it falls through. *)
Definition cacheGet_try (key raw : string) : M (option JSValue) :=
  let* obj := parse raw in
  let* exp := lift (get_prop obj "exp") in
  let* t := now in
  let* fresh := lift (js_gt_num exp t) in
  if (fresh : bool) then
    let* val := lift (get_prop obj "val") in
    run mem_set key val in
    let* val' := lift (get_prop obj "val") in
    ret (Some val')
  else ret None.

Definition cacheGet (key : string) : M JSValue :=
  let* has := mem_has key in
  if (has : bool) then mem_get key
  else
    let* raw := localStorage_getItem key in
    match raw with
    | None => ret JNull
    | Some raw =>
        if String.eqb raw "" then ret JNull
        else
          let* r := try_catch (cacheGet_try key raw) (fun _ => ret None) in
          match r with
          | Some v => ret v
          | None => ret JNull
          end
    end.

Definition cacheSet (key : string) (val : JSValue) (ttl : number) : M unit :=
  run mem_set key val in
  let* t := now in
  localStorage_setItem key (JSON_stringify (envelope val (num_add t ttl))).

(** *** [Number.prototype.toFixed(2)]

    For a finite [x] below 10^21 in absolute value: the sign, then the
    integer [n] nearest to [100 * |x|] (the larger one on a tie) written
    with two fraction digits. *)

Definition two_digits (n : Z) : string :=
  if n <? 10 then "0" ++ pretty n else pretty n.

Definition fixed2_digits (n : Z) : string :=
  pretty (n / 100) ++ "." ++ two_digits (n mod 100).

Definition nearest_hundredth (x : Q) : Z := Qfloor (x * 100 + (1 # 2))%Q.

Definition toFixed2 (x : number) : string :=
  match x with
  | NaN => "NaN"
  | Num q =>
      let s := if Qle_bool 0 q then "" else "-" in
      let a := Qabs q in
      if Qle_bool (inject_Z (10 ^ 21)) a then s ++ NumberToString (Num a)
      else s ++ fixed2_digits (nearest_hundredth a)
  end.

(** The method call [v.toFixed(2)]: only a number has the method. *)
Definition call_toFixed2 (v : JSValue) : Outcome string :=
  match v with
  | JNum x => Normal (toFixed2 x)
  | _ => Throw TypeError
  end.

(** ToString, as applied by string interpolation [`${v}`]. *)
Definition ToString (v : JSValue) : Outcome string :=
  match v with
  | JUndefined => Normal "undefined"
  | JNull => Normal "null"
  | JBool b => Normal (if b then "true" else "false")
  | JNum x => Normal (NumberToString x)
  | JStr s => Normal s
  | JArr _ | JObj _ =>
      match ObjectToString v with
      | Some s => Normal s
      | None => Throw TypeError
      end
  end.

(** *** The fetchers, lines 24-51 *)

Definition getJSON (url key : string) : M (Async Fetched) :=
  let* c := cacheGet key in
  if truthy c then ret (Ready (mkFetched c true))
  else
    run fetch url in
    ret (Pending url key).

Definition getJSON_resume (key : string) (resp : Outcome JSValue) : M Fetched :=
  let* d := lift resp in
  run cacheSet key d ten_minutes in
  ret (mkFetched d false).

Definition geocode_key (q : string) : string := "geo:" ++ toLowerCase q.

Definition geocode_url (q' : string) : string :=
  "https://geocoding-api.open-meteo.com/v1/search?name=" ++ q'
  ++ "&count=5&language=en&format=json".

Definition geocode (q : string) : M (Async JSValue) :=
  let key := geocode_key q in
  let* c := cacheGet key in
  if truthy c then ret (Ready c)
  else
    match encodeURIComponent q with
    | None => throw URIError
    | Some q' =>
        run fetch (geocode_url q') in
        ret (Pending (geocode_url q') key)
    end.

Definition geocode_resume (key : string) (resp : Outcome JSValue) : M JSValue :=
  let* res := lift resp in
  let* results := lift (get_prop res "results") in
  let d := if truthy results then results else JArr [] in
  run cacheSet key d thirty_days in
  ret d.

Definition temperature_unit (units : string) : string :=
  if String.eqb units "imperial" then "fahrenheit" else "celsius".

Definition forecast_key (lat lon units : string) : string :=
  "meteo:" ++ lat ++ "," ++ lon ++ ":" ++ units.

Definition forecast_url (lat lon units : string) : string :=
  "https://api.open-meteo.com/v1/forecast?latitude=" ++ lat
  ++ "&longitude=" ++ lon
  ++ "&current_weather=true&hourly=temperature_2m,precipitation_probability"
  ++ "&daily=temperature_2m_max,temperature_2m_min,precipitation_probability_mean,weathercode"
  ++ "&forecast_days=7&timezone=auto&temperature_unit=" ++ temperature_unit units.

Definition forecast (lat lon : JSValue) (units : string) : M (Async Fetched) :=
  let* flat := lift (call_toFixed2 lat) in
  let* flon := lift (call_toFixed2 lon) in
  let key := forecast_key flat flon units in
  let* slat := lift (ToString lat) in
  let* slon := lift (ToString lon) in
  getJSON (forecast_url slat slon units) key.

End WithPlatform.

(** ** The controller, lines 54-159 *)

(** The module-level object [state]. *)
Record Session : Type := mkSession {
  units : string;
  lat : JSValue;
  lon : JSValue;
  place : JSValue
}.

(** What is written into an element. The markup itself is not modelled,
    only the data it is built from. *)
Inductive Content : Type :=
| Skeleton                                   (* placeholder blocks *)
| Text (s : string)
| Temperature (t : number)                   (* `${t}°` *)
| Meta (windspeed unit code : string)
| Info (time : string)
| Cards (rows : list (list string))          (* one mini card per row *)
| Perf (cached : bool)
| Buttons (rows : list (list string)).       (* one suggestion per row *)

(** The DOM, as the log of the writes made to it. *)
Inductive DomOp : Type :=
| SetHTML (sel : string) (c : Content)       (* el.innerHTML = ... *)
| SetText (sel : string) (c : Content)       (* el.textContent = ... *)
| SetProp (sel prop value : string)          (* style.display, src, alt, value, checked *)
| Alert (msg : string).

(** The writes that replace child nodes, which is what the observer of
    line 159 ([childList], [subtree]) is notified of. *)
Definition childList (op : DomOp) : bool :=
  match op with
  | SetHTML _ _ | SetText _ _ => true
  | _ => false
  end.

(** A request in flight, with what its continuation needs. *)
Inductive Request : Type :=
| ReqForecast (key : string) (lat lon : JSValue)   (* loadWeather awaiting forecast *)
| ReqGeocode (key : string).                       (* search awaiting geocode *)

Definition Coords : Type := JSValue * JSValue * JSValue.

Record App : Type := mkApp {
  env : Env;
  state : Session;
  dom : list DomOp;
  observing : bool;                    (* obs.observe(...) has run *)
  timer : option (Z * string);         (* pending timeout of [search]: due time, argument *)
  inflight : list Request;
  (* history, not program state *)
  geocode_calls : list (Z * string);   (* time and argument of each geocode(text) call *)
  started : list Coords;               (* lat, lon, place of each loadWeather call *)
  completed : list Coords;             (* ... of each loadWeather that ran to its end *)
  uncaught : list JSError              (* exceptions that nothing caught *)
}.

Definition set_env (x : Env) (a : App) : App :=
  mkApp x (state a) (dom a) (observing a) (timer a) (inflight a)
        (geocode_calls a) (started a) (completed a) (uncaught a).
Definition set_state (x : Session) (a : App) : App :=
  mkApp (env a) x (dom a) (observing a) (timer a) (inflight a)
        (geocode_calls a) (started a) (completed a) (uncaught a).
Definition set_dom (x : list DomOp) (a : App) : App :=
  mkApp (env a) (state a) x (observing a) (timer a) (inflight a)
        (geocode_calls a) (started a) (completed a) (uncaught a).
Definition set_observing (x : bool) (a : App) : App :=
  mkApp (env a) (state a) (dom a) x (timer a) (inflight a)
        (geocode_calls a) (started a) (completed a) (uncaught a).
Definition set_timer (x : option (Z * string)) (a : App) : App :=
  mkApp (env a) (state a) (dom a) (observing a) x (inflight a)
        (geocode_calls a) (started a) (completed a) (uncaught a).
Definition set_inflight (x : list Request) (a : App) : App :=
  mkApp (env a) (state a) (dom a) (observing a) (timer a) x
        (geocode_calls a) (started a) (completed a) (uncaught a).
Definition set_geocode_calls (x : list (Z * string)) (a : App) : App :=
  mkApp (env a) (state a) (dom a) (observing a) (timer a) (inflight a)
        x (started a) (completed a) (uncaught a).
Definition set_started (x : list Coords) (a : App) : App :=
  mkApp (env a) (state a) (dom a) (observing a) (timer a) (inflight a)
        (geocode_calls a) x (completed a) (uncaught a).
Definition set_completed (x : list Coords) (a : App) : App :=
  mkApp (env a) (state a) (dom a) (observing a) (timer a) (inflight a)
        (geocode_calls a) (started a) x (uncaught a).
Definition set_uncaught (x : list JSError) (a : App) : App :=
  mkApp (env a) (state a) (dom a) (observing a) (timer a) (inflight a)
        (geocode_calls a) (started a) (completed a) x.

Definition with_env {A} (c : M A) : ST App A :=
  fun a => let '(o, e) := c (env a) in (o, set_env e a).
Definition get_state : ST App Session := fun a => (Normal (state a), a).
Definition put_state (s : Session) : ST App unit :=
  fun a => (Normal tt, set_state s a).
Definition write (op : DomOp) : ST App unit :=
  fun a => (Normal tt, set_dom (dom a ++ [op]) a).
Definition modify (f : App -> App) : ST App unit := fun a => (Normal tt, f a).

Definition coords (s : Session) : Coords := (lat s, lon s, place s).

Section Controller.
Context `{Platform}.

(** *** Units, lines 55-59 *)

Definition unit_label (u : string) : string :=
  if String.eqb u "imperial" then "°F" else "°C".

(** *** Rendering, lines 62-110 *)

Definition showSkeleton : ST App unit :=
  run write (SetHTML "#temp" Skeleton) in
  run write (SetHTML "#meta" Skeleton) in
  run write (SetHTML "#info" Skeleton) in
  run write (SetHTML "#daily" Skeleton) in
  run write (SetHTML "#hourly" Skeleton) in
  write (SetText "#updated" (Text "Loading…")).

(** [Math.round(v)]. *)
Definition math_round (v : JSValue) : Outcome number :=
  match ToNumber v with
  | Normal (Num q) => Normal (Num (inject_Z (Qfloor (q + (1 # 2)))))
  | Normal NaN => Normal NaN
  | Throw x => Throw x
  end.

Definition renderCurrent (label : JSValue) (d : JSValue) : ST App unit :=
  let* l := lift (ToString label) in
  run write (SetText "#place" (Text l)) in
  let* cw := lift (get_prop d "current_weather") in
  let* temp := lift (get_prop cw "temperature") in
  let* t := lift (math_round temp) in
  run write (SetHTML "#temp" (Temperature t)) in
  let* ws := lift (get_prop cw "windspeed") in
  let* ws' := lift (ToString ws) in
  let* s := get_state in
  let* wc := lift (get_prop cw "weathercode") in
  let* wc' := lift (ToString wc) in
  run write (SetText "#meta"
               (Meta ws' (if String.eqb (units s) "metric" then "m/s" else "mph") wc')) in
  run write (SetProp "#icon" "src" "https://open-meteo.com/images/weather-icons/01d.png") in
  run write (SetProp "#icon" "alt" "Weather") in
  let* tm := lift (get_prop cw "time") in
  let* tm' := lift (ToString tm) in
  run write (SetText "#info" (Info tm')) in
  write (SetText "#updated" (Text "Updated just now")).

(** Element read [v[i]]: the element of an array, the character of a
    string, the member of an object whose name is the decimal text of [i];
    [undefined] on a number or a boolean. *)
Definition index (v : JSValue) (i : nat) : Outcome JSValue :=
  match v with
  | JUndefined | JNull => Throw TypeError
  | JArr items => Normal (nth i items JUndefined)
  | JStr s =>
      Normal (match String.get i s with
              | Some c => JStr (String c EmptyString)
              | None => JUndefined
              end)
  | JObj fs => Normal (default JUndefined (assoc (pretty i) fs))
  | _ => Normal JUndefined
  end.

(** [new Date(v)]: converts an array or object argument to a primitive. *)
Definition new_Date (v : JSValue) : Outcome unit :=
  match v with
  | JArr _ | JObj _ =>
      match ObjectToString v with
      | Some _ => Normal tt
      | None => Throw TypeError
      end
  | _ => Normal tt
  end.

(** The interpolation [`${series[i]}`]. *)
Definition cell (owner : JSValue) (series : string) (i : nat) : Outcome string :=
  match get_prop owner series with
  | Normal col =>
      match index col i with
      | Normal v => ToString v
      | Throw x => Throw x
      end
  | Throw x => Throw x
  end.

(** [times.map((dt, i) => card)], the card made of the [i]-th element of
    each of [series]. *)
Fixpoint cards (owner : JSValue) (series : list string) (i : nat)
    (times : list JSValue) : Outcome (list (list string)) :=
  match times with
  | [] => Normal []
  | dt :: rest =>
      match new_Date dt with
      | Throw x => Throw x
      | Normal _ =>
          (fix row (cols : list string) (acc : list string)
             : Outcome (list (list string)) :=
             match cols with
             | [] =>
                 match cards owner series (S i) rest with
                 | Normal rows => Normal (rev acc :: rows)
                 | Throw x => Throw x
                 end
             | c :: cols' =>
                 match cell owner c i with
                 | Normal s => row cols' (s :: acc)
                 | Throw x => Throw x
                 end
             end) series []
      end
  end.

(** [v.map(...)] exists on arrays only. *)
Definition as_array (v : JSValue) : Outcome (list JSValue) :=
  match v with
  | JArr items => Normal items
  | _ => Throw TypeError
  end.

Definition renderDaily (d : JSValue) : ST App unit :=
  let* daily := lift (get_prop d "daily") in
  let* time := lift (get_prop daily "time") in
  let* times := lift (as_array time) in
  let* rows := lift (cards daily
                       ["temperature_2m_max"; "temperature_2m_min";
                        "precipitation_probability_mean"] 0 times) in
  write (SetHTML "#daily" (Cards rows)).

Definition renderHourly (d : JSValue) : ST App unit :=
  let* hourly := lift (get_prop d "hourly") in
  let* time := lift (get_prop hourly "time") in
  let* times := lift (as_array time) in
  let* rows := lift (cards hourly
                       ["temperature_2m"; "precipitation_probability"] 0
                       (take 24 times)) in
  write (SetHTML "#hourly" (Cards rows)).

(** *** Load, lines 113-119 *)

(** [loadWeather] up to its [await]. *)
Definition loadWeather_start (lat lon : JSValue) : ST App (Async Fetched) :=
  let* s := get_state in
  run put_state (mkSession (units s) lat lon (place s)) in
  run modify (fun a => set_started (started a ++ [(lat, lon, place s)]) a) in
  run showSkeleton in
  let* r := with_env (forecast lat lon (units s)) in
  match r with
  | Ready f => ret (Ready f)
  | Pending url key =>
      run modify (fun a => set_inflight (inflight a ++ [ReqForecast key lat lon]) a) in
      ret (Pending url key)
  end.

(** [loadWeather] after its [await]. *)
Definition loadWeather_finish (lat lon : JSValue) (f : Fetched) : ST App unit :=
  let* s := get_state in
  let* label :=
    if truthy (place s) then ret (place s)
    else
      let* a := lift (call_toFixed2 lat) in
      let* b := lift (call_toFixed2 lon) in
      ret (JStr (a ++ ", " ++ b)) in
  run renderCurrent label (data f) in
  run renderDaily (data f) in
  run renderHourly (data f) in
  run write (SetText "#perf" (Perf (cached f))) in
  modify (fun a => set_completed (completed a ++ [(lat, lon, place s)]) a).

(** *** The observer, lines 158-159 *)

Definition observer_callback : ST App unit :=
  let* s := get_state in
  if truthy (lat s) && truthy (lon s) then
    with_env (localStorage_setItem "lastCoords"
                (JSON_stringify
                   (JObj [("lat", lat s); ("lon", lon s); ("place", place s)])))
  else ret tt.

Definition mutations (a : App) : nat := length (filter childList (dom a)).

(** An exception that nothing catches: it ends what was running and is
    reported by the browser, as an uncaught exception or, thrown inside an
    [async] function whose promise nobody awaits, as an unhandled
    rejection. The page goes on. *)
Definition escape (x : JSError) : ST App unit :=
  modify (fun a => set_uncaught (uncaught a ++ [x]) a).

(** Where a computation leaves the page, an exception it throws being
    caught by nothing. *)
Definition landed {A} (r : Outcome A * App) : App :=
  match r with
  | (Normal _, a) => a
  | (Throw x, a) => snd (escape x a)
  end.

(** The observer runs once the current job has ended, when child nodes
    were replaced while it was observing; [n] counts the replacements made
    before the job. *)
Definition notify (n : nat) (a : App) : App :=
  if observing a && (n <? mutations a)%nat then snd (observer_callback a) else a.

(** A job: [body] runs to its end or to an exception that nothing
    catches, then the observer is notified. *)
Definition job (body : ST App unit) (a : App) : App :=
  notify (mutations a) (landed (body a)).

(** What the synchronous part of an event handler leaves behind: the call
    of [loadWeather] whose promise is pending, if any, with its arguments. *)
Definition Called : Type := option (Async Fetched * JSValue * JSValue).

(** The call [loadWeather(la, lo)]. [loadWeather] and [forecast] are
    [async]: an exception thrown in them does not reach the caller, it
    rejects the promise that [loadWeather] returns, and no caller awaits
    that promise or attaches a handler to it (lines 58, 140, 148, 155 and
    156). The caller goes on. *)
Definition call_loadWeather (la lo : JSValue) : ST App Called :=
  try_catch (let* r := loadWeather_start la lo in ret (Some (r, la, lo)))
            (fun x => run escape x in ret None).

(** An event handler as a job: when it called [loadWeather] and the
    forecast came from the cache, the rest of [loadWeather] runs as a second
    job right away. *)
Definition handler_job (h : ST App Called) (a : App) : App :=
  match h a with
  | (Normal (Some (Ready f, la, lo)), a1) =>
      job (loadWeather_finish la lo f) (notify (mutations a) a1)
  | r => notify (mutations a) (landed r)
  end.

(** *** Units, line 58 *)

Definition setUnits (u : string) : ST App Called :=
  let* s := get_state in
  run put_state (mkSession u (lat s) (lon s) (place s)) in
  run with_env (localStorage_setItem "units" u) in
  run write (SetText "#unitText" (Text (unit_label u))) in
  let* s' := get_state in
  if truthy (lat s') && truthy (lon s')
  then call_loadWeather (lat s') (lon s')
  else ret None.

(** *** Search, lines 122-135 *)

Definition debounce_wait : Z := 300.

(** The function returned by [debounce(fn, 300)], called with [text]. *)
Definition search (text : string) (a : App) : App :=
  set_timer (Some (clock (env a) + debounce_wait, text)) (set_timer None a).

(** One button of the suggestion list: its [data-lat], [data-lon] and
    name. Any failing read or conversion throws a TypeError; nothing is
    written to the DOM before all of them are done. *)
Definition suggestion (r : JSValue) : Outcome (list string) :=
  match get_prop r "name", get_prop r "admin1", get_prop r "country",
        get_prop r "latitude", get_prop r "longitude" with
  | Normal n, Normal a1, Normal c, Normal la, Normal lo =>
      match ToString n, (if truthy a1 then ToString a1 else Normal ""),
            ToString c, ToString la, ToString lo with
      | Normal n', Normal a1', Normal c', Normal la', Normal lo' =>
          Normal [la'; lo';
                  n' ++ (if truthy a1 then ", " ++ a1' else "") ++ ", " ++ c']
      | _, _, _, _, _ => Throw TypeError
      end
  | _, _, _, _, _ => Throw TypeError
  end.

Fixpoint suggestions (rs : list JSValue) : Outcome (list (list string)) :=
  match rs with
  | [] => Normal []
  | r :: rest =>
      match suggestion r, suggestions rest with
      | Normal x, Normal xs => Normal (x :: xs)
      | _, _ => Throw TypeError
      end
  end.

Definition hide_suggest : ST App unit :=
  write (SetProp "#suggest" "style.display" "none").

(** The body of the debounced function after [await geocode(text)]. *)
Definition search_finish (results : JSValue) : ST App unit :=
  match results with
  | JArr [] => hide_suggest
  | JArr rs =>
      let* rows := lift (suggestions rs) in
      run write (SetHTML "#suggest" (Buttons rows)) in
      write (SetProp "#suggest" "style.display" "block")
  | _ => hide_suggest
  end.

(** The body of the debounced function up to [await geocode(text)];
    [Some results] when [geocode] answered from the cache. *)
Definition search_start (text : string) : ST App (option JSValue) :=
  if String.eqb (trim text) "" then
    run hide_suggest in ret None
  else
    run modify (fun a => set_geocode_calls
                           (geocode_calls a ++ [(clock (env a), text)]) a) in
    let* r := with_env (geocode text) in
    match r with
    | Ready results => ret (Some results)
    | Pending url key =>
        run modify (fun a => set_inflight (inflight a ++ [ReqGeocode key]) a) in
        ret None
    end.

(** The debounced function as jobs. An exception of [geocode] is thrown
    inside the [try] of line 125 and swallowed by its [catch]. *)
Definition search_job (text : string) (a : App) : App :=
  match search_start text a with
  | (Normal (Some results), a1) =>
      job (try_catch (search_finish results) (fun _ => ret tt))
          (notify (mutations a) a1)
  | (_, a1) => notify (mutations a) a1
  end.

(** *** Init, lines 153-157, and the script as a whole *)

(** The literals [19.076] and [72.8777] of line 156, at their decimal
    value. *)
Definition fallback_lat : number := Num (19076 # 1000).
Definition fallback_lon : number := Num (728777 # 10000).

(** [init] up to the [await] inside [loadWeather]. *)
Definition init : ST App Called :=
  let* raw := with_env (localStorage_getItem "lastCoords") in
  let text := match raw with
              | Some r => if String.eqb r "" then "null" else r
              | None => "null"
              end in
  let* last := with_env (parse text) in
  let* s := get_state in
  if truthy last then
    let* p := lift (get_prop last "place") in
    run put_state (mkSession (units s) (lat s) (lon s) p) in
    let* la := lift (get_prop last "lat") in
    let* lo := lift (get_prop last "lon") in
    call_loadWeather la lo
  else
    run put_state (mkSession (units s) (lat s) (lon s) (JStr "Mumbai, IN")) in
    call_loadWeather (JNum fallback_lat) (JNum fallback_lon).

(** Lines 54-56. *)
Definition read_units : ST App unit :=
  let* raw := with_env (localStorage_getItem "units") in
  let u := match raw with
           | Some r => if String.eqb r "" then "metric" else r
           | None => "metric"
           end in
  run put_state (mkSession u JUndefined JUndefined JUndefined) in
  run write (SetProp "#unitToggle" "checked"
               (if String.eqb u "imperial" then "true" else "false")) in
  write (SetText "#unitText" (Text (unit_label u))).

Definition blank (t : Z) (store : gmap string string) : App :=
  mkApp (mkEnv t ∅ store [] []) (mkSession "" JUndefined JUndefined JUndefined)
        [] false None [] [] [] [] [].

(** The script run on a page load at time [t] with [store] in
    [localStorage]. An exception thrown by [init] itself (by [JSON.parse],
    line 154) ends the script before line 158, so the observer is never
    installed; otherwise it is installed, also when the promise of
    [loadWeather] was rejected, and then the jobs queued by [init] run. *)
Definition boot (t : Z) (store : gmap string string) : App :=
  match (run read_units in init) (blank t store) with
  | (Normal (Some (Ready f, la, lo)), a) =>
      job (loadWeather_finish la lo f) (set_observing true a)
  | (Normal _, a) => set_observing true a
  | (Throw x, a) => landed (Throw x : Outcome unit, a)
  end.

(** *** Events *)

Inductive Event : Type :=
| Input (text : string)                         (* input event on #q *)
| Elapse (t : Z)                                (* the clock reaches t *)
| ToggleUnits (checked : bool)                  (* change event on #unitToggle *)
| PickSuggestion (la lo : number) (name : string)  (* click on a suggestion *)
| Located (la lo : number)                      (* geolocation success *)
| LocationFailed (msg : string)                 (* no geolocation, or its error *)
| Response (i : nat) (r : Outcome JSValue)      (* the i-th request in flight settles *)
| Reload.                                       (* the page is loaded again *)

Definition advance (t : Z) (a : App) : App :=
  set_env (set_clock (Z.max t (clock (env a))) (env a)) a.

Definition elapse (t : Z) (a : App) : App :=
  match timer a with
  | Some (due, text) =>
      if due <=? t
      then advance t (search_job text (set_timer None (advance due a)))
      else advance t a
  | None => advance t a
  end.

Definition settle (i : nat) (r : Outcome JSValue) (a : App) : App :=
  match inflight a !! i with
  | None => a
  | Some req =>
      let a' := set_inflight (delete i (inflight a)) a in
      match req with
      | ReqForecast key la lo =>
          job (let* f := with_env (getJSON_resume key r) in
               loadWeather_finish la lo f) a'
      | ReqGeocode key =>
          job (try_catch (let* results := with_env (geocode_resume key r) in
                          search_finish results)
                         (fun _ => ret tt)) a'
      end
  end.

Definition set_place (p : JSValue) : ST App unit :=
  let* s := get_state in
  put_state (mkSession (units s) (lat s) (lon s) p).

Definition step (ev : Event) (a : App) : App :=
  match ev with
  | Input text => search text a
  | Elapse t => elapse t a
  | ToggleUnits checked =>
      handler_job (setUnits (if checked then "imperial" else "metric")) a
  | PickSuggestion la lo name =>
      handler_job (run set_place (JStr name) in
                   run hide_suggest in
                   run write (SetProp "#q" "value" name) in
                   call_loadWeather (JNum la) (JNum lo)) a
  | Located la lo =>
      handler_job (run set_place (JStr "Your location") in
                   call_loadWeather (JNum la) (JNum lo)) a
  | LocationFailed msg => job (write (Alert msg)) a
  | Response i r => settle i r a
  | Reload => boot (clock (env a)) (ls (env a))
  end.

Definition session (t : Z) (store : gmap string string) (evs : list Event) : App :=
  fold_left (fun a ev => step ev a) evs (boot t store).

End Controller.

(** ** A reference platform

    An executable instance of [Platform], used to run the program on
    concrete inputs: a JSON printer and a recursive-descent JSON reader
    (no [\u] escapes), decimal number formatting, and the ASCII versions of
    [toLowerCase], [trim] and [encodeURIComponent]. *)

Module Ref.

Definition dquote : ascii := ascii_of_nat 34.
Definition backslash : ascii := ascii_of_nat 92.

Definition ascii_in (lo hi : nat) (c : ascii) : bool :=
  (lo <=? nat_of_ascii c)%nat && (nat_of_ascii c <=? hi)%nat.

Definition is_ws (c : ascii) : bool :=
  let n := nat_of_ascii c in
  (n =? 32)%nat || (n =? 9)%nat || (n =? 10)%nat || (n =? 13)%nat
  || (n =? 11)%nat || (n =? 12)%nat.

Definition is_digit (c : ascii) : bool := ascii_in 48 57 c.

Fixpoint skip_ws (s : string) : string :=
  match s with
  | String c r => if is_ws c then skip_ws r else s
  | EmptyString => s
  end.

(** *** Printing *)

Fixpoint frac_digits (fuel : nat) (r : Q) : string :=
  match fuel with
  | O => ""
  | S f =>
      if Qeq_bool r 0 then ""
      else let d := Qfloor (r * 10) in
           pretty d ++ frac_digits f (Qred (r * 10 - inject_Z d))
  end.

Definition number_to_string (x : number) : string :=
  match x with
  | NaN => "NaN"
  | Num q =>
      let a := Qabs q in
      let i := Qfloor a in
      let r := Qred (a - inject_Z i) in
      (if Qle_bool 0 q then "" else "-") ++ pretty i
      ++ (if Qeq_bool r 0 then "" else "." ++ frac_digits 17 r)
  end.

Fixpoint escape (s : string) : string :=
  match s with
  | EmptyString => EmptyString
  | String c r =>
      if Ascii.eqb c dquote || Ascii.eqb c backslash
      then String backslash (String c (escape r))
      else String c (escape r)
  end.

Definition quote (s : string) : string :=
  String dquote (escape s ++ String dquote EmptyString).

Definition join (sep : string) (l : list string) : string :=
  match l with
  | [] => ""
  | x :: r => fold_left (fun acc y => acc ++ sep ++ y) r x
  end.

Fixpoint stringify (v : JSValue) : string :=
  match v with
  | JUndefined => "null"
  | JNull => "null"
  | JBool b => if b then "true" else "false"
  | JNum NaN => "null"
  | JNum x => number_to_string x
  | JStr s => quote s
  | JArr items =>
      "[" ++ join "," ((fix all (l : list JSValue) : list string :=
                          match l with
                          | [] => []
                          | w :: r => stringify w :: all r
                          end) items) ++ "]"
  | JObj fields =>
      "{" ++ join "," ((fix members (l : list (string * JSValue)) : list string :=
                          match l with
                          | [] => []
                          | (k, w) :: r =>
                              if is_undefined w then members r
                              else (quote k ++ ":" ++ stringify w) :: members r
                          end) fields) ++ "}"
  end.

(** ToString of a value; [None] when an object has an own, hence not
    callable, [toString] member. *)
Fixpoint to_string (v : JSValue) : option string :=
  match v with
  | JUndefined => Some "undefined"
  | JNull => Some "null"
  | JBool b => Some (if b then "true" else "false")
  | JNum x => Some (number_to_string x)
  | JStr s => Some s
  | JArr items =>
      option_map (join ",")
        ((fix all (l : list JSValue) : option (list string) :=
            match l with
            | [] => Some []
            | w :: r =>
                match (if is_nullish w then Some "" else to_string w), all r with
                | Some x, Some xs => Some (x :: xs)
                | _, _ => None
                end
            end) items)
  | JObj fields =>
      match assoc "toString" fields with
      | None => Some "[object Object]"
      | Some _ => None
      end
  end.

(** *** Reading *)

Fixpoint read_digits (s : string) (acc : Z) (n : nat) : Z * nat * string :=
  match s with
  | String c r =>
      if is_digit c
      then read_digits r (acc * 10 + Z.of_nat (nat_of_ascii c - 48)) (S n)
      else (acc, n, s)
  | EmptyString => (acc, n, s)
  end.

(** [-? digits (. digits)? ([eE] [+-]? digits)?] *)
Definition read_number (s : string) : option (Q * string) :=
  let '(neg, s1) :=
    match s with
    | String "-" r => (true, r)
    | _ => (false, s)
    end in
  let '(i, ni, s2) := read_digits s1 0 0 in
  if (ni =? 0)%nat || ((1 <? ni)%nat && String.prefix "0" s1) then None
  else
    let '(f, nf, s3) :=
      match s2 with
      | String "." r => read_digits r 0 0
      | _ => (0, 1%nat, s2)
      end in
    if (nf =? 0)%nat then None
    else
      let nf' := match s2 with String "." _ => nf | _ => O end in
      let m := (inject_Z i + inject_Z f / inject_Z (10 ^ Z.of_nat nf'))%Q in
      let '(ex, s4) :=
        match s3 with
        | String c r =>
            if Ascii.eqb c "e" || Ascii.eqb c "E" then
              let '(eneg, r') :=
                match r with
                | String "-" r' => (true, r')
                | String "+" r' => (false, r')
                | _ => (false, r)
                end in
              let '(x, nx, r'') := read_digits r' 0 0 in
              if (nx =? 0)%nat then (None, s3)
              else (Some (if eneg then - x else x), r'')
            else (Some 0, s3)
        | EmptyString => (Some 0, s3)
        end in
      match ex with
      | None => None
      | Some x =>
          let v := (m * (if 0 <=? x then inject_Z (10 ^ x)
                         else / inject_Z (10 ^ (- x))))%Q in
          Some (Qred (if neg then - v else v)%Q, s4)
      end.

(** The characters after an opening quote, up to the closing one. *)
Fixpoint read_string (s : string) : option (string * string) :=
  match s with
  | EmptyString => None
  | String c r =>
      if Ascii.eqb c dquote then Some (EmptyString, r)
      else if Ascii.eqb c backslash then
        match r with
        | String d r' =>
            let esc :=
              if Ascii.eqb d dquote || Ascii.eqb d backslash || Ascii.eqb d "/"
              then Some d
              else if Ascii.eqb d "n" then Some (ascii_of_nat 10)
              else if Ascii.eqb d "t" then Some (ascii_of_nat 9)
              else if Ascii.eqb d "r" then Some (ascii_of_nat 13)
              else if Ascii.eqb d "b" then Some (ascii_of_nat 8)
              else if Ascii.eqb d "f" then Some (ascii_of_nat 12)
              else None in
            match esc, read_string r' with
            | Some x, Some (t, rest) => Some (String x t, rest)
            | _, _ => None
            end
        | EmptyString => None
        end
      else if (nat_of_ascii c <? 32)%nat then None
      else
        match read_string r with
        | Some (t, rest) => Some (String c t, rest)
        | None => None
        end
  end.

Fixpoint set_field (k : string) (v : JSValue) (fs : list (string * JSValue))
  : list (string * JSValue) :=
  match fs with
  | [] => [(k, v)]
  | (k', v') :: r =>
      if String.eqb k k' then (k', v) :: r else (k', v') :: set_field k v r
  end.

(** After one element: [,] and another element, or the closing bracket. *)
Fixpoint read_elems (pv : string -> option (JSValue * string)) (n : nat)
    (s : string) (acc : list JSValue) : option (JSValue * string) :=
  match n with
  | O => None
  | S n' =>
      match skip_ws s with
      | String "]" r => Some (JArr (rev acc), r)
      | String "," r =>
          match pv r with
          | Some (v, r') => read_elems pv n' r' (v :: acc)
          | None => None
          end
      | _ => None
      end
  end.

Definition read_member (pv : string -> option (JSValue * string)) (s : string)
  : option (string * JSValue * string) :=
  match skip_ws s with
  | String c r =>
      if Ascii.eqb c dquote then
        match read_string r with
        | Some (k, r1) =>
            match skip_ws r1 with
            | String ":" r2 =>
                match pv r2 with
                | Some (v, r3) => Some (k, v, r3)
                | None => None
                end
            | _ => None
            end
        | None => None
        end
      else None
  | EmptyString => None
  end.

Fixpoint read_members (pv : string -> option (JSValue * string)) (n : nat)
    (s : string) (acc : list (string * JSValue)) : option (JSValue * string) :=
  match n with
  | O => None
  | S n' =>
      match skip_ws s with
      | String "}" r => Some (JObj acc, r)
      | String "," r =>
          match read_member pv r with
          | Some (k, v, r') => read_members pv n' r' (set_field k v acc)
          | None => None
          end
      | _ => None
      end
  end.

Definition starts_with (p s : string) : option string :=
  if String.prefix p s
  then Some (String.substring (String.length p)
                              (String.length s - String.length p) s)
  else None.

Fixpoint read_value (fuel : nat) (s : string) : option (JSValue * string) :=
  match fuel with
  | O => None
  | S f =>
      let s := skip_ws s in
      match s with
      | EmptyString => None
      | String c r =>
          if Ascii.eqb c dquote then
            match read_string r with
            | Some (t, rest) => Some (JStr t, rest)
            | None => None
            end
          else if Ascii.eqb c "[" then
            match skip_ws r with
            | String "]" r' => Some (JArr [], r')
            | _ =>
                match read_value f r with
                | Some (v, r') => read_elems (read_value f) f r' [v]
                | None => None
                end
            end
          else if Ascii.eqb c "{" then
            match skip_ws r with
            | String "}" r' => Some (JObj [], r')
            | _ =>
                match read_member (read_value f) r with
                | Some (k, v, r') =>
                    read_members (read_value f) f r' [(k, v)]
                | None => None
                end
            end
          else
            match starts_with "null" s, starts_with "true" s,
                  starts_with "false" s with
            | Some r', _, _ => Some (JNull, r')
            | _, Some r', _ => Some (JBool true, r')
            | _, _, Some r' => Some (JBool false, r')
            | _, _, _ =>
                match read_number s with
                | Some (q, r') => Some (JNum (Num q), r')
                | None => None
                end
            end
      end
  end.

Definition parse_json (s : string) : option JSValue :=
  match read_value (S (String.length s)) s with
  | Some (v, r) =>
      match skip_ws r with
      | EmptyString => Some v
      | _ => None
      end
  | None => None
  end.

(** *** Strings *)

Definition lower (c : ascii) : ascii :=
  if ascii_in 65 90 c then ascii_of_nat (nat_of_ascii c + 32) else c.

Fixpoint to_lower (s : string) : string :=
  match s with
  | EmptyString => EmptyString
  | String c r => String (lower c) (to_lower r)
  end.

Definition trim_ws (s : string) : string :=
  String.rev (skip_ws (String.rev (skip_ws s))).

Definition string_to_number (s : string) : number :=
  let t := trim_ws s in
  if String.eqb t "" then Num 0
  else
    match read_number t with
    | Some (q, EmptyString) => Num q
    | _ => NaN
    end.

Definition hex_digit (n : nat) : ascii :=
  if (n <? 10)%nat then ascii_of_nat (48 + n) else ascii_of_nat (55 + n).

Definition unreserved (c : ascii) : bool :=
  ascii_in 65 90 c || ascii_in 97 122 c || is_digit c
  || existsb (Ascii.eqb c) (list_ascii_of_string "-_.!~*'()").

Fixpoint encode_uri_component (s : string) : string :=
  match s with
  | EmptyString => EmptyString
  | String c r =>
      if unreserved c then String c (encode_uri_component r)
      else
        let n := nat_of_ascii c in
        String "%" (String (hex_digit (n / 16)) (String (hex_digit (n mod 16))
                                                   (encode_uri_component r)))
  end.

Definition platform : Platform := {|
  JSON_parse := parse_json;
  JSON_stringify := stringify;
  NumberToString := number_to_string;
  StringToNumber := string_to_number;
  ObjectToString := to_string;
  toLowerCase := to_lower;
  trim := trim_ws;
  encodeURIComponent := fun s => Some (encode_uri_component s)
|}.

End Ref.

(** ** Vocabulary of the statements *)

(** [get] answers "absent" with [null]; a read of a missing member is
    [undefined]. Every caller tests the answer for truthiness only. *)
Definition absent (v : JSValue) : bool := is_nullish v.

(** A stored entry that is JSON but not a [{val, exp}] envelope. *)
Definition lacks_envelope (v : JSValue) : bool :=
  match v with
  | JObj fs => negb (is_Some_bool (assoc "val" fs) && is_Some_bool (assoc "exp" fs))
  | _ => true
  end.

(** An envelope whose [exp] is a number not after [t]. *)
Definition expired_at (t : Z) (v : JSValue) : bool :=
  match v with
  | JObj fs =>
      match assoc "exp" fs with
      | Some (JNum (Num q)) => Qle_bool q (inject_Z t)
      | _ => false
      end
  | _ => false
  end.

(** An envelope whose [exp] is a number after [t]. *)
Definition fresh_at (t : Z) (v : JSValue) : bool :=
  match v with
  | JObj fs =>
      match assoc "exp" fs with
      | Some (JNum (Num q)) => negb (Qle_bool q (inject_Z t))
      | _ => false
      end
  | _ => false
  end.

(** The member [val] of a stored envelope. *)
Definition stored_val (v : JSValue) : JSValue :=
  match v with
  | JObj fs => default JUndefined (assoc "val" fs)
  | _ => JUndefined
  end.

(** The envelope [set] writes: an object with a member [val] and a number
    as its member [exp]. A stored entry that parses to anything else is
    malformed. *)
Definition is_envelope (v : JSValue) : bool :=
  match v with
  | JObj fs =>
      is_Some_bool (assoc "val" fs) &&
      match assoc "exp" fs with
      | Some (JNum _) => true
      | _ => false
      end
  | _ => false
  end.

(** A lookup response with no results: no [results] member that can be
    read, a falsy one, or the empty list. *)
Definition no_results (res : JSValue) : bool :=
  match get_prop res "results" with
  | Normal (JArr []) => true
  | Normal r => negb (truthy r)
  | Throw _ => true
  end.

(** A number equal to zero. *)
Definition is_zero (v : JSValue) : bool :=
  match v with
  | JNum (Num q) => Qeq_bool q 0
  | _ => false
  end.

Definition skeleton_ops : list DomOp :=
  [SetHTML "#temp" Skeleton; SetHTML "#meta" Skeleton; SetHTML "#info" Skeleton;
   SetHTML "#daily" Skeleton; SetHTML "#hourly" Skeleton;
   SetText "#updated" (Text "Loading…")].

(** A write of fetched data. *)
Definition is_data_op (op : DomOp) : bool :=
  match op with
  | SetHTML _ (Temperature _) | SetHTML _ (Cards _)
  | SetText _ (Meta _ _ _) | SetText _ (Info _) | SetText _ (Perf _) => true
  | _ => false
  end.

Section Scenarios.
Context `{Platform}.

(** The test of line 19 on a parsed entry at time [t]: its [exp], converted
    to a number the way [>] converts its operand, is greater than [t]. An
    entry without [exp] has [undefined] there, which converts to NaN. *)
Definition live_at (t : Z) (v : JSValue) : bool :=
  match get_prop v "exp" with
  | Normal ex =>
      match js_gt_num ex (num_of_Z t) with
      | Normal b => b
      | Throw _ => false
      end
  | Throw _ => false
  end.

(** [get(key)] called once at each of the clock values [ts] in turn. *)
Fixpoint gets (key : string) (ts : list Z) (e : Env) : list (Outcome JSValue) * Env :=
  match ts with
  | [] => ([], e)
  | t :: ts' =>
      let '(r, e1) := cacheGet key (set_clock t e) in
      let '(rs, e2) := gets key ts' e1 in
      (r :: rs, e2)
  end.

(** Keystrokes at 0, 50, 100 and 300 ms leaving the values [v0] .. [v3] in
    the search box, then the clock running on to [t]. *)
Definition keystrokes (v0 v1 v2 v3 : string) (t : Z) : list Event :=
  [Input v0; Elapse 50; Input v1; Elapse 100; Input v2; Elapse 300; Input v3;
   Elapse t].

End Scenarios.

(** ** Frame conditions

    [respects R c]: running [c] takes every state to an [R]-related one,
    whether it returns or throws. *)

Definition respects {S A : Type} (R : S -> S -> Prop) (c : ST S A) : Prop :=
  forall s, R s (snd (c s)).

(** The relation "the component [f] is unchanged". *)
Definition keeps {S X : Type} (f : S -> X) : S -> S -> Prop :=
  fun s s' => f s' = f s.

(** The DOM log only grows. *)
Definition dom_grows : App -> App -> Prop :=
  fun a a' => exists post, dom a' = (dom a ++ post)%list.

(** Neither the debounce timer, nor the log of [geocode] calls, nor the
    clock changes. *)
Definition quiet : App -> App -> Prop :=
  fun a a' =>
    timer a' = timer a /\ geocode_calls a' = geocode_calls a /\
    clock (env a') = clock (env a).

(** The cache key a request in flight will store its response under. *)
Definition request_key (req : Request) : string :=
  match req with
  | ReqForecast key _ _ => key
  | ReqGeocode key => key
  end.

(** No constraint on the environment. *)
Definition any_env : Env -> Env -> Prop := fun _ _ => True.

(** The session state, the log of started loads and the requests in
    flight are unchanged and the DOM log only grows: what holds of the rest
    of [loadWeather] and of the observer. *)
Definition calm : App -> App -> Prop :=
  fun a a' =>
    state a' = state a /\ started a' = started a /\
    inflight a' = inflight a /\ dom_grows a a'.

Definition units_of (store : gmap string string) : string :=
  match store !! "units" with
  | Some r => if String.eqb r "" then "metric" else r
  | None => "metric"
  end.

Definition unit_ops (u : string) : list DomOp :=
  [SetProp "#unitToggle" "checked"
     (if String.eqb u "imperial" then "true" else "false");
   SetText "#unitText" (Text (unit_label u))].

(** The state in which [init], with nothing persisted, calls [forecast]. *)
Definition cold (t : Z) (store : gmap string string) : App :=
  mkApp (mkEnv t ∅ store ["units"; "lastCoords"] [])
        (mkSession (units_of store) (JNum fallback_lat) (JNum fallback_lon)
                   (JStr "Mumbai, IN"))
        (unit_ops (units_of store) ++ skeleton_ops) false None [] []
        [(JNum fallback_lat, JNum fallback_lon, JStr "Mumbai, IN")] [] [].


(** ** The persisted location *)

Definition persisted (a : App) : option string := ls (env a) !! "lastCoords".

(** The object literal [{lat, lon, place}] of line 158. *)
Definition record (c : Coords) : JSValue :=
  JObj [("lat", c.1.1); ("lon", c.1.2); ("place", c.2)].

(** The active coordinates and place name are those of the most recent
    call of [loadWeather]; before the first call there are no coordinates. *)
Definition coherent (a : App) : Prop :=
  match last (started a) with
  | Some c => coords (state a) = c
  | None => lat (state a) = JUndefined /\ lon (state a) = JUndefined
  end.

(** No request in flight will store its response under [lastCoords]. *)
Definition inflight_ok (a : App) : Prop :=
  Forall (fun req => request_key req <> "lastCoords") (inflight a).

(** [lastCoords] is left alone. *)
Definition keeps_persisted : App -> App -> Prop :=
  fun a a' => persisted a' = persisted a /\ (inflight_ok a -> inflight_ok a').

(** The environment keeps what is stored under [lastCoords]. *)
Definition keeps_lastCoords : Env -> Env -> Prop :=
  keeps (fun e => ls e !! "lastCoords").

Section Persisted.
Context `{Platform}.

(** The session state and the started loads are unchanged, and
    [lastCoords] is either left alone or set to the record of the session
    state, whose coordinates are then truthy. *)
Definition settled : App -> App -> Prop :=
  fun a a' =>
    state a' = state a /\ started a' = started a /\
    (inflight_ok a -> inflight_ok a') /\
    (persisted a' = persisted a \/
     persisted a' = Some (JSON_stringify (record (coords (state a)))) /\
     truthy (lat (state a)) = true /\ truthy (lon (state a)) = true).

(** Persistence after success only: what is persisted under
    [lastCoords] is the record of the most recent load that ran to its
    end. *)
Definition persisted_after_success (a : App) : Prop :=
  forall s, persisted a = Some s ->
    exists c, last (completed a) = Some c /\ s = JSON_stringify (record c).

End Persisted.

(** The session state and the log of started loads are unchanged. *)
Definition same_load : App -> App -> Prop :=
  keeps (fun a => (state a, started a)).

Section PersistedWrites.
Context `{Platform}.

(** From [a] to [a']: [lastCoords] is left alone, or it now holds the
    record of the most recently started load, whose coordinates are
    truthy. *)
Definition writes_started (a a' : App) : Prop :=
  persisted a' = persisted a \/
  exists c : Coords,
    last (started a') = Some c /\
    truthy c.1.1 = true /\ truthy c.1.2 = true /\
    persisted a' = Some (JSON_stringify (record c)).

End PersistedWrites.

(** ** Concrete inputs, on the reference platform *)

Module Sample.

Definition empty_env : Env := mkEnv 0 ∅ ∅ [] [].

(** The text [set("k", "v", 1000)] stores at time 0. *)
Definition raw_entry : string :=
  Ref.stringify (envelope (JStr "v") (num_of_Z 1000)).

(** A fresh page at time [t] whose [localStorage] holds that entry. *)
Definition stored_only (t : Z) : Env :=
  mkEnv t ∅ {[ "k" := raw_entry ]} [] [].

(** An entry with a [val], whose [exp] is a string of digits. *)
Definition string_exp_entry : JSValue :=
  JObj [("val", JStr "v"); ("exp", JStr "99999999999999")].

(** A fresh page at time [t] whose [localStorage] holds that entry. *)
Definition string_exp_only (t : Z) : Env :=
  mkEnv t ∅ {[ "k" := Ref.stringify string_exp_entry ]} [] [].

Definition london_lat : number := Num (5151 # 100).
Definition london_lon : number := Num (-13 # 100).

(** A lookup response with one place. *)
Definition lond_response : JSValue :=
  JObj [("results",
         JArr [JObj [("name", JStr "London");
                     ("latitude", JNum london_lat);
                     ("longitude", JNum london_lon);
                     ("country", JStr "United Kingdom");
                     ("admin1", JStr "England")]])].

(** The first load fails; the user types, gets a suggestion and picks it;
    that load fails too. *)
Definition two_failed_loads : list Event :=
  [Response 0 (Throw FetchError);
   Input "Lond"; Elapse 300; Response 0 (Normal lond_response);
   PickSuggestion london_lat london_lon "London, England, United Kingdom";
   Response 0 (Throw FetchError)].

(** A [localStorage] whose [lastCoords] is a point on the equator. *)
Definition equator_store : gmap string string :=
  {[ "lastCoords" :=
       Ref.stringify (record (JNum (Num 0), JNum (Num 10), JStr "Equator")) ]}.

End Sample.

(** The session state and the observer are unchanged and the DOM log only
    grows. *)
Definition same_view : App -> App -> Prop :=
  fun a a' =>
    state a' = state a /\ observing a' = observing a /\ dom_grows a a'.

(** ** Further vocabulary *)

(** The environment of a page loaded at time [t] over the [localStorage]
    that [e] leaves behind: [mem] starts empty. *)
Definition fresh_page (t : Z) (e : Env) : Env := mkEnv t ∅ (ls e) [] [].

(** [s] starts with [p]. *)
Fixpoint has_prefix (p s : string) : bool :=
  match p, s with
  | EmptyString, _ => true
  | String c p', String d s' => Ascii.eqb c d && has_prefix p' s'
  | String _ _, EmptyString => false
  end.

(** The [localStorage] keys the program writes under: [units] (line 58),
    [lastCoords] (line 158) and the cache keys [meteo:...] and [geo:...]. *)
Definition own_key (k : string) : bool :=
  String.eqb k "units" || String.eqb k "lastCoords"
  || has_prefix "meteo:" k || has_prefix "geo:" k.

(** Every request in flight will store its response under a key of the
    program's own. *)
Definition inflight_own (a : App) : Prop :=
  Forall (fun req => own_key (request_key req) = true) (inflight a).

(** What [localStorage] holds under [k] is unchanged. *)
Definition keeps_foreign (k : string) : App -> App -> Prop :=
  fun a a' =>
    ls (env a') !! k = ls (env a) !! k /\ (inflight_own a -> inflight_own a').

(** No key of [localStorage] is removed. *)
Definition keeps_keys : Env -> Env -> Prop :=
  fun e e' => forall k, is_Some (ls e !! k) -> is_Some (ls e' !! k).

(** The same, of the application state. *)
Definition store_grows : App -> App -> Prop :=
  fun a a' => keeps_keys (env a) (env a').

(** Typing: each keystroke [(t, v)] happens when the clock reaches [t] and
    leaves [v] in the search box. *)
Definition typing (ks : list (Z * string)) : list Event :=
  flat_map (fun k => [Elapse k.1; Input k.2]) ks.

(** Every keystroke of [ks] comes less than the debounce window after the
    one before it, the first one after [prev]. *)
Fixpoint spaced (prev : Z) (ks : list (Z * string)) : bool :=
  match ks with
  | [] => true
  | k :: rest =>
      (prev <=? k.1) && (k.1 <? prev + debounce_wait) && spaced k.1 rest
  end.

(** The [geocode] call the timeout of keystroke [k] makes when it fires. *)
Definition fires `{Platform} (k : Z * string) : list (Z * string) :=
  if String.eqb (trim k.2) "" then [] else [(k.1 + debounce_wait, k.2)].

(** The keys of cache entries. *)
Definition cache_key (k : string) : bool :=
  has_prefix "meteo:" k || has_prefix "geo:" k.

(** Every request in flight will store its response under a cache key. *)
Definition inflight_cached (a : App) : Prop :=
  Forall (fun req => cache_key (request_key req) = true) (inflight a).

(** That stays so. *)
Definition keeps_inflight_cached : App -> App -> Prop :=
  fun a a' => inflight_cached a -> inflight_cached a'.

(** What [localStorage] holds under [units] is unchanged. *)
Definition keeps_units_key : App -> App -> Prop :=
  keeps (fun a => ls (env a) !! "units").

(** The units in use are the persisted ones. *)
Definition units_agree (a : App) : Prop :=
  units (state a) = units_of (ls (env a)).

(** From [a] to [a'] nothing but the DOM log changed, and it only grew. *)
Definition only_dom : App -> App -> Prop :=
  fun a a' => dom_grows a a' /\ set_dom (dom a) a' = a.

(** The write that ends a load. *)
Definition perf_op (f : Fetched) : DomOp := SetText "#perf" (Perf (cached f)).

(** No write of fetched data among [ops]. *)
Definition no_data (ops : list DomOp) : bool :=
  forallb (fun op => negb (is_data_op op)) ops.

(** The observer stays as it is, installed or not, and [lastCoords] is left
    alone. *)
Definition keeps_unobserved : App -> App -> Prop :=
  fun a a' =>
    observing a' = observing a /\ persisted a' = persisted a /\
    (inflight_ok a -> inflight_ok a').

(** No request is sent, none is put in flight, no load is started. *)
Definition offline : App -> App -> Prop :=
  keeps (fun a => (fetched (env a), inflight a, started a)).

(** The responses that nothing is made of: a failure (of the network, or
    of reading the body as JSON), and [null] as the answer to a lookup. *)
Definition dropped (req : Request) (r : Outcome JSValue) : bool :=
  match r, req with
  | Throw _, _ => true
  | Normal res, ReqGeocode _ => is_nullish res
  | Normal _, ReqForecast _ _ _ => false
  end.

(** ** What the strips and the suggestion list show *)

Definition daily_series : list string :=
  ["temperature_2m_max"; "temperature_2m_min"; "precipitation_probability_mean"].

Definition hourly_series : list string :=
  ["temperature_2m"; "precipitation_probability"].





Section Shown.
Context `{Platform}.

(** [c] is the text of the element at position [i] of the member [s] of
    [owner]. *)
Definition entry_text (owner : JSValue) (s : string) (i : nat) (c : string) : Prop :=
  exists col v,
    get_prop owner s = Normal col /\ index col i = Normal v /\
    ToString v = Normal c.

(** The card of position [i]: the texts of the elements at position [i] of
    each of [series], in order. *)
Definition card_at (owner : JSValue) (series : list string) (i : nat)
    (row : list string) : Prop :=
  Forall2 (fun s c => entry_text owner s i c) series row.

(** [rows] is the strip of the member [part] of the forecast [d]: that
    member has a list [time], of which [shown] keeps the elements to show;
    each of them can be made a date of, and the rows are the cards of their
    positions, in order. *)
Definition strip_of (d : JSValue) (part : string) (series : list string)
    (shown : list JSValue -> list JSValue) (rows : list (list string)) : Prop :=
  exists owner times,
    get_prop d part = Normal owner /\
    get_prop owner "time" = Normal (JArr times) /\
    Forall (fun dt => new_Date dt = Normal tt) (shown times) /\
    Forall2 (card_at owner series) (seq 0 (length (shown times))) rows.




End Shown.

(** ** More concrete inputs, on the reference platform *)

Module Inputs.

(** A [localStorage] with an entry that is not the program's. *)
Definition theme_store : gmap string string := {[ "theme" := "dark" ]}.

(** A forecast with one day and one hour. *)
Definition weather : JSValue :=
  JObj [("current_weather",
         JObj [("temperature", JNum (Num (284 # 10)));
               ("windspeed", JNum (Num 3));
               ("weathercode", JNum (Num 1));
               ("time", JStr "2024-01-01T00:00")]);
        ("daily",
         JObj [("time", JArr [JStr "2024-01-01"]);
               ("temperature_2m_max", JArr [JNum (Num 30)]);
               ("temperature_2m_min", JArr [JNum (Num 20)]);
               ("precipitation_probability_mean", JArr [JNum (Num 10)])]);
        ("hourly",
         JObj [("time", JArr [JStr "2024-01-01T00:00"]);
               ("temperature_2m", JArr [JNum (Num 25)]);
               ("precipitation_probability", JArr [JNum (Num 5)])])].

(** The error object the forecast API answers with. *)
Definition error_payload : JSValue :=
  JObj [("error", JBool true); ("reason", JStr "Latitude must be in range")].

(** A [lastCoords] as the observer writes it, for London. *)
Definition london_record : JSValue :=
  record (JNum Sample.london_lat, JNum Sample.london_lon, JStr "London").

Definition london_store : gmap string string :=
  {[ "lastCoords" := Ref.stringify london_record ]}.

(** A [lastCoords] that is not JSON. *)
Definition corrupt_store : gmap string string := {[ "lastCoords" := "{oops" ]}.

(** A [lastCoords] that holds [null]. *)
Definition null_store : gmap string string := {[ "lastCoords" := "null" ]}.



(** Keystrokes at 50, 100 and 300 ms, after a first one at 0. *)
Definition burst : list (Z * string) := [(50, "Lo"); (100, "Lon"); (300, "Lond")].


(** The key of the first forecast. *)
Definition mumbai_metric : string := "meteo:19.08,72.88:metric".

End Inputs.

(** * Theorems *)

(** ** The cache *)

Section CacheFacts.
Context `{Platform}.

Lemma cacheGet_mem_hit (key : string) (v : JSValue) (e : Env) :
  mem e !! key = Some v -> cacheGet key e = (Normal v, e).
Proof.
  intros Hm. unfold cacheGet, bind, mem_has, mem_get.
  rewrite Hm. simpl. rewrite Hm. reflexivity.
Qed.

Lemma cacheSet_run (key : string) (val : JSValue) (ttl : number) (e : Env) :
  cacheSet key val ttl e =
  (Normal tt,
   set_ls (<[key := JSON_stringify
                      (envelope val (num_add (num_of_Z (clock e)) ttl))]> (ls e))
          (set_mem (<[key := val]> (mem e)) e)).
Proof. reflexivity. Qed.

(** After [set], [get] answers from [mem] whatever the clock says. *)
Lemma cacheGet_after_cacheSet (key : string) (val : JSValue) (ttl : number)
    (e : Env) (t : Z) :
  fst (cacheGet key (set_clock t (snd (cacheSet key val ttl e)))) = Normal val.
Proof.
  rewrite (cacheGet_mem_hit key val); [reflexivity|].
  rewrite cacheSet_run. simpl. apply lookup_insert_eq.
Qed.

Lemma cacheGet_try_run (key raw : string) (e : Env) :
  cacheGet_try key raw e =
  match JSON_parse raw with
  | None => (Throw SyntaxError, e)
  | Some obj =>
      match get_prop obj "exp" with
      | Throw x => (Throw x, e)
      | Normal ex =>
          match js_gt_num ex (num_of_Z (clock e)) with
          | Throw x => (Throw x, e)
          | Normal false => (Normal None, e)
          | Normal true =>
              match get_prop obj "val" with
              | Throw x => (Throw x, e)
              | Normal v => (Normal (Some v), set_mem (<[key := v]> (mem e)) e)
              end
          end
      end
  end.
Proof.
  unfold cacheGet_try, parse, bind, lift, now, ret, throw, mem_set.
  destruct (JSON_parse raw) as [obj|]; [|reflexivity].
  destruct (get_prop obj "exp") as [ex|x]; [|reflexivity].
  simpl. destruct (js_gt_num ex _) as [[|]|x]; try reflexivity.
  destruct (get_prop obj "val") as [v|x]; reflexivity.
Qed.

Lemma cacheGet_store_path (key raw : string) (e : Env) :
  mem e !! key = None -> ls e !! key = Some raw -> raw <> "" ->
  cacheGet key e =
  match cacheGet_try key raw (set_ls_reads (ls_reads e ++ [key]) e) with
  | (Normal (Some v), e') => (Normal v, e')
  | (_, e') => (Normal JNull, e')
  end.
Proof.
  intros Hm Hl Hne. unfold cacheGet, bind, mem_has, localStorage_getItem.
  rewrite Hm. simpl. rewrite Hl.
  destruct (String.eqb_spec raw ""); [contradiction|].
  unfold try_catch, ret.
  destruct (cacheGet_try _ _ _) as [[[v|]|x] e']; reflexivity.
Qed.

Lemma cacheGet_total (key : string) (e : Env) :
  exists v e', cacheGet key e = (Normal v, e').
Proof.
  unfold cacheGet, bind, mem_has, mem_get, localStorage_getItem. simpl.
  destruct (bool_decide _); [eauto|].
  destruct (ls e !! key) as [raw|]; [|unfold ret; eauto].
  destruct (String.eqb raw ""); [unfold ret; eauto|].
  unfold try_catch, ret.
  destruct (cacheGet_try _ _ _) as [[[v|]|x] e']; eauto.
Qed.

Lemma num_add_of_Z (a b : Z) :
  num_add (num_of_Z a) (num_of_Z b) = num_of_Z (a + b).
Proof.
  unfold num_add, num_of_Z, inject_Z, Qplus. simpl.
  now rewrite !Z.mul_1_r.
Qed.

Lemma Qle_bool_inject_Z (a b : Z) :
  Qle_bool (inject_Z a) (inject_Z b) = (a <=? b).
Proof.
  destruct (Z.leb_spec a b) as [Hle|Hlt].
  - apply Qle_bool_iff. now rewrite <- Zle_Qle.
  - apply not_true_is_false. intros Hq. apply Qle_bool_iff in Hq.
    rewrite <- Zle_Qle in Hq. lia.
Qed.

(** What [get] answers for a key that is in [localStorage] only. *)
Lemma cacheGet_stored (key raw : string) (e : Env) :
  mem e !! key = None ->
  ls e !! key = Some raw ->
  exists e',
    cacheGet key e =
    (Normal (if String.eqb raw "" then JNull
             else match JSON_parse raw with
                  | Some obj =>
                      if live_at (clock e) obj then stored_val obj else JNull
                  | None => JNull
                  end), e') /\
    fetched e' = fetched e /\ ls e' = ls e.
Proof.
  intros Hm Hl.
  destruct (String.eqb_spec raw "") as [->|Hne].
  { unfold cacheGet, bind, mem_has, localStorage_getItem.
    rewrite Hm. simpl. rewrite Hl. simpl. eexists. split; [reflexivity|].
    split; reflexivity. }
  rewrite (cacheGet_store_path key raw e Hm Hl Hne), cacheGet_try_run.
  unfold live_at, stored_val.
  destruct (JSON_parse raw) as [obj|];
    [|eexists; split; [reflexivity|]; split; reflexivity].
  destruct obj as [| |b|n|s|items|fs]; simpl;
    try (eexists; split; [reflexivity|]; split; reflexivity);
    try (destruct (js_gt_num JUndefined _) as [[|]|x];
         eexists; (split; [reflexivity|]); split; reflexivity).
  destruct (js_gt_num _ _) as [[|]|x];
    eexists; (split; [reflexivity|]); split; reflexivity.
Qed.

(** [get] sends nothing and leaves [localStorage] as it is; with the key
    neither in [mem] nor in [localStorage] it answers [null]. *)
Lemma cacheGet_reads (key : string) (e : Env) :
  exists v e', cacheGet key e = (Normal v, e') /\
    fetched e' = fetched e /\ ls e' = ls e /\
    (mem e !! key = None -> ls e !! key = None -> v = JNull).
Proof.
  destruct (mem e !! key) as [v|] eqn:Hm.
  { rewrite (cacheGet_mem_hit key v e Hm). exists v, e.
    repeat split; auto; try discriminate. }
  destruct (ls e !! key) as [raw|] eqn:Hl.
  - destruct (String.eqb_spec raw "") as [->|Hne].
    + unfold cacheGet, bind, mem_has, localStorage_getItem.
      rewrite Hm. simpl. rewrite Hl. simpl.
      eexists _, _. split; [reflexivity|]. repeat split; auto; try discriminate.
    + rewrite (cacheGet_store_path key raw e Hm Hl Hne), cacheGet_try_run.
      destruct (JSON_parse raw) as [obj|];
        [|eexists _, _; split; [reflexivity|]; repeat split; auto; try discriminate].
      destruct (get_prop obj "exp") as [ex|x];
        [|eexists _, _; split; [reflexivity|]; repeat split; auto; try discriminate].
      destruct (js_gt_num ex _) as [[|]|x];
        try (eexists _, _; split; [reflexivity|]; repeat split; auto; try discriminate).
      destruct (get_prop obj "val") as [v|x];
        eexists _, _; (split; [reflexivity|]); repeat split; auto; try discriminate.
  - unfold cacheGet, bind, mem_has, localStorage_getItem.
    rewrite Hm. simpl. rewrite Hl. simpl.
    eexists _, _. split; [reflexivity|]. repeat split; auto.
Qed.

End CacheFacts.

Section CacheClaims.
Context `{Platform}.

(** C5. For every key, value and ttl > 0: a [get] that follows [set(key,
    val, ttl)] while the clock has not passed the expiry [now + ttl], in
    particular immediately after it, returns [val]. *)
Theorem get_after_set_returns_value (key : string) (val : JSValue)
    (ttl : number) (e : Env) (t : Z) :
  num_gt ttl (Num 0) = true ->
  clock e <= t ->
  num_gt (num_add (num_of_Z (clock e)) ttl) (num_of_Z t) = true ->
  fst (cacheGet key (set_clock t (snd (cacheSet key val ttl e)))) = Normal val.
Proof. intros _ _ _. apply cacheGet_after_cacheSet. Qed.

Lemma gets_from_mem (key : string) (v : JSValue) (ts : list Z) :
  forall e, mem e !! key = Some v ->
  exists e2, gets key ts e = (map (fun _ => Normal v) ts, e2) /\
             ls_reads e2 = ls_reads e /\ mem e2 !! key = Some v.
Proof.
  induction ts as [|t ts IH]; intros e Hm; simpl.
  - exists e. auto.
  - rewrite (cacheGet_mem_hit key v) by exact Hm.
    destruct (IH (set_clock t e) Hm) as (e2 & Hg & Hr & Hm2).
    rewrite Hg. exists e2. auto.
Qed.

(** C4. A valid entry (its [exp] after the clock) present in
    [localStorage] only: one [get] returns its [val], reading
    [localStorage] once, and puts it in [mem]; every later [get], at any
    clock values, returns it again without a further read of
    [localStorage]. *)
Theorem promotion_served_from_memory (key raw : string) (obj : JSValue)
    (e : Env) :
  mem e !! key = None ->
  ls e !! key = Some raw ->
  raw <> "" ->
  JSON_parse raw = Some obj ->
  fresh_at (clock e) obj = true ->
  exists e1,
    cacheGet key e = (Normal (stored_val obj), e1) /\
    mem e1 !! key = Some (stored_val obj) /\
    ls_reads e1 = (ls_reads e ++ [key])%list /\
    forall ts : list Z, exists e2,
      gets key ts e1 = (map (fun _ => Normal (stored_val obj)) ts, e2) /\
      ls_reads e2 = ls_reads e1.
Proof.
  intros Hm Hl Hne Hp Hf.
  rewrite (cacheGet_store_path key raw e Hm Hl Hne), cacheGet_try_run, Hp.
  destruct obj as [| | | | | |fs]; try discriminate Hf.
  simpl in Hf. simpl.
  destruct (assoc "exp" fs) as [[| | |[|q]| | |]|]; try discriminate Hf.
  simpl. unfold js_gt_num. simpl. rewrite Hf.
  eexists. split; [reflexivity|]. simpl.
  split; [apply lookup_insert_eq|]. split; [reflexivity|].
  intros ts.
  destruct (gets_from_mem key (default JUndefined (assoc "val" fs)) ts
              (set_mem (<[key:=default JUndefined (assoc "val" fs)]> (mem e))
                 (set_ls_reads (ls_reads e ++ [key]) e)))
    as (e2 & Hg & Hr & _); [apply lookup_insert_eq|].
  exists e2. split; [exact Hg | exact Hr].
Qed.

(** C8 (amended). [get] never throws, whatever [localStorage] holds. With
    the key not in [mem], what it answers is decided by line 19 alone: the
    [val] member of the stored entry when the text is JSON and its [exp],
    converted to a number the way [>] converts it, is greater than the
    clock, and [null] in every other case. So text that is not JSON, JSON
    without the [{val, exp}] envelope, and an envelope whose numeric [exp]
    has passed all give absent ([null], or [undefined] for a live [exp]
    with no [val]); and an entry whose [exp] is a string is judged by the
    number the string converts to. *)
Theorem get_never_throws_and_misses (key : string) (e : Env) :
  (exists v e', cacheGet key e = (Normal v, e')) /\
  (forall raw : string,
     mem e !! key = None ->
     ls e !! key = Some raw ->
     fst (cacheGet key e)
     = Normal (if String.eqb raw "" then JNull
               else match JSON_parse raw with
                    | Some obj =>
                        if live_at (clock e) obj then stored_val obj else JNull
                    | None => JNull
                    end) /\
     (match JSON_parse raw with
      | None => True
      | Some obj => lacks_envelope obj || expired_at (clock e) obj = true
      end ->
      exists v e', cacheGet key e = (Normal v, e') /\ absent v = true) /\
     (forall (v : JSValue) (s : string),
        raw <> "" ->
        JSON_parse raw = Some (JObj [("val", v); ("exp", JStr s)]) ->
        fst (cacheGet key e)
        = Normal (if num_gt (StringToNumber s) (num_of_Z (clock e))
                  then v else JNull))).
Proof.
  split; [apply cacheGet_total|].
  intros raw Hm Hl.
  destruct (cacheGet_stored key raw e Hm Hl) as (e' & Hrun & _).
  split; [rewrite Hrun; reflexivity|]. split.
  - intros Hbad. rewrite Hrun. eexists _, _. split; [reflexivity|].
    destruct (String.eqb raw ""); [reflexivity|].
    destruct (JSON_parse raw) as [obj|]; [|reflexivity].
    unfold live_at, stored_val.
    destruct obj as [| |b|n|s|items|fs]; simpl;
      try reflexivity;
      try (destruct (js_gt_num JUndefined _) as [[|]|x]; reflexivity).
    apply orb_true_iff in Hbad. simpl in Hbad. unfold js_gt_num.
    destruct (assoc "exp" fs) as [ex|] eqn:Hex; simpl.
    2: reflexivity.
    destruct (ToNumber ex) as [x|x] eqn:Hx; [|reflexivity].
    destruct (num_gt x (num_of_Z (clock e))) eqn:Hgt; [|reflexivity].
    destruct (assoc "val" fs) as [v|] eqn:Hv; simpl; [|reflexivity].
    exfalso. destruct Hbad as [Hb|Hb]; [discriminate Hb|].
    destruct ex as [| | |[|q]| | |]; try discriminate Hb.
    simpl in Hx. injection Hx as <-. simpl in Hgt. rewrite Hb in Hgt.
    discriminate Hgt.
  - intros v s Hne Hp. rewrite Hrun, Hp.
    destruct (String.eqb_spec raw ""); [contradiction|].
    unfold live_at, js_gt_num. simpl.
    destruct (num_gt _ _); reflexivity.
Qed.

End CacheClaims.

(** ** The fetchers *)

Section FetcherFacts.
Context `{Platform}.

Lemma getJSON_run (url key : string) (e : Env) :
  exists c e1, cacheGet key e = (Normal c, e1) /\
    getJSON url key e =
    if truthy c then (Normal (Ready (mkFetched c true)), e1)
    else (Normal (Pending url key), set_fetched (fetched e1 ++ [url]) e1).
Proof.
  destruct (cacheGet_total key e) as (c & e1 & Hc).
  exists c, e1. split; [exact Hc|].
  unfold getJSON, bind. rewrite Hc. destruct (truthy c); reflexivity.
Qed.

Lemma getJSON_resume_run (key : string) (d : JSValue) (e : Env) :
  getJSON_resume key (Normal d) e =
  (Normal (mkFetched d false), snd (cacheSet key d ten_minutes e)).
Proof. reflexivity. Qed.

Lemma forecast_run (x y : number) (u : string) (e : Env) :
  forecast (JNum x) (JNum y) u e =
  getJSON (forecast_url (NumberToString x) (NumberToString y) u)
          (forecast_key (toFixed2 x) (toFixed2 y) u) e.
Proof. reflexivity. Qed.

Lemma append_assoc (a b c : string) : (a ++ b) ++ c = a ++ (b ++ c).
Proof.
  induction a as [|ch a IH]; [reflexivity|].
  change (String ch ((a ++ b) ++ c) = String ch (a ++ (b ++ c))).
  now rewrite IH.
Qed.

Lemma forecast_url_unit (a b u : string) :
  exists front,
    forecast_url a b u =
    front ++ "&temperature_unit="
          ++ (if String.eqb u "imperial" then "fahrenheit" else "celsius").
Proof.
  exists ("https://api.open-meteo.com/v1/forecast?latitude=" ++ a
          ++ "&longitude=" ++ b
          ++ "&current_weather=true&hourly=temperature_2m,precipitation_probability"
          ++ "&daily=temperature_2m_max,temperature_2m_min,precipitation_probability_mean,weathercode"
          ++ "&forecast_days=7&timezone=auto").
  unfold forecast_url, temperature_unit.
  rewrite !append_assoc. reflexivity.
Qed.

Lemma nearest_hundredth_spec (a : Q) :
  (inject_Z (nearest_hundredth a) - (1 # 2) <= a * 100
   < inject_Z (nearest_hundredth a) + (1 # 2))%Q.
Proof.
  unfold nearest_hundredth.
  pose proof (Qfloor_le (a * 100 + (1 # 2))) as Hle.
  pose proof (Qlt_floor (a * 100 + (1 # 2))) as Hlt.
  rewrite inject_Z_plus in Hlt. change (inject_Z 1) with 1%Q in Hlt.
  split; lra.
Qed.

Lemma geocode_resume_run (key : string) (res : JSValue) (e : Env) :
  is_nullish res = false ->
  exists results,
    get_prop res "results" = Normal results /\
    geocode_resume key (Normal res) e =
    let d := if truthy results then results else JArr [] in
    (Normal d, snd (cacheSet key d thirty_days e)).
Proof.
  intros Hn. unfold geocode_resume, bind, lift.
  destruct res; try discriminate Hn; simpl; eexists; split; reflexivity.
Qed.

End FetcherFacts.

Section FetcherClaims.
Context `{Platform}.

(** The request of [forecast(lat, lon, units)]: the cache is looked up
    under the key made of [lat] and [lon], each rounded to two decimals by
    [toFixed(2)], and of [units]. When the cache has nothing truthy for it,
    one request is sent whose [temperature_unit] is [fahrenheit] if [units]
    is [imperial] and [celsius] otherwise, and the response is stored under
    the same key with the expiry 600000 ms ahead. *)
Lemma forecast_key_unit_ttl (x y : number) (u : string) (e : Env) :
  let key := "meteo:" ++ toFixed2 x ++ "," ++ toFixed2 y ++ ":" ++ u in
  (forall q : Q, x = Num q -> (Qabs q < inject_Z (10 ^ 21))%Q ->
     exists n : Z,
       toFixed2 x = (if Qle_bool 0 q then "" else "-") ++ fixed2_digits n /\
       (inject_Z n - (1 # 2) <= Qabs q * 100 < inject_Z n + (1 # 2))%Q) /\
  exists c e1,
    cacheGet key e = (Normal c, e1) /\
    (truthy c = true ->
       forecast (JNum x) (JNum y) u e =
       (Normal (Ready (mkFetched c true)), e1)) /\
    (truthy c = false ->
       exists front,
         let url := front ++ "&temperature_unit="
                          ++ (if String.eqb u "imperial" then "fahrenheit"
                              else "celsius") in
         forecast (JNum x) (JNum y) u e =
         (Normal (Pending url key), set_fetched (fetched e1 ++ [url]) e1) /\
         forall (d : JSValue) (e2 : Env), exists e3,
           getJSON_resume key (Normal d) e2 = (Normal (mkFetched d false), e3) /\
           mem e3 !! key = Some d /\
           ls e3 !! key =
           Some (JSON_stringify
                   (envelope d (num_add (num_of_Z (clock e2))
                                        (num_of_Z 600000))))).
Proof.
  intros key.
  assert (Hk : key = forecast_key (toFixed2 x) (toFixed2 y) u) by reflexivity.
  clearbody key. subst key. split.
  - intros q -> Hq. exists (nearest_hundredth (Qabs q)). split.
    + unfold toFixed2.
      destruct (Qle_bool (inject_Z (10 ^ 21)) (Qabs q)) eqn:Hbig; [|reflexivity].
      apply Qle_bool_iff in Hbig. exfalso. apply (Qlt_not_le _ _ Hq Hbig).
    + apply nearest_hundredth_spec.
  - rewrite forecast_run.
    destruct (getJSON_run (forecast_url (NumberToString x) (NumberToString y) u)
                          (forecast_key (toFixed2 x) (toFixed2 y) u) e)
      as (c & e1 & Hc & Hg).
    exists c, e1. split; [exact Hc|].
    rewrite Hg. split; intros Ht; rewrite Ht.
    + reflexivity.
    + destruct (forecast_url_unit (NumberToString x) (NumberToString y) u)
        as (front & Hfront).
      exists front. simpl. rewrite <- Hfront. split; [reflexivity|].
      intros d e2. eexists. split; [apply getJSON_resume_run|].
      rewrite cacheSet_run. simpl.
      split; apply lookup_insert_eq.
Qed.

(** C7 (amended). [geocode(q)] works under the key [geo:] followed by [q]
    in lower case. On a response other than [null], it does not throw: it
    returns the [results] of the response, or the empty list when the
    response has no results (no [results] member, a falsy one or an empty
    list). What it returns is truthy and is stored under that key with the
    expiry 30 days ahead. Until then a [geocode] of any query with the
    same lower-case form returns it from the cache and sends no request,
    in the same page and, read back from [localStorage], in a later one;
    a later page that asks when the 30 days have passed sends the request
    again. On a [null] response [geocode] throws a TypeError and stores
    nothing. When the cache has nothing truthy for the key, one request is
    sent. *)
Theorem geocode_empty_list_and_shared_key (q : string) (e : Env) :
  let key := "geo:" ++ toLowerCase q in
  let month := 1000 * 60 * 60 * 24 * 30 in
  (forall (res : JSValue) (e0 : Env),
     is_nullish res = false ->
     exists d e1,
       geocode_resume (geocode_key q) (Normal res) e0 = (Normal d, e1) /\
       (no_results res = true -> d = JArr []) /\
       (no_results res = false -> get_prop res "results" = Normal d) /\
       mem e1 !! key = Some d /\
       ls e1 !! key
       = Some (JSON_stringify (envelope d (num_of_Z (clock e0 + month)))) /\
       (forall (q2 : string) (t : Z),
          toLowerCase q2 = toLowerCase q ->
          clock e0 <= t < clock e0 + month ->
          geocode q2 (set_clock t e1) = (Normal (Ready d), set_clock t e1)) /\
       (JSON_stringify (envelope d (num_of_Z (clock e0 + month))) <> "" ->
        JSON_parse (JSON_stringify (envelope d (num_of_Z (clock e0 + month))))
        = Some (envelope d (num_of_Z (clock e0 + month))) ->
        forall (q2 : string) (t : Z),
          toLowerCase q2 = toLowerCase q ->
          if t <? clock e0 + month
          then exists e2,
                 geocode q2 (fresh_page t e1) = (Normal (Ready d), e2) /\
                 fetched e2 = []
          else forall q' : string,
                 encodeURIComponent q2 = Some q' ->
                 exists e2,
                   geocode q2 (fresh_page t e1)
                   = (Normal (Pending (geocode_url q') key), e2) /\
                   fetched e2 = [geocode_url q'])) /\
  (forall (res : JSValue) (e0 : Env),
     is_nullish res = true ->
     geocode_resume (geocode_key q) (Normal res) e0 = (Throw TypeError, e0)) /\
  (forall (c : JSValue) (e1 : Env) (q' : string),
     cacheGet key e = (Normal c, e1) ->
     truthy c = false ->
     encodeURIComponent q = Some q' ->
     geocode q e =
     (Normal (Pending (geocode_url q') key),
      set_fetched (fetched e1 ++ [geocode_url q']) e1)).
Proof.
  intros key month. split; [|split].
  - intros res e0 Hn.
    destruct (geocode_resume_run (geocode_key q) res e0 Hn) as (r & Hr & Hrun).
    rewrite Hrun. clear Hrun.
    set (d := if truthy r then r else JArr []).
    assert (Hd : truthy d = true).
    { unfold d. destruct (truthy r) eqn:Ht; [exact Ht | reflexivity]. }
    exists d. eexists. split; [reflexivity|].
    fold d. rewrite cacheSet_run. unfold thirty_days. rewrite num_add_of_Z.
    fold month. cbn [snd]. change (geocode_key q) with key.
    split; [|split; [|split; [|split; [|split]]]].
    + unfold no_results. rewrite Hr. unfold d.
      destruct r as [| |b|n|s|[|x items]|fs]; simpl; try reflexivity;
        try discriminate; intros Hf; apply negb_true_iff in Hf;
        simpl in Hf; rewrite Hf; reflexivity.
    + unfold no_results. rewrite Hr. unfold d. intros Hf. f_equal.
      destruct r as [| |b|n|s|[|x items]|fs]; simpl in *; try discriminate;
        try reflexivity; apply negb_false_iff in Hf; rewrite Hf; reflexivity.
    + simpl. apply lookup_insert_eq.
    + simpl. apply lookup_insert_eq.
    + intros q2 t Hq2 _. unfold geocode, geocode_key, bind. rewrite Hq2.
      fold key. rewrite (cacheGet_mem_hit _ d); [rewrite Hd; reflexivity|].
      simpl. apply lookup_insert_eq.
    + intros Hne Hrt q2 t Hq2.
      unfold geocode, geocode_key, bind. rewrite Hq2. fold key.
      match goal with
      | |- context [fresh_page t ?x] => set (e1 := fresh_page t x)
      end.
      assert (Hm1 : mem e1 !! key = None) by apply lookup_empty.
      assert (Hl1 : ls e1 !! key
                    = Some (JSON_stringify
                              (envelope d (num_of_Z (clock e0 + month)))))
        by (simpl; apply lookup_insert_eq).
      destruct (cacheGet_stored key _ e1 Hm1 Hl1) as (e2 & Hrun & Hf & _).
      rewrite Hrun, Hrt.
      destruct (String.eqb_spec
                  (JSON_stringify (envelope d (num_of_Z (clock e0 + month))))
                  "") as [Heq|_]; [contradiction|].
      unfold live_at, js_gt_num, stored_val. simpl.
      rewrite Qle_bool_inject_Z, Z.ltb_antisym.
      destruct (clock e0 + month <=? t); simpl.
      * intros q' Hq'. rewrite Hq'. eexists. split; [reflexivity|].
        simpl. rewrite Hf. reflexivity.
      * rewrite Hd. eexists. split; [reflexivity|]. exact Hf.
  - intros res e0 Hn. destruct res; try discriminate Hn; reflexivity.
  - intros c e1 q' Hc Ht Hq'. unfold geocode, geocode_key, bind.
    fold key. rewrite Hc, Ht, Hq'. reflexivity.
Qed.

End FetcherClaims.

(** ** The controller *)

Section UnitsAtZero.
Context `{Platform}.

(** The call of [loadWeather]: what its synchronous part did stays, an
    exception in it is a rejection that nothing handles. *)
Lemma call_loadWeather_run la lo a :
  call_loadWeather la lo a =
  match loadWeather_start la lo a with
  | (Normal r, a1) => (Normal (Some (r, la, lo)), a1)
  | (Throw x, a1) => (Normal None, set_uncaught (uncaught a1 ++ [x]) a1)
  end.
Proof.
  unfold call_loadWeather, try_catch, bind, escape, modify, ret.
  destruct (loadWeather_start la lo a) as [[r|x] a1]; reflexivity.
Qed.

(** The observer does not look at the log of uncaught exceptions. *)
Lemma notify_set_uncaught n l a :
  notify n (set_uncaught l a) = set_uncaught l (notify n a).
Proof.
  unfold notify. change (observing (set_uncaught l a)) with (observing a).
  change (mutations (set_uncaught l a)) with (mutations a).
  destruct (observing a && _); [|reflexivity].
  unfold observer_callback, bind, get_state, with_env, ret.
  change (state (set_uncaught l a)) with (state a).
  destruct (truthy (lat (state a)) && truthy (lon (state a))); reflexivity.
Qed.

Lemma is_zero_falsy (v : JSValue) : is_zero v = true -> truthy v = false.
Proof.
  destruct v as [| | |[|q]| | |]; simpl; try discriminate.
  intros ->. reflexivity.
Qed.

Lemma observer_callback_guard (a : App) :
  truthy (lat (state a)) && truthy (lon (state a)) = false ->
  observer_callback a = (Normal tt, a).
Proof.
  intros Hg. unfold observer_callback, bind, get_state. simpl.
  rewrite Hg. reflexivity.
Qed.

Lemma notify_guard (n : nat) (a : App) :
  truthy (lat (state a)) && truthy (lon (state a)) = false ->
  notify n a = a.
Proof.
  intros Hg. unfold notify. rewrite (observer_callback_guard a Hg).
  destruct (observing a && _); reflexivity.
Qed.

Lemma setUnits_without_location (u : string) (a : App) :
  truthy (lat (state a)) && truthy (lon (state a)) = false ->
  setUnits u a =
  (Normal None,
   set_dom (dom a ++ [SetText "#unitText" (Text (unit_label u))])
     (set_env (set_ls (<["units" := u]> (ls (env a))) (env a))
        (set_state (mkSession u (lat (state a)) (lon (state a)) (place (state a)))
           a))).
Proof.
  intros Hg. unfold setUnits, bind, get_state, put_state, with_env,
    localStorage_setItem, write. simpl. rewrite Hg. reflexivity.
Qed.

(** C10. When the active latitude or longitude is the number 0, toggling
    the unit system stores the new preference and starts no load: no
    request is sent and none is put in flight. The observer, notified of
    the change of the unit label, does not write [lastCoords], and it does
    not write it on any later notification either while the coordinate
    is 0. *)
Theorem toggle_at_zero_coordinate (a : App) (checked : bool) :
  is_zero (lat (state a)) || is_zero (lon (state a)) = true ->
  let u := if checked then "imperial" else "metric" in
  let a' := step (ToggleUnits checked) a in
  units (state a') = u /\
  ls (env a') !! "units" = Some u /\
  fetched (env a') = fetched (env a) /\
  inflight a' = inflight a /\
  started a' = started a /\
  ls (env a') !! "lastCoords" = ls (env a) !! "lastCoords" /\
  forall n : nat, notify n a = a /\ notify n a' = a'.
Proof.
  intros Hz u a'.
  assert (Hg : truthy (lat (state a)) && truthy (lon (state a)) = false).
  { apply orb_true_iff in Hz. apply andb_false_iff.
    destruct Hz as [Hz|Hz]; [left|right]; apply is_zero_falsy, Hz. }
  subst a'. unfold step, handler_job. fold u.
  rewrite (setUnits_without_location u a Hg).
  rewrite notify_guard by exact Hg.
  simpl. repeat split.
  - apply lookup_insert_eq.
  - apply lookup_insert_ne. discriminate.
  - apply notify_guard. exact Hg.
  - apply notify_guard. exact Hg.
Qed.

End UnitsAtZero.

(** ** Frame rules *)

Section FrameRules.
Context {S : Type} (R : S -> S -> Prop) `{!PreOrder R}.

Lemma respects_bind {A B} (c : ST S A) (k : A -> ST S B) :
  respects R c -> (forall x, respects R (k x)) -> respects R (bind c k).
Proof.
  intros Hc Hk s. unfold bind. specialize (Hc s).
  destruct (c s) as [[x|err] s1]; simpl in *; [|exact Hc].
  etransitivity; [exact Hc | apply Hk].
Qed.

Lemma respects_try_catch {A} (c : ST S A) (h : JSError -> ST S A) :
  respects R c -> (forall x, respects R (h x)) -> respects R (try_catch c h).
Proof.
  intros Hc Hh s. unfold try_catch. specialize (Hc s).
  destruct (c s) as [[x|err] s1]; simpl in *; [exact Hc|].
  etransitivity; [exact Hc | apply Hh].
Qed.

Lemma respects_bind_post {A B} (Q : A -> Prop) (c : ST S A) (k : A -> ST S B) :
  respects R c ->
  (forall s x, fst (c s) = Normal x -> Q x) ->
  (forall x, Q x -> respects R (k x)) ->
  respects R (bind c k).
Proof.
  intros Hc HQ Hk s. unfold bind. specialize (Hc s). specialize (HQ s).
  destruct (c s) as [[x|err] s1]; simpl in *; [|exact Hc].
  etransitivity; [exact Hc | apply Hk, HQ; reflexivity].
Qed.

Lemma respects_still {A} (c : ST S A) :
  (forall s, snd (c s) = s) -> respects R c.
Proof. intros Hc s. rewrite Hc. reflexivity. Qed.

Lemma respects_ret {A} (x : A) : respects R (ret x).
Proof. apply respects_still. reflexivity. Qed.

Lemma respects_throw {A} (x : JSError) : respects R (@throw S A x).
Proof. apply respects_still. reflexivity. Qed.

Lemma respects_lift {A} (o : Outcome A) : respects R (lift o).
Proof. apply respects_still. reflexivity. Qed.

End FrameRules.

Lemma respects_with_env {A} (RE : Env -> Env -> Prop) (R : App -> App -> Prop)
    (c : M A) :
  (forall a e', RE (env a) e' -> R a (set_env e' a)) ->
  respects RE c -> respects R (with_env c).
Proof.
  intros Hset Hc a. unfold with_env. specialize (Hc (env a)).
  destruct (c (env a)) as [o e']. simpl in *. apply Hset, Hc.
Qed.

#[local] Instance keeps_preorder {S X} (f : S -> X) : PreOrder (keeps f).
Proof.
  split; [intros s; reflexivity|].
  intros s1 s2 s3 H12 H23. unfold keeps in *. congruence.
Qed.

#[local] Instance dom_grows_preorder : PreOrder dom_grows.
Proof.
  split.
  - intros a. exists []. now rewrite app_nil_r.
  - intros a1 a2 a3 [p Hp] [q Hq]. exists (p ++ q)%list.
    now rewrite Hq, Hp, <- app_assoc.
Qed.

#[local] Instance quiet_preorder : PreOrder quiet.
Proof.
  split; [intros a; repeat split|].
  intros a1 a2 a3 (?&?&?) (?&?&?). unfold quiet. repeat split; congruence.
Qed.

(** Splits a frame goal along the structure of the computation; what is
    left are the primitive operations. *)
Ltac frame_step :=
  lazymatch goal with
  | |- respects _ (bind _ _) =>
      apply respects_bind; [typeclasses eauto | | intros ?]
  | |- respects _ (try_catch _ _) =>
      apply respects_try_catch; [typeclasses eauto | | intros ?]
  | |- respects _ (ret _) => apply respects_ret; typeclasses eauto
  | |- respects _ (throw _) => apply respects_throw; typeclasses eauto
  | |- respects _ (lift _) => apply respects_lift; typeclasses eauto
  | |- respects _ (match ?x with _ => _ end) => destruct x
  end.
Ltac frame := repeat frame_step.

(** The frame of every function of the program, for any relation on the
    environment [RE] and on the application state [R] that the primitive
    operations respect. [okkey] says which [localStorage] keys may be
    written. *)
Section GenericFrames.
Context `{Platform}.
Variable RE : Env -> Env -> Prop.
Variable R : App -> App -> Prop.
Variable okkey : string -> Prop.
Context `{!PreOrder RE} `{!PreOrder R}.

Hypothesis RE_mem_set : forall k v, respects RE (mem_set k v).
Hypothesis RE_getItem : forall k, respects RE (localStorage_getItem k).
Hypothesis RE_setItem :
  forall k v, okkey k -> respects RE (localStorage_setItem k v).
Hypothesis RE_fetch : forall url, respects RE (fetch url).
Hypothesis okkey_meteo : forall a b u, okkey (forecast_key a b u).
Hypothesis okkey_geo : forall q, okkey (geocode_key q).
Hypothesis okkey_units : okkey "units".

Hypothesis R_env : forall A (c : M A), respects RE c -> respects R (with_env c).
Hypothesis R_write : forall op, respects R (write op).
Hypothesis R_state : forall s, respects R (put_state s).
Hypothesis R_started :
  forall c, respects R (modify (fun a => set_started (started a ++ [c]) a)).
Hypothesis R_inflight_forecast :
  forall key la lo,
    okkey key ->
    respects R (modify (fun x => set_inflight
                                   (inflight x ++ [ReqForecast key la lo]) x)).
Hypothesis R_inflight_geocode :
  forall key,
    okkey key ->
    respects R (modify (fun x => set_inflight
                                   (inflight x ++ [ReqGeocode key]) x)).
Hypothesis R_completed :
  forall c, respects R (modify (fun a => set_completed (completed a ++ [c]) a)).
Hypothesis R_escape : forall x, respects R (escape x).

Ltac leaf :=
  first [ apply respects_still; [typeclasses eauto | reflexivity]
        | apply RE_mem_set | apply RE_getItem | apply RE_fetch
        | apply R_write | apply R_state | apply R_started
        | apply R_completed | apply R_escape ].

Lemma frame_cacheGet key : respects RE (cacheGet key).
Proof. unfold cacheGet, cacheGet_try, parse. frame; leaf. Qed.

Lemma frame_cacheSet key v ttl : okkey key -> respects RE (cacheSet key v ttl).
Proof. intros Hk. unfold cacheSet. frame; try leaf. now apply RE_setItem. Qed.

Lemma frame_getJSON url key : respects RE (getJSON url key).
Proof. unfold getJSON. frame; try leaf; apply frame_cacheGet. Qed.

Lemma frame_getJSON_resume key r :
  okkey key -> respects RE (getJSON_resume key r).
Proof.
  intros Hk. unfold getJSON_resume. frame; try leaf. now apply frame_cacheSet.
Qed.

Lemma frame_geocode q : respects RE (geocode q).
Proof. unfold geocode. frame; try leaf; apply frame_cacheGet. Qed.

Lemma frame_geocode_resume key r :
  okkey key -> respects RE (geocode_resume key r).
Proof.
  intros Hk. unfold geocode_resume. frame; try leaf. now apply frame_cacheSet.
Qed.

Lemma frame_forecast la lo u : respects RE (forecast la lo u).
Proof. unfold forecast. frame; try leaf. apply frame_getJSON. Qed.

Lemma frame_showSkeleton : respects R showSkeleton.
Proof. unfold showSkeleton. frame; leaf. Qed.

Lemma frame_renderCurrent l d : respects R (renderCurrent l d).
Proof. unfold renderCurrent. frame; leaf. Qed.

Lemma frame_renderDaily d : respects R (renderDaily d).
Proof. unfold renderDaily. frame; leaf. Qed.

Lemma frame_renderHourly d : respects R (renderHourly d).
Proof. unfold renderHourly. frame; leaf. Qed.

Lemma frame_loadWeather_finish la lo f : respects R (loadWeather_finish la lo f).
Proof.
  unfold loadWeather_finish. frame;
    first [leaf | apply frame_renderCurrent | apply frame_renderDaily
          | apply frame_renderHourly].
Qed.

Lemma frame_search_finish results : respects R (search_finish results).
Proof. unfold search_finish, hide_suggest. frame; leaf. Qed.

Lemma forecast_pending_key la lo u e url key :
  fst (forecast la lo u e) = Normal (Pending url key) ->
  exists a b, key = forecast_key a b u.
Proof.
  unfold forecast, bind, lift.
  destruct (call_toFixed2 la) as [a|]; [|discriminate].
  destruct (call_toFixed2 lo) as [b|]; [|discriminate].
  destruct (ToString la) as [sa|]; [|discriminate].
  destruct (ToString lo) as [sb|]; [|discriminate].
  destruct (getJSON_run (forecast_url sa sb u) (forecast_key a b u) e)
    as (c & e1 & _ & ->).
  destruct (truthy c); simpl; [discriminate|].
  intros [= _ <-]. eauto.
Qed.

Lemma geocode_pending_key q e url key :
  fst (geocode q e) = Normal (Pending url key) -> key = geocode_key q.
Proof.
  unfold geocode, bind.
  destruct (cacheGet_total (geocode_key q) e) as (c & e1 & ->).
  destruct (truthy c); simpl; [discriminate|].
  destruct (encodeURIComponent q); simpl; [|discriminate].
  now intros [= _ <-].
Qed.

Lemma with_env_result {A} (c : M A) (a : App) :
  fst (with_env c a) = fst (c (env a)).
Proof. unfold with_env. destruct (c (env a)); reflexivity. Qed.

Lemma frame_loadWeather_start la lo : respects R (loadWeather_start la lo).
Proof.
  unfold loadWeather_start.
  do 4 (frame_step; [first [leaf | apply frame_showSkeleton] | ]).
  apply (respects_bind_post R
           (fun r => match r with
                     | Pending _ key => okkey key
                     | Ready _ => True
                     end)).
  - apply R_env, frame_forecast.
  - intros a [f|url key] Hr; [exact I|].
    rewrite with_env_result in Hr.
    apply forecast_pending_key in Hr as (k1 & k2 & ->). apply okkey_meteo.
  - intros [f|url key] Hk; frame; try leaf.
    now apply R_inflight_forecast.
Qed.

Lemma frame_call_loadWeather la lo : respects R (call_loadWeather la lo).
Proof. unfold call_loadWeather. frame; try leaf. apply frame_loadWeather_start. Qed.

Lemma frame_setUnits u : respects R (setUnits u).
Proof.
  unfold setUnits. frame;
    first [leaf | now apply R_env, RE_setItem | apply frame_call_loadWeather].
Qed.

Lemma frame_read_units : respects R read_units.
Proof. unfold read_units. frame; try leaf. apply R_env, RE_getItem. Qed.

Lemma frame_init : respects R init.
Proof.
  unfold init. frame;
    first [leaf | apply R_env, RE_getItem | apply frame_call_loadWeather
          | apply R_env; unfold parse; frame; leaf].
Qed.

Lemma frame_set_place p : respects R (set_place p).
Proof. unfold set_place. frame; leaf. Qed.

Lemma frame_hide_suggest : respects R hide_suggest.
Proof. unfold hide_suggest. leaf. Qed.

(** Jobs and events. *)

Hypothesis R_observer : respects R observer_callback.
Hypothesis R_calls :
  forall text,
    respects R (modify (fun a => set_geocode_calls
                                   (geocode_calls a ++ [(clock (env a), text)]) a)).
Hypothesis R_observing : forall b a, R a (set_observing b a).
Hypothesis R_timer : forall x a, R a (set_timer x a).
Hypothesis R_advance : forall t a, R a (advance t a).
Hypothesis R_delete : forall i a, R a (set_inflight (delete i (inflight a)) a).

Lemma frame_notify n a : R a (notify n a).
Proof.
  unfold notify. destruct (observing a && _); [|reflexivity].
  apply R_observer.
Qed.

Lemma frame_landed {A} (c : ST App A) a : respects R c -> R a (landed (c a)).
Proof.
  intros Hc. specialize (Hc a). unfold landed.
  destruct (c a) as [[x|x] a1]; simpl in Hc; [exact Hc|].
  etransitivity; [exact Hc | apply R_escape].
Qed.

Lemma frame_job (body : ST App unit) a : respects R body -> R a (job body a).
Proof.
  intros Hb. unfold job.
  etransitivity; [apply (frame_landed body a Hb) | apply frame_notify].
Qed.

Lemma frame_handler_job (h : ST App Called) a :
  respects R h -> R a (handler_job h a).
Proof.
  intros Hh. unfold handler_job.
  pose proof (frame_landed h a Hh) as Hl. specialize (Hh a).
  destruct (h a) as [[[[[[f|url key] la] lo]|]|x] a1]; simpl in Hh, Hl;
    try (etransitivity; [exact Hl | apply frame_notify]).
  etransitivity; [exact Hh|]. etransitivity; [apply frame_notify|].
  apply frame_job, frame_loadWeather_finish.
Qed.

Lemma frame_search_start text : respects R (search_start text).
Proof.
  unfold search_start. destruct (String.eqb _ _).
  { frame; first [leaf | apply frame_hide_suggest]. }
  frame_step; [apply R_calls|].
  apply (respects_bind_post R
           (fun r => match r with
                     | Pending _ key => okkey key
                     | Ready _ => True
                     end)).
  - apply R_env, frame_geocode.
  - intros a [f|url key] Hr; [exact I|].
    rewrite with_env_result in Hr.
    apply geocode_pending_key in Hr as ->. apply okkey_geo.
  - intros [f|url key] Hk; frame; try leaf.
    now apply R_inflight_geocode.
Qed.

Lemma frame_search_job text a : R a (search_job text a).
Proof.
  unfold search_job. pose proof (frame_search_start text a) as Hs.
  destruct (search_start text a) as [[[results|]|x] a1]; simpl in Hs;
    try (etransitivity; [exact Hs | apply frame_notify]).
  etransitivity; [exact Hs|]. etransitivity; [apply frame_notify|].
  apply frame_job. frame; first [leaf | apply frame_search_finish].
Qed.

Lemma frame_settle i r a :
  (forall req, inflight a !! i = Some req -> okkey (request_key req)) ->
  R a (settle i r a).
Proof.
  intros Hk. unfold settle.
  destruct (inflight a !! i) as [req|]; [|reflexivity].
  specialize (Hk req eq_refl).
  etransitivity; [apply (R_delete i)|].
  destruct req as [key la lo|key]; simpl in Hk; apply frame_job.
  - frame; [apply R_env; now apply frame_getJSON_resume
           | apply frame_loadWeather_finish].
  - frame; first [leaf | apply frame_search_finish
                 | apply R_env; now apply frame_geocode_resume].
Qed.

Lemma frame_elapse t a : R a (elapse t a).
Proof.
  unfold elapse. destruct (timer a) as [[due text]|]; [|apply R_advance].
  destruct (due <=? t); [|apply R_advance].
  etransitivity; [apply (R_advance due)|].
  etransitivity; [apply (R_timer None)|].
  etransitivity; [apply frame_search_job | apply R_advance].
Qed.

Lemma frame_pick la lo name :
  respects R (let* _ := set_place (JStr name) in
              let* _ := hide_suggest in
              let* _ := write (SetProp "#q" "value" name) in
              call_loadWeather (JNum la) (JNum lo)).
Proof.
  frame; first [leaf | apply frame_set_place | apply frame_hide_suggest
               | apply frame_call_loadWeather].
Qed.

Lemma frame_located la lo :
  respects R (let* _ := set_place (JStr "Your location") in
              call_loadWeather (JNum la) (JNum lo)).
Proof.
  frame; first [leaf | apply frame_set_place | apply frame_call_loadWeather].
Qed.

(** The events that do not call [loadWeather]. *)
Lemma frame_step_plain ev a :
  match ev with
  | Input _ | Elapse _ | LocationFailed _ | Response _ _ => True
  | _ => False
  end ->
  (forall req, In req (inflight a) -> okkey (request_key req)) ->
  R a (step ev a).
Proof.
  intros Hev Hk. destruct ev as [text|t|checked|la lo name|la lo|msg|i r|];
    simpl; try contradiction.
  - unfold search. etransitivity; apply R_timer.
  - apply frame_elapse.
  - apply frame_job. leaf.
  - apply frame_settle. intros req Hreq. apply Hk.
    apply list_elem_of_In, list_elem_of_lookup. eauto.
Qed.

Lemma frame_step ev a :
  ev <> Reload ->
  (forall req, In req (inflight a) -> okkey (request_key req)) ->
  R a (step ev a).
Proof.
  intros Hev Hk. destruct ev as [text|t|checked|la lo name|la lo|msg|i r|];
    try (now apply frame_step_plain); try contradiction; simpl.
  - apply frame_handler_job, frame_setUnits.
  - apply frame_handler_job, frame_pick.
  - apply frame_handler_job, frame_located.
Qed.

Lemma frame_boot_script : respects R (let* _ := read_units in init).
Proof. frame; [apply frame_read_units | apply frame_init]. Qed.

Lemma frame_boot t store : R (blank t store) (boot t store).
Proof.
  unfold boot. pose proof (frame_boot_script (blank t store)) as Hs.
  destruct ((let* _ := read_units in init) (blank t store))
    as [[[[[[f|url key] la] lo]|]|x] a1]; simpl in Hs;
    try (etransitivity; [exact Hs | apply R_observing]);
    try (etransitivity; [exact Hs | apply R_escape]).
  etransitivity; [exact Hs|]. etransitivity; [apply (R_observing true)|].
  apply frame_job, frame_loadWeather_finish.
Qed.

End GenericFrames.

#[local] Instance any_env_preorder : PreOrder any_env.
Proof. split; [intros e | intros e1 e2 e3 _ _]; exact I. Qed.

#[local] Instance calm_preorder : PreOrder calm.
Proof.
  split.
  - intros a. repeat split. reflexivity.
  - intros a1 a2 a3 (?&?&?&?) (?&?&?&?). unfold calm.
    repeat split; try congruence. etransitivity; eassumption.
Qed.

(** Discharges the side conditions of the generic frame lemmas. *)
Ltac frame_side :=
  intros;
  first [ exact I
        | typeclasses eauto
        | solve [intros ?; exact I]
        | solve [intros ?; hnf; simpl; repeat split;
                 try reflexivity; try (eexists; reflexivity);
                 try (exists []; symmetry; apply app_nil_r)]
        | solve [hnf; simpl; repeat split;
                 try reflexivity; try (eexists; reflexivity);
                 try (exists []; symmetry; apply app_nil_r)] ].

Section ColdStart.
Context `{Platform}.

Lemma with_env_dom_grows {A} (c : M A) : respects dom_grows (with_env c).
Proof.
  intros a. unfold with_env. destruct (c (env a)). exists []. simpl.
  symmetry. apply app_nil_r.
Qed.

Lemma with_env_calm {A} (c : M A) : respects calm (with_env c).
Proof.
  intros a. unfold with_env. destruct (c (env a)). repeat split.
  exists []. simpl. symmetry. apply app_nil_r.
Qed.

Lemma observer_still_but_env (R : App -> App -> Prop) `{!PreOrder R} :
  (forall A (c : M A), respects R (with_env c)) ->
  respects R observer_callback.
Proof.
  intros Henv. unfold observer_callback. frame;
    first [apply Henv | apply respects_still; [typeclasses eauto | reflexivity]].
Qed.

Lemma observer_dom_grows : respects dom_grows observer_callback.
Proof. apply observer_still_but_env; [typeclasses eauto|]. intros. apply with_env_dom_grows. Qed.

Lemma observer_calm : respects calm observer_callback.
Proof. apply observer_still_but_env; [typeclasses eauto|]. intros. apply with_env_calm. Qed.

Lemma step_dom_grows ev a : ev <> Reload -> dom_grows a (step ev a).
Proof.
  intros Hev.
  apply (frame_step any_env dom_grows (fun _ => True)); try frame_side.
  - intros. apply with_env_dom_grows.
  - apply observer_dom_grows.
  - exact Hev.
Qed.

Lemma job_finish_calm la lo f a : calm a (job (loadWeather_finish la lo f) a).
Proof.
  apply (frame_job calm); try frame_side.
  - apply observer_calm.
  - apply (frame_loadWeather_finish calm); try frame_side.
Qed.

Lemma run_dom_grows evs : forall a,
  Forall (fun ev => ev <> Reload) evs ->
  dom_grows a (fold_left (fun a ev => step ev a) evs a).
Proof.
  induction evs as [|ev evs IH]; intros a Hevs; simpl; [reflexivity|].
  inversion Hevs as [|? ? Hev Hrest]; subst.
  etransitivity; [apply step_dom_grows, Hev | apply IH, Hrest].
Qed.

Lemma with_env_offline {A} (c : M A) :
  respects (keeps fetched) c -> respects offline (with_env c).
Proof.
  intros Hc a. unfold with_env. specialize (Hc (env a)).
  destruct (c (env a)) as [o e']. unfold offline, keeps in *. simpl in *.
  now rewrite Hc.
Qed.

Lemma observer_offline : respects offline observer_callback.
Proof.
  unfold observer_callback. frame;
    try (apply respects_still; [typeclasses eauto | reflexivity]).
  apply with_env_offline. intros e. reflexivity.
Qed.

Lemma job_finish_offline la lo f a :
  offline a (job (loadWeather_finish la lo f) a).
Proof.
  apply (frame_job offline); try typeclasses eauto.
  - intros ? ?. reflexivity.
  - apply observer_offline.
  - apply (frame_loadWeather_finish offline); try typeclasses eauto;
      intros ? ?; reflexivity.
Qed.

Lemma job_finish_observing la lo f a :
  observing (job (loadWeather_finish la lo f) a) = observing a.
Proof.
  apply (frame_job (keeps observing)); try typeclasses eauto.
  - intros ? ?. reflexivity.
  - apply observer_still_but_env; [typeclasses eauto|].
    intros A c x. unfold with_env. destruct (c (env x)); reflexivity.
  - apply (frame_loadWeather_finish (keeps observing)); try typeclasses eauto;
      intros ? ?; reflexivity.
Qed.

Lemma boot_cold t store :
  store !! "lastCoords" = None ->
  JSON_parse "null" = Some JNull ->
  exists c e1,
    let key := forecast_key "19.08" "72.88" (units_of store) in
    cacheGet key (env (cold t store)) = (Normal c, e1) /\
    boot t store =
    (if truthy c
     then job (loadWeather_finish (JNum fallback_lat) (JNum fallback_lon)
                 (mkFetched c true))
              (set_observing true (set_env e1 (cold t store)))
     else set_observing true
            (set_inflight [ReqForecast key (JNum fallback_lat) (JNum fallback_lon)]
               (set_env (set_fetched
                           (fetched e1 ++
                            [forecast_url (NumberToString fallback_lat)
                               (NumberToString fallback_lon) (units_of store)]) e1)
                  (cold t store)))).
Proof.
  intros Hlc Hnull.
  destruct (getJSON_run
              (forecast_url (NumberToString fallback_lat)
                 (NumberToString fallback_lon) (units_of store))
              (forecast_key "19.08" "72.88" (units_of store))
              (env (cold t store))) as (c & e1 & Hc & Hg).
  exists c, e1. split; [exact Hc|].
  unfold boot, bind, read_units, init, with_env, localStorage_getItem,
    put_state, get_state, write, parse, call_loadWeather, try_catch,
    loadWeather_start, showSkeleton, modify, bind, ret.
  simpl. rewrite Hlc. simpl. rewrite Hnull. simpl.
  match goal with
  | |- context [with_env ?c ?a] => change a with (cold t store)
  end.
  unfold with_env. rewrite forecast_run.
  change (toFixed2 fallback_lat) with "19.08".
  change (toFixed2 fallback_lon) with "72.88".
  fold (units_of store). rewrite Hg.
  destruct (truthy c); reflexivity.
Qed.

(** C9. With no [lastCoords] in [localStorage], the page load makes
    (19.076, 72.8777) the active coordinates and [Mumbai, IN] the place
    name, starts one load for them and installs the observer. The load
    looks the cache up under [meteo:19.08,72.88:<units>]: when what it finds
    is truthy, no request is sent and the rest of [loadWeather] runs on it
    at once; otherwise exactly one request is sent, the forecast URL for
    these coordinates, and its response, when it comes, is cached and
    rendered by the rest of [loadWeather] for these coordinates. With
    nothing stored under that key the request is sent. The DOM log of the
    session begins with the unit label and the skeleton placeholders, so
    every write of fetched data comes after the skeleton was shown. *)
Theorem cold_start_fallback_then_skeleton (t : Z) (store : gmap string string) :
  store !! "lastCoords" = None ->
  JSON_parse "null" = Some JNull ->
  let a := boot t store in
  let u := units_of store in
  let key := forecast_key "19.08" "72.88" u in
  let url := forecast_url (NumberToString fallback_lat)
               (NumberToString fallback_lon) u in
  state a = mkSession u (JNum (Num (19076 # 1000))) (JNum (Num (728777 # 10000)))
                      (JStr "Mumbai, IN") /\
  started a = [(JNum fallback_lat, JNum fallback_lon, JStr "Mumbai, IN")] /\
  observing a = true /\
  (exists c e1,
     cacheGet key (env (cold t store)) = (Normal c, e1) /\
     if truthy c
     then fetched (env a) = [] /\ inflight a = [] /\
          a = job (loadWeather_finish (JNum fallback_lat) (JNum fallback_lon)
                     (mkFetched c true))
                  (set_observing true (set_env e1 (cold t store)))
     else fetched (env a) = [url] /\
          inflight a = [ReqForecast key (JNum fallback_lat) (JNum fallback_lon)] /\
          forall d : JSValue,
            step (Response 0 (Normal d)) a
            = job (let* f := with_env (getJSON_resume key (Normal d)) in
                   loadWeather_finish (JNum fallback_lat) (JNum fallback_lon) f)
                  (set_inflight [] a)) /\
  (store !! key = None ->
   fetched (env a) = [url] /\
   inflight a = [ReqForecast key (JNum fallback_lat) (JNum fallback_lon)]) /\
  forallb (fun op => negb (is_data_op op)) (unit_ops u) = true /\
  forall evs : list Event,
    Forall (fun ev => ev <> Reload) evs ->
    exists post,
      dom (fold_left (fun x ev => step ev x) evs a)
      = (unit_ops u ++ skeleton_ops ++ post)%list.
Proof.
  intros Hlc Hnull a u key url.
  destruct (boot_cold t store Hlc Hnull) as (c & e1 & Hc & Hboot).
  fold u key url in Hc, Hboot. fold a in Hboot.
  assert (He1 : fetched e1 = [] /\ (store !! key = None -> truthy c = false)).
  { destruct (cacheGet_reads key (env (cold t store)))
      as (c' & e' & Hc' & Hf & _ & Hmiss).
    rewrite Hc in Hc'. injection Hc' as <- <-.
    split; [exact Hf|]. intros Hk. rewrite (Hmiss eq_refl Hk). reflexivity. }
  destruct He1 as (Hf1 & Hmiss).
  assert (Ha : state a = state (cold t store) /\
               started a = started (cold t store) /\
               observing a = true /\
               dom_grows (cold t store) a /\
               if truthy c
               then fetched (env a) = [] /\ inflight a = []
               else fetched (env a) = [url] /\
                    inflight a = [ReqForecast key (JNum fallback_lat)
                                    (JNum fallback_lon)]).
  { destruct (truthy c).
    - set (a0 := set_observing true (set_env e1 (cold t store))) in *.
      destruct (job_finish_calm (JNum fallback_lat) (JNum fallback_lon)
                  (mkFetched c true) a0) as (Hs & Hst & Hi & Hd).
      pose proof (job_finish_offline (JNum fallback_lat) (JNum fallback_lon)
                    (mkFetched c true) a0) as Hoff.
      pose proof (job_finish_observing (JNum fallback_lat) (JNum fallback_lon)
                    (mkFetched c true) a0) as Ho.
      unfold offline, keeps in Hoff. injection Hoff as Hf _ _.
      rewrite Hboot, Hs, Hst, Hi, Ho, Hf. repeat split; auto.
    - rewrite Hboot. simpl. rewrite Hf1. repeat split; auto.
      exists []. reflexivity. }
  destruct Ha as (Hs & Hst & Ho & [post Hd] & Hload).
  split; [exact Hs|]. split; [exact Hst|]. split; [exact Ho|].
  split; [|split; [|split]].
  - exists c, e1. split; [exact Hc|].
    destruct (truthy c).
    + destruct Hload as (Hf & Hi). repeat split; assumption.
    + destruct Hload as (Hf & Hi). split; [exact Hf|]. split; [exact Hi|].
      intros d. cbn [step]. unfold settle. rewrite Hi. reflexivity.
  - intros Hk. rewrite (Hmiss Hk) in Hload. exact Hload.
  - unfold unit_ops; reflexivity.
  - intros evs Hevs. destruct (run_dom_grows evs a Hevs) as [post' Hd'].
    exists (post ++ post')%list. rewrite Hd', Hd.
    unfold cold, dom. rewrite <- !app_assoc. reflexivity.
Qed.

End ColdStart.

Section Debounce.
Context `{Platform}.

Lemma quiet_with_env {A} (c : M A) :
  respects (keeps clock) c -> respects quiet (with_env c).
Proof.
  apply respects_with_env. intros a e' He. repeat split. exact He.
Qed.

Lemma quiet_observer : respects quiet observer_callback.
Proof.
  unfold observer_callback. frame;
    try (apply respects_still; [typeclasses eauto | reflexivity]).
  apply quiet_with_env. intros e. reflexivity.
Qed.

Ltac quiet_side :=
  try frame_side; try apply quiet_observer;
  try (intros; apply quiet_with_env; assumption).

Lemma quiet_notify n a : quiet a (notify n a).
Proof. apply (frame_notify quiet); quiet_side. Qed.

Lemma quiet_job_search_finish results a :
  quiet a (job (try_catch (search_finish results) (fun _ => ret tt)) a).
Proof.
  apply (frame_job quiet); quiet_side.
  frame; try (apply respects_ret; typeclasses eauto).
  apply (frame_search_finish quiet); quiet_side.
Qed.

Lemma quiet_boot t store : quiet (blank t store) (boot t store).
Proof. apply (frame_boot (keeps clock) quiet (fun _ => True)); quiet_side. Qed.

Lemma quiet_geocode_tail text :
  respects quiet
    (let* r := with_env (geocode text) in
     match r with
     | Ready results => ret (Some results)
     | Pending url key =>
         run modify (fun a => set_inflight (inflight a ++ [ReqGeocode key]) a) in
         ret None
     end).
Proof.
  frame; try (apply respects_still; [typeclasses eauto | reflexivity]).
  - apply quiet_with_env.
    apply (frame_geocode (keeps clock)); quiet_side.
  - intros a. repeat split.
Qed.

(** The body of the debounced function logs one [geocode] call, unless the
    text is blank. *)
Lemma search_job_calls text a :
  geocode_calls (search_job text a) =
  (geocode_calls a ++
   if String.eqb (trim text) "" then [] else [(clock (env a), text)])%list.
Proof.
  unfold search_job.
  assert (Hstart : exists a1,
             snd (search_start text a) = a1 /\
             geocode_calls a1 =
             (geocode_calls a ++
              if String.eqb (trim text) "" then []
              else [(clock (env a), text)])%list).
  { unfold search_start. destruct (String.eqb (trim text) "").
    - eexists. split; [reflexivity|]. simpl. symmetry. apply app_nil_r.
    - eexists. split; [reflexivity|].
      unfold bind at 1. unfold modify at 1.
      match goal with
      | |- geocode_calls (snd (?tail ?a')) = _ =>
          destruct (quiet_geocode_tail text a') as (_ & -> & _)
      end.
      reflexivity. }
  destruct Hstart as (a1 & Ha1 & Hcalls).
  destruct (search_start text a) as [[[results|]|x] a1']; simpl in Ha1;
    subst a1'.
  - destruct (quiet_job_search_finish results (notify (mutations a) a1))
      as (_ & -> & _).
    destruct (quiet_notify (mutations a) a1) as (_ & -> & _). exact Hcalls.
  - destruct (quiet_notify (mutations a) a1) as (_ & -> & _). exact Hcalls.
  - destruct (quiet_notify (mutations a) a1) as (_ & -> & _). exact Hcalls.
Qed.

(** A keystroke followed by less than the debounce window: the pending
    timeout is replaced and nothing fires. *)
Lemma keystroke_then_pause text t' a :
  t' < clock (env a) + 300 ->
  let a' := step (Elapse t') (step (Input text) a) in
  clock (env a') = Z.max t' (clock (env a)) /\
  geocode_calls a' = geocode_calls a.
Proof.
  intros Hlt. simpl. unfold elapse, search, debounce_wait. simpl.
  destruct (Z.leb_spec (clock (env a) + 300) t') as [Hle|_]; [lia|].
  split; reflexivity.
Qed.

(** A keystroke followed by the whole window: its timeout fires when due. *)
Lemma keystroke_then_fire text t' a :
  clock (env a) + 300 <= t' ->
  geocode_calls (step (Elapse t') (step (Input text) a)) =
  (geocode_calls a ++
   if String.eqb (trim text) "" then []
   else [(clock (env a) + 300, text)])%list.
Proof.
  intros Hle. simpl. unfold elapse, search, debounce_wait. simpl.
  destruct (Z.leb_spec (clock (env a) + 300) t') as [_|Hlt]; [|lia].
  unfold advance at 1. simpl. rewrite search_job_calls. simpl.
  rewrite Z.max_l by lia. reflexivity.
Qed.

(** C3, as the code has it. Keystrokes at 0, 50, 100 and 300 ms under the
    300 ms window: every keystroke cancels the pending timeout, so the
    timeout set at 300 ms is the only one to fire, at 600 ms; once the clock
    has reached 600 ms exactly one [geocode] call has been made, at 600 ms
    and with the final value, or none when the final value is blank. *)
Theorem debounce_single_call_at_600 (store : gmap string string)
    (v0 v1 v2 v3 : string) (t : Z) :
  600 <= t ->
  geocode_calls (session 0 store (keystrokes v0 v1 v2 v3 t)) =
  if String.eqb (trim v3) "" then [] else [(600, v3)].
Proof.
  intros Ht. unfold session, keystrokes.
  destruct (quiet_boot 0 store) as (_ & Hc & Hclk). simpl in Hc, Hclk.
  set (a0 := boot 0 store) in *.
  cbn [fold_left].
  destruct (keystroke_then_pause v0 50 a0) as (Hk1 & Hc1); [lia|].
  set (a1 := step (Elapse 50) (step (Input v0) a0)) in *.
  destruct (keystroke_then_pause v1 100 a1) as (Hk2 & Hc2); [lia|].
  set (a2 := step (Elapse 100) (step (Input v1) a1)) in *.
  destruct (keystroke_then_pause v2 300 a2) as (Hk3 & Hc3); [lia|].
  set (a3 := step (Elapse 300) (step (Input v2) a2)) in *.
  assert (Hclk3 : clock (env a3) = 300) by lia.
  rewrite keystroke_then_fire by lia.
  rewrite Hc3, Hc2, Hc1, Hc, Hclk3. reflexivity.
Qed.

End Debounce.

(** ** The persisted location *)

#[local] Instance same_view_preorder : PreOrder same_view.
Proof.
  split.
  - intros a. repeat split. reflexivity.
  - intros a1 a2 a3 (?&?&?) (?&?&?). unfold same_view.
    repeat split; try congruence. etransitivity; eassumption.
Qed.

#[local] Instance keeps_persisted_preorder : PreOrder keeps_persisted.
Proof.
  split; [intros a; split; auto|].
  intros a1 a2 a3 (?&?) (?&?). split; [congruence | auto].
Qed.

Section PersistedFacts.
Context `{Platform}.

#[local] Instance settled_preorder : PreOrder settled.
Proof.
  split; [intros a; repeat split; auto|].
  intros a1 a2 a3 (Hs1 & Hst1 & Hi1 & Hp1) (Hs2 & Hst2 & Hi2 & Hp2).
  unfold settled. rewrite Hs2, Hst2. repeat split; auto.
  rewrite Hs1 in Hp2.
  destruct Hp2 as [Hp2|Hp2]; [|right; exact Hp2].
  rewrite Hp2. exact Hp1.
Qed.

Lemma setItem_keeps_lastCoords k v :
  k <> "lastCoords" -> respects keeps_lastCoords (localStorage_setItem k v).
Proof. intros Hk e. unfold keeps_lastCoords, keeps. simpl. now apply lookup_insert_ne. Qed.

Lemma forecast_key_ok a b u : forecast_key a b u <> "lastCoords".
Proof. discriminate. Qed.

Lemma geocode_key_ok q : geocode_key q <> "lastCoords".
Proof. discriminate. Qed.

Lemma inflight_ok_add req a :
  request_key req <> "lastCoords" ->
  inflight_ok a -> inflight_ok (set_inflight (inflight a ++ [req]) a).
Proof.
  intros Hk Ha. unfold inflight_ok in *. simpl.
  apply Forall_app. split; [exact Ha|]. constructor; [exact Hk | constructor].
Qed.

Lemma inflight_ok_delete i a :
  inflight_ok a -> inflight_ok (set_inflight (delete i (inflight a)) a).
Proof.
  unfold inflight_ok. simpl. apply Forall_delete.
Qed.

(** Side conditions of the generic frame lemmas for [keeps_persisted] and
    [settled]. *)
Ltac persist_side :=
  intros;
  first
    [ typeclasses eauto
    | apply forecast_key_ok
    | apply geocode_key_ok
    | discriminate
    | solve [apply setItem_keeps_lastCoords; assumption]
    | solve [intros ?; reflexivity]
    | solve [intros ?; hnf; unfold persisted; simpl; repeat split; auto;
             try (intros; apply inflight_ok_add; assumption);
             try (intros; apply inflight_ok_delete; assumption)]
    | solve [hnf; unfold persisted; simpl; repeat split; auto;
             try (intros; apply inflight_ok_add; assumption);
             try (intros; apply inflight_ok_delete; assumption)] ].

Lemma with_env_keeps_persisted {A} (c : M A) :
  respects keeps_lastCoords c -> respects keeps_persisted (with_env c).
Proof.
  intros Hc a. unfold with_env. specialize (Hc (env a)).
  destruct (c (env a)) as [o e']. split; [exact Hc | auto].
Qed.

Lemma with_env_settled {A} (c : M A) :
  respects keeps_lastCoords c -> respects settled (with_env c).
Proof.
  intros Hc a. unfold with_env. specialize (Hc (env a)).
  destruct (c (env a)) as [o e']. repeat split; auto.
Qed.

(** The observer either does nothing or writes the record of the session
    state, when both coordinates are truthy. *)
Lemma observer_settled : respects settled observer_callback.
Proof.
  intros a. unfold observer_callback, bind, get_state. simpl.
  destruct (truthy (lat (state a))) eqn:Hla; simpl;
    [|repeat split; auto].
  destruct (truthy (lon (state a))) eqn:Hlo; simpl;
    [|repeat split; auto].
  repeat split; auto. right. split; [|split; assumption].
  unfold persisted. simpl. apply lookup_insert_eq.
Qed.

Lemma settled_notify n a : settled a (notify n a).
Proof. apply (frame_notify settled), observer_settled. Qed.

Ltac settled_side :=
  try persist_side; try apply observer_settled;
  try (intros; apply with_env_settled; assumption).

Ltac kept_side :=
  try persist_side;
  try (intros; apply with_env_keeps_persisted; assumption).

Lemma settled_finish la lo f : respects settled (loadWeather_finish la lo f).
Proof. apply (frame_loadWeather_finish settled); settled_side. Qed.

Lemma settled_job_finish la lo f a :
  settled a (job (loadWeather_finish la lo f) a).
Proof. apply (frame_job settled); [settled_side.. | apply settled_finish]. Qed.

Lemma settled_step_plain ev a :
  match ev with
  | Input _ | Elapse _ | LocationFailed _ | Response _ _ => True
  | _ => False
  end ->
  inflight_ok a -> settled a (step ev a).
Proof.
  intros Hev Hok.
  apply (frame_step_plain keeps_lastCoords settled
           (fun k => k <> "lastCoords")); settled_side; try exact Hev.
  intros req Hreq. apply (proj1 (Forall_forall _ _) Hok).
  apply list_elem_of_In, Hreq.
Qed.

Lemma kept_setUnits u : respects keeps_persisted (setUnits u).
Proof.
  apply (frame_setUnits keeps_lastCoords keeps_persisted
           (fun k => k <> "lastCoords")); kept_side.
Qed.

Lemma kept_pick la lo name :
  respects keeps_persisted
    (let* _ := set_place (JStr name) in
     let* _ := hide_suggest in
     let* _ := write (SetProp "#q" "value" name) in
     call_loadWeather (JNum la) (JNum lo)).
Proof.
  apply (frame_pick keeps_lastCoords keeps_persisted
           (fun k => k <> "lastCoords")); kept_side.
Qed.

Lemma kept_located la lo :
  respects keeps_persisted
    (let* _ := set_place (JStr "Your location") in
     call_loadWeather (JNum la) (JNum lo)).
Proof.
  apply (frame_located keeps_lastCoords keeps_persisted
           (fun k => k <> "lastCoords")); kept_side.
Qed.

Lemma kept_boot_script :
  respects keeps_persisted (let* _ := read_units in init).
Proof.
  apply (frame_boot_script keeps_lastCoords keeps_persisted
           (fun k => k <> "lastCoords")); kept_side.
Qed.

End PersistedFacts.

Section Coherence.
Context `{Platform}.

Lemma with_env_same_load {A} (c : M A) : respects same_load (with_env c).
Proof. intros a. unfold with_env. destruct (c (env a)). reflexivity. Qed.

Lemma coherent_same_load a a' : same_load a a' -> coherent a -> coherent a'.
Proof.
  unfold same_load, keeps, coherent. intros [= Hs Hst]. now rewrite Hs, Hst.
Qed.

Lemma coherent_after {A} (tail : ST App A) a :
  respects same_load tail -> coherent a -> coherent (snd (tail a)).
Proof. intros Ht. apply coherent_same_load, Ht. Qed.

Lemma loadWeather_start_coherent la lo a :
  coherent (snd (loadWeather_start la lo a)).
Proof.
  unfold loadWeather_start.
  unfold bind at 1. unfold get_state at 1.
  unfold bind at 1. unfold put_state at 1.
  unfold bind at 1. unfold modify at 1.
  apply coherent_after.
  - frame;
      first [ apply respects_still; [typeclasses eauto | reflexivity]
            | solve [intros ?; reflexivity]
            | apply with_env_same_load
            | apply (frame_showSkeleton same_load); frame_side ].
  - unfold coherent. simpl. rewrite last_snoc. reflexivity.
Qed.

Lemma call_loadWeather_coherent la lo a :
  coherent (snd (call_loadWeather la lo a)).
Proof.
  rewrite call_loadWeather_run.
  pose proof (loadWeather_start_coherent la lo a) as Hc.
  destruct (loadWeather_start la lo a) as [[r|x] a1]; exact Hc.
Qed.

Lemma setUnits_coherent u a : coherent a -> coherent (snd (setUnits u a)).
Proof.
  intros Ha. unfold setUnits, bind, get_state, put_state, with_env,
    localStorage_setItem, write. simpl.
  destruct (truthy (lat (state a)) && truthy (lon (state a))).
  - apply call_loadWeather_coherent.
  - exact Ha.
Qed.

Lemma pick_coherent la lo name a :
  coherent (snd ((let* _ := set_place (JStr name) in
                  let* _ := hide_suggest in
                  let* _ := write (SetProp "#q" "value" name) in
                  call_loadWeather (JNum la) (JNum lo)) a)).
Proof. apply call_loadWeather_coherent. Qed.

Lemma located_coherent la lo a :
  coherent (snd ((let* _ := set_place (JStr "Your location") in
                  call_loadWeather (JNum la) (JNum lo)) a)).
Proof. apply call_loadWeather_coherent. Qed.

Lemma boot_script_coherent t store :
  coherent (snd ((let* _ := read_units in init) (blank t store))).
Proof.
  unfold bind at 1. unfold read_units, bind, with_env, localStorage_getItem,
    put_state, write. simpl.
  unfold init, bind, with_env, localStorage_getItem, parse, get_state. simpl.
  match goal with
  | |- context [JSON_parse ?x] => destruct (JSON_parse x) as [last|]
  end; simpl; [|split; reflexivity].
  destruct (truthy last); simpl.
  - unfold lift. destruct (get_prop last "place"); simpl; [|split; reflexivity].
    destruct (get_prop last "lat"); simpl; [|split; reflexivity].
    destruct (get_prop last "lon"); simpl; [|split; reflexivity].
    apply call_loadWeather_coherent.
  - apply call_loadWeather_coherent.
Qed.

End Coherence.

Section PersistedClaim.
Context `{Platform}.
#[local] Existing Instance settled_preorder.

Lemma settled_writes a1 a' :
  coherent a1 -> settled a1 a' ->
  coherent a' /\ (inflight_ok a1 -> inflight_ok a') /\ writes_started a1 a'.
Proof.
  intros Hc (Hs & Hst & Hi & Hp).
  assert (Hc' : coherent a') by (unfold coherent in *; now rewrite Hs, Hst).
  split; [exact Hc'|]. split; [exact Hi|].
  destruct Hp as [Hp|(Hp & Hla & Hlo)]; [left; exact Hp|].
  right. unfold coherent in Hc. rewrite <- Hst in Hc.
  destruct (last (started a')) as [c|].
  - exists c. rewrite <- Hc. simpl. auto.
  - destruct Hc as [Hu _]. rewrite Hu in Hla. discriminate Hla.
Qed.

Lemma writes_started_after_kept a a1 a' :
  persisted a1 = persisted a -> writes_started a1 a' -> writes_started a a'.
Proof. intros Hk [Hw|Hw]; [left; congruence | right; exact Hw]. Qed.

Lemma handler_job_persist (h : ST App Called) a :
  respects keeps_persisted h ->
  coherent (snd (h a)) ->
  inflight_ok a ->
  coherent (handler_job h a) /\ inflight_ok (handler_job h a) /\
  writes_started a (handler_job h a).
Proof.
  intros Hk Hc Hok. destruct (Hk a) as [Hp Hi]. specialize (Hi Hok).
  assert (Hs : settled (snd (h a)) (handler_job h a)).
  { unfold handler_job.
    destruct (h a) as [[[[[[f|url key] la] lo]|]|x] a1]; simpl;
      try apply settled_notify.
    - etransitivity; [apply settled_notify | apply settled_job_finish].
    - etransitivity; [|apply settled_notify]. repeat split; auto. }
  destruct (settled_writes _ _ Hc Hs) as (Hc' & Hi' & Hw).
  split; [exact Hc'|]. split; [auto|].
  eapply writes_started_after_kept; eassumption.
Qed.

Lemma boot_persist t store :
  coherent (boot t store) /\ inflight_ok (boot t store) /\
  writes_started (blank t store) (boot t store).
Proof.
  destruct (kept_boot_script (blank t store)) as [Hp Hi].
  assert (Hok : inflight_ok (snd ((let* _ := read_units in init) (blank t store))))
    by (apply Hi; constructor).
  pose proof (boot_script_coherent t store) as Hc.
  assert (Hs : settled (snd ((let* _ := read_units in init) (blank t store)))
                       (boot t store)).
  { unfold boot.
    destruct ((let* _ := read_units in init) (blank t store))
      as [[[[[[f|url key] la] lo]|]|x] a1]; simpl;
      try (repeat split; auto; fail).
    etransitivity; [|apply settled_job_finish]. repeat split; auto. }
  destruct (settled_writes _ _ Hc Hs) as (Hc' & Hi' & Hw).
  split; [exact Hc'|]. split; [auto|].
  eapply writes_started_after_kept; eassumption.
Qed.

Lemma step_persist ev a :
  coherent a -> inflight_ok a ->
  coherent (step ev a) /\ inflight_ok (step ev a) /\
  writes_started a (step ev a).
Proof.
  intros Hc Hok.
  destruct ev as [text|t|checked|la lo name|la lo|msg|i r|].
  1, 2, 6, 7:
    match goal with
    | |- context [step ?ev ?x] =>
        destruct (settled_writes x _ Hc (settled_step_plain ev x I Hok))
          as (Hc' & Hi' & Hw); auto
    end.
  - apply handler_job_persist;
      [apply kept_setUnits | now apply setUnits_coherent | exact Hok].
  - apply handler_job_persist;
      [apply kept_pick | apply pick_coherent | exact Hok].
  - apply handler_job_persist;
      [apply kept_located | apply located_coherent | exact Hok].
  - simpl. destruct (boot_persist (clock (env a)) (ls (env a)))
      as (Hc' & Hi' & Hw). auto.
Qed.

Lemma run_persist evs : forall a,
  coherent a -> inflight_ok a ->
  coherent (fold_left (fun x ev => step ev x) evs a) /\
  inflight_ok (fold_left (fun x ev => step ev x) evs a).
Proof.
  induction evs as [|ev evs IH]; intros a Hc Hok; simpl; [auto|].
  destruct (step_persist ev a Hc Hok) as (Hc' & Hok' & _). now apply IH.
Qed.

(** C2, as the code has it. Through a whole session, page loads included,
    whenever a step changes what is stored under [lastCoords], the new
    content is the record of the coordinates and place name of the most
    recently started load, both coordinates being truthy; whether that load
    has finished, or failed, plays no part. *)
Theorem lastCoords_records_started_load (t : Z) (store : gmap string string) :
  (persisted (boot t store) <> store !! "lastCoords" ->
   exists c : Coords,
     last (started (boot t store)) = Some c /\
     truthy c.1.1 = true /\ truthy c.1.2 = true /\
     persisted (boot t store) = Some (JSON_stringify (record c))) /\
  forall (evs : list Event) (ev : Event),
    let a := session t store evs in
    let a' := step ev a in
    persisted a' <> persisted a ->
    exists c : Coords,
      last (started a') = Some c /\
      truthy c.1.1 = true /\ truthy c.1.2 = true /\
      persisted a' = Some (JSON_stringify (record c)).
Proof.
  destruct (boot_persist t store) as (Hc & Hok & Hw).
  split.
  - intros Hne. destruct Hw as [Hw|Hw]; [contradiction | exact Hw].
  - intros evs ev a a' Hne.
    destruct (run_persist evs (boot t store) Hc Hok) as (Hca & Hoka).
    destruct (step_persist ev a Hca Hoka) as (_ & _ & [Hw'|Hw']);
      [contradiction | exact Hw'].
Qed.

Lemma showSkeleton_run a :
  showSkeleton a = (Normal tt, set_dom (dom a ++ skeleton_ops) a).
Proof.
  unfold showSkeleton, bind, write, skeleton_ops. simpl.
  rewrite <- !app_assoc. reflexivity.
Qed.

Lemma same_view_mutations a a' :
  same_view a a' -> (mutations a <= mutations a')%nat.
Proof.
  intros (_ & _ & [post Hd]). unfold mutations.
  rewrite Hd, filter_app, length_app. lia.
Qed.

Lemma with_env_same_view {A} (c : M A) : respects same_view (with_env c).
Proof.
  intros a. unfold with_env. destruct (c (env a)). repeat split.
  exists []. simpl. symmetry. apply app_nil_r.
Qed.

Lemma loadWeather_start_view la lo a :
  exists a1,
    snd (loadWeather_start la lo a) = a1 /\
    state a1 = mkSession (units (state a)) la lo (place (state a)) /\
    observing a1 = observing a /\
    (mutations a < mutations a1)%nat.
Proof.
  unfold loadWeather_start.
  unfold bind at 1. unfold get_state at 1.
  unfold bind at 1. unfold put_state at 1.
  unfold bind at 1. unfold modify at 1.
  unfold bind at 1. rewrite showSkeleton_run. lazy beta iota.
  match goal with
  | |- context [bind (with_env ?c) ?k ?x] =>
      assert (Htail : respects same_view (bind (with_env c) k));
      [|pose proof (same_view_mutations _ _ (Htail x)) as Hm;
        destruct (Htail x) as (Hs & Ho & _); clear Htail;
        destruct (bind (with_env c) k x) as [r a1]]
  end.
  { apply (respects_bind same_view).
    + apply with_env_same_view.
    + intros [f|url key]; frame;
        first [ apply respects_still; [typeclasses eauto | reflexivity]
              | intros x; repeat split; exists []; simpl; symmetry;
                apply app_nil_r ]. }
  cbn [snd] in *. exists a1. split; [reflexivity|].
  rewrite Hs, Ho. split; [reflexivity|]. split; [reflexivity|].
  eapply Nat.lt_le_trans; [|exact Hm].
  unfold mutations. simpl. rewrite filter_app, length_app. simpl. lia.
Qed.

Lemma pick_view la lo name a :
  exists a1,
    snd ((let* _ := set_place (JStr name) in
          let* _ := hide_suggest in
          let* _ := write (SetProp "#q" "value" name) in
          call_loadWeather (JNum la) (JNum lo)) a) = a1 /\
    state a1 = mkSession (units (state a)) (JNum la) (JNum lo) (JStr name) /\
    observing a1 = observing a /\
    (mutations a < mutations a1)%nat.
Proof.
  unfold bind at 1. unfold set_place at 1. unfold bind at 1.
  unfold get_state at 1, put_state at 1.
  unfold bind at 1. unfold hide_suggest at 1, write at 1.
  unfold bind at 1. unfold write at 1.
  rewrite call_loadWeather_run.
  match goal with
  | |- context [loadWeather_start ?x ?y ?a'] =>
      destruct (loadWeather_start_view x y a') as (a1 & Ha1 & Hs & Ho & Hm);
      destruct (loadWeather_start x y a') as [[r|e] a1']
  end; cbn [snd] in Ha1; subst a1'; eexists;
    (split; [reflexivity|]); (split; [exact Hs|]); (split; [exact Ho|]);
    (eapply Nat.le_lt_trans; [|exact Hm]);
    unfold mutations; simpl; rewrite !filter_app, !length_app; simpl; lia.
Qed.

Lemma observer_callback_writes a :
  truthy (lat (state a)) = true -> truthy (lon (state a)) = true ->
  observer_callback a =
  (Normal tt,
   set_env (set_ls (<["lastCoords" :=
                        JSON_stringify (record (coords (state a)))]>
                      (ls (env a))) (env a)) a).
Proof.
  intros Hla Hlo. unfold observer_callback, bind, get_state.
  rewrite Hla, Hlo. reflexivity.
Qed.

(** A load persists its coordinates as soon as it starts: once a
    suggestion with truthy coordinates is picked on a page whose observer is
    installed, [lastCoords] holds its record, whatever becomes of the
    forecast request. *)
Lemma pick_persists_at_start la lo name a :
  observing a = true ->
  truthy (JNum la) = true -> truthy (JNum lo) = true ->
  persisted (step (PickSuggestion la lo name) a)
  = Some (JSON_stringify (record (JNum la, JNum lo, JStr name))).
Proof.
  intros Hobs Hla Hlo. cbn [step]. unfold handler_job.
  destruct (pick_view la lo name a) as (a1 & Ha1 & Hs & Ho & Hm).
  match goal with
  | |- context [match ?h a with _ => _ end] => destruct (h a) as [r a1']
  end.
  cbn [snd] in Ha1. subst a1'. rewrite Hobs in Ho.
  assert (Hnote : persisted (notify (mutations a) a1)
                  = Some (JSON_stringify (record (JNum la, JNum lo, JStr name)))
                  /\ state (notify (mutations a) a1) = state a1).
  { unfold notify. rewrite Ho. apply Nat.ltb_lt in Hm. rewrite Hm.
    cbn [andb].
    rewrite observer_callback_writes by (rewrite Hs; assumption).
    split; [|reflexivity].
    rewrite Hs. unfold persisted. cbn [snd env set_env ls set_ls].
    apply lookup_insert_eq. }
  destruct Hnote as (Hp & Hs').
  destruct r as [[[[[f|url key] la'] lo']|]|x];
    [|exact Hp|exact Hp|].
  - destruct (settled_job_finish la' lo' f (notify (mutations a) a1))
      as (_ & _ & _ & [Hsame|(Hw & _ & _)]).
    + exact (eq_trans Hsame Hp).
    + rewrite Hs', Hs in Hw. exact Hw.
  - unfold landed, escape, modify. cbn [snd].
    rewrite notify_set_uncaught. exact Hp.
Qed.

End PersistedClaim.

(** ** The program run on concrete inputs *)

Section Runs.
#[local] Existing Instance Ref.platform.
Import Sample.

(** C1 (the code departs from it). [set("k", "v", 1000)] at time 0, then
    [get("k")] at time 5000, well past the expiry 1000: the entry is still
    in [mem], [get] returns it from there without looking at any expiry,
    and the answer is ["v"], not absent. *)
Theorem expired_entry_still_served :
  num_gt (num_of_Z 5000) (num_add (num_of_Z 0) (Num 1000)) = true /\
  fst (cacheGet "k" (set_clock 5000
                       (snd (cacheSet "k" (JStr "v") (Num 1000) empty_env))))
  = Normal (JStr "v") /\
  absent (JStr "v") = false.
Proof. repeat split. Qed.

(** The same entry read by a fresh page, from [localStorage], is absent. *)
Example expired_entry_absent_after_reload :
  fst (cacheGet "k" (stored_only 5000)) = Normal JNull.
Proof. vm_compute. reflexivity. Qed.

Lemma get_after_set_returns_value_witness :
  fst (cacheGet "k" (set_clock 500
                       (snd (cacheSet "k" (JStr "v") (Num 1000) empty_env))))
  = Normal (JStr "v").
Proof.
  apply (get_after_set_returns_value "k" (JStr "v") (Num 1000) empty_env 500);
    [reflexivity | discriminate | reflexivity].
Defined.

Lemma promotion_served_from_memory_witness :
  exists e1,
    cacheGet "k" (stored_only 500) = (Normal (JStr "v"), e1) /\
    mem e1 !! "k" = Some (JStr "v") /\
    ls_reads e1 = ["k"] /\
    forall ts : list Z, exists e2,
      gets "k" ts e1 = (map (fun _ => Normal (JStr "v")) ts, e2) /\
      ls_reads e2 = ls_reads e1.
Proof.
  apply (promotion_served_from_memory "k" raw_entry
           (envelope (JStr "v") (num_of_Z 1000)) (stored_only 500));
    [reflexivity | reflexivity | discriminate | reflexivity | reflexivity].
Defined.

Lemma get_never_throws_and_misses_witness :
  exists v e', cacheGet "k" (stored_only 5000) = (Normal v, e') /\
               absent v = true.
Proof.
  apply (proj1 (proj2 (proj2 (get_never_throws_and_misses "k" (stored_only 5000))
                         raw_entry eq_refl eq_refl)));
    reflexivity.
Defined.

(** C8, as the specification words it, fails: an entry whose [exp] is the
    string [99999999999999] is not the envelope [set] writes, it is
    malformed; read at time 5000 it is not treated as absent, its [val] is
    returned. *)
Lemma string_exp_entry_is_served :
  JSON_parse (Ref.stringify string_exp_entry) = Some string_exp_entry /\
  is_envelope string_exp_entry = false /\
  fst (cacheGet "k" (string_exp_only 5000)) = Normal (JStr "v") /\
  absent (JStr "v") = false.
Proof. vm_compute. repeat split. Qed.

(** C6 (the code departs from it). The forecast for (19.076, 72.8777) in
    imperial units, asked for at time 0 with nothing cached, is requested
    with [temperature_unit=fahrenheit] under the key
    [meteo:19.08,72.88:imperial], and the response is stored with the
    expiry 600000. Asked for again in the same page at time 660000, eleven
    minutes later, the forecast is served from [mem], where nothing expires:
    no request is sent. A page loaded at that time finds the entry of
    [localStorage] expired and sends the request again; one loaded at
    300000 is served the stored response. *)
Theorem stale_forecast_served_in_page :
  let key := "meteo:19.08,72.88:imperial" in
  let url :=
    "https://api.open-meteo.com/v1/forecast?latitude=19.076&longitude=72.8777"
    ++ "&current_weather=true&hourly=temperature_2m,precipitation_probability"
    ++ "&daily=temperature_2m_max,temperature_2m_min,precipitation_probability_mean,weathercode"
    ++ "&forecast_days=7&timezone=auto&temperature_unit=fahrenheit" in
  let ask := forecast (JNum fallback_lat) (JNum fallback_lon) "imperial" in
  let e1 := snd (getJSON_resume key (Normal Inputs.weather)
                   (snd (ask empty_env))) in
  ask empty_env
  = (Normal (Pending url key),
     mkEnv 0 ∅ ∅ [key] [url]) /\
  ls e1 !! key
  = Some (Ref.stringify (envelope Inputs.weather (num_of_Z 600000))) /\
  num_gt (num_of_Z 660000) (num_of_Z 600000) = true /\
  ask (set_clock 660000 e1)
  = (Normal (Ready (mkFetched Inputs.weather true)), set_clock 660000 e1) /\
  fst (ask (fresh_page 660000 e1)) = Normal (Pending url key) /\
  exists d : JSValue,
    fst (ask (fresh_page 300000 e1)) = Normal (Ready (mkFetched d true)).
Proof.
  cbv zeta. repeat apply conj; try (vm_compute; reflexivity).
  eexists. vm_compute. reflexivity.
Qed.

Example forecast_key_unit_ttl_imperial :
  exists front,
    fst (forecast (JNum fallback_lat) (JNum fallback_lon) "imperial" empty_env)
    = Normal (Pending (front ++ "&temperature_unit=fahrenheit")
                      "meteo:19.08,72.88:imperial").
Proof.
  destruct (proj2 (forecast_key_unit_ttl fallback_lat fallback_lon "imperial"
                     empty_env)) as (c & e1 & Hc & _ & Hmiss).
  vm_compute in Hc. injection Hc as <- <-.
  destruct (Hmiss eq_refl) as (front & Hrun & _).
  exists front. rewrite Hrun. reflexivity.
Qed.

Lemma geocode_empty_list_and_shared_key_witness :
  exists e1,
    geocode_resume (geocode_key "London") (Normal (JObj [])) empty_env
    = (Normal (JArr []), e1) /\
    geocode "LONDON" (set_clock 99 e1) = (Normal (Ready (JArr [])), set_clock 99 e1) /\
    fst (geocode "LONDON" (fresh_page 99 e1)) = Normal (Ready (JArr [])) /\
    fst (geocode "LONDON" (fresh_page 2592000000 e1))
    = Normal (Pending (geocode_url "LONDON") "geo:london").
Proof.
  destruct (proj1 (geocode_empty_list_and_shared_key "London" empty_env)
              (JObj []) empty_env eq_refl)
    as (d & e1 & Hrun & Hempty & _ & _ & _ & Hshare & Hlater).
  specialize (Hempty eq_refl). subst d.
  exists e1. split; [exact Hrun|].
  split; [apply (Hshare "LONDON" 99 eq_refl); simpl; lia|].
  assert (He1 : e1 = snd (geocode_resume (geocode_key "London")
                            (Normal (JObj [])) empty_env))
    by (rewrite Hrun; reflexivity).
  split.
  - destruct (Hlater ltac:(discriminate) eq_refl "LONDON" 99 eq_refl)
      as (e2 & Hg & _).
    rewrite Hg. reflexivity.
  - destruct (Hlater ltac:(discriminate) eq_refl "LONDON" 2592000000 eq_refl
                "LONDON" eq_refl) as (e2 & Hg & _).
    rewrite Hg. reflexivity.
Defined.

(** C7, as the specification words it, fails: the response [null] contains
    no results, and [geocode] throws a TypeError on it, where the claim has
    it return the empty list. *)
Lemma geocode_raises_on_null_response :
  no_results JNull = true /\
  fst (geocode_resume (geocode_key "London") (Normal JNull) empty_env)
  = Throw TypeError.
Proof. split; reflexivity. Qed.

Lemma debounce_single_call_at_600_witness :
  geocode_calls (session 0 ∅ (keystrokes "L" "Lo" "Lon" "Lond" 1000))
  = [(600, "Lond")].
Proof.
  assert (Hlate : 600 <= 1000) by discriminate.
  exact (debounce_single_call_at_600 ∅ "L" "Lo" "Lon" "Lond" 1000 Hlate).
Defined.

(** C3, as the specification words it, fails: with the final keystroke at
    300 ms, nothing has been called when the clock reaches 400 ms, and the
    one call that is made is not made at 400 ms. *)
Lemma no_geocode_call_at_400 :
  geocode_calls (session 0 ∅ (keystrokes "L" "Lo" "Lon" "Lond" 400)) = [] /\
  geocode_calls (session 0 ∅ (keystrokes "L" "Lo" "Lon" "Lond" 1000))
  <> [(400, "Lond")].
Proof.
  split; [vm_compute; reflexivity|].
  intros Hcalls. vm_compute in Hcalls. discriminate Hcalls.
Qed.

Lemma cold_start_fallback_then_skeleton_witness :
  state (boot 0 ∅)
  = mkSession "metric" (JNum (Num (19076 # 1000))) (JNum (Num (728777 # 10000)))
              (JStr "Mumbai, IN") /\
  observing (boot 0 ∅) = true /\
  fetched (env (boot 0 ∅)) = [forecast_url "19.076" "72.8777" "metric"] /\
  inflight (boot 0 ∅)
  = [ReqForecast "meteo:19.08,72.88:metric" (JNum fallback_lat)
       (JNum fallback_lon)].
Proof.
  assert (Hnull : JSON_parse "null" = Some JNull) by reflexivity.
  destruct (cold_start_fallback_then_skeleton 0 ∅ (lookup_empty _) Hnull)
    as (Hs & _ & Ho & _ & Hreq & _).
  destruct (Hreq (lookup_empty _)) as (Hf & Hi).
  split; [exact Hs|]. split; [exact Ho|]. split; [exact Hf | exact Hi].
Defined.

(** The cold start run to the end: the response arrives, is rendered, and
    the load for the fallback location has completed. *)
Example cold_start_response_rendered :
  let a := step (Response 0 (Normal Inputs.weather)) (boot 0 ∅) in
  completed a = [(JNum fallback_lat, JNum fallback_lon, JStr "Mumbai, IN")] /\
  inflight a = [] /\
  no_data (skipn (length (unit_ops "metric" ++ skeleton_ops)) (dom a)) = false /\
  uncaught a = [].
Proof. vm_compute. repeat split. Qed.

Lemma toggle_at_zero_coordinate_witness :
  let a := boot 0 equator_store in
  let a' := step (ToggleUnits true) a in
  lat (state a) = JNum (Num 0) /\
  units (state a') = "imperial" /\
  ls (env a') !! "units" = Some "imperial" /\
  fetched (env a') = fetched (env a) /\
  inflight a' = inflight a /\
  started a' = started a /\
  ls (env a') !! "lastCoords" = ls (env a) !! "lastCoords" /\
  forall n : nat, notify n a = a /\ notify n a' = a'.
Proof.
  split; [vm_compute; reflexivity|].
  apply (toggle_at_zero_coordinate (boot 0 equator_store) true).
  vm_compute. reflexivity.
Defined.

(** C2, as the specification words it, fails: after two loads that both
    failed, [lastCoords] holds London although no load ever ran to its
    end. *)
Lemma lastCoords_written_for_failed_load :
  ~ persisted_after_success (session 0 ∅ two_failed_loads).
Proof.
  intros Hclaim.
  assert (Hp : exists s, persisted (session 0 ∅ two_failed_loads) = Some s)
    by (vm_compute; eauto).
  destruct Hp as [s Hs]. destruct (Hclaim s Hs) as (c & Hlast & _).
  vm_compute in Hlast. discriminate Hlast.
Qed.

(** What the next page load restores is that failed load. *)
Example failed_load_restored :
  state (step Reload (session 0 ∅ two_failed_loads))
  = mkSession "metric" (JNum london_lat) (JNum london_lon)
              (JStr "London, England, United Kingdom") /\
  completed (session 0 ∅ two_failed_loads) = [].
Proof. vm_compute. split; reflexivity. Qed.

(** A [lastCoords] without coordinates: [loadWeather(undefined, undefined)]
    is rejected inside [forecast], nothing catches the rejection, and the
    script runs on to install the observer. *)
Example rejected_first_load_keeps_observer :
  let a := boot 0 {[ "lastCoords" := "{}" ]} in
  observing a = true /\ uncaught a = [TypeError] /\ inflight a = [] /\
  persisted a = Some "{}".
Proof. vm_compute. repeat split. Qed.

(** In that session the observer is at work: the next load that starts is
    written to [lastCoords]. *)
Example rejected_first_load_then_pick :
  persisted (session 0 {[ "lastCoords" := "{}" ]}
               [PickSuggestion london_lat london_lon "London"])
  = Some (JSON_stringify
            (record (JNum london_lat, JNum london_lon, JStr "London"))).
Proof. vm_compute. reflexivity. Qed.

Lemma lastCoords_records_started_load_witness :
  exists c : Coords,
    last (started (step (PickSuggestion london_lat london_lon "London")
                        (session 0 ∅ [])))
    = Some c /\
    truthy c.1.1 = true /\ truthy c.1.2 = true /\
    persisted (step (PickSuggestion london_lat london_lon "London")
                    (session 0 ∅ []))
    = Some (JSON_stringify (record c)).
Proof.
  apply (proj2 (lastCoords_records_started_load 0 ∅) []
           (PickSuggestion london_lat london_lon "London")).
  vm_compute. discriminate.
Defined.

End Runs.

(** * Further properties *)

(** ** The cache and the fetchers *)

Section CacheMore.
Context `{Platform}.

(** What [get(key)] answers depends on the entries of [key] in [mem] and in
    [localStorage] and on the clock, and on nothing else. *)
Lemma cacheGet_local (key : string) (e1 e2 : Env) :
  mem e1 !! key = mem e2 !! key ->
  ls e1 !! key = ls e2 !! key ->
  clock e1 = clock e2 ->
  fst (cacheGet key e1) = fst (cacheGet key e2).
Proof.
  intros Hm Hl Hc.
  destruct (mem e2 !! key) as [v|] eqn:Hm2.
  { now rewrite (cacheGet_mem_hit key v e1 Hm), (cacheGet_mem_hit key v e2 Hm2). }
  destruct (ls e2 !! key) as [raw|] eqn:Hl2.
  - destruct (String.eqb_spec raw "") as [->|Hne].
    + unfold cacheGet, bind, mem_has, localStorage_getItem.
      rewrite Hm, Hm2. simpl. rewrite Hl, Hl2. reflexivity.
    + rewrite (cacheGet_store_path key raw e1 Hm Hl Hne),
        (cacheGet_store_path key raw e2 Hm2 Hl2 Hne), !cacheGet_try_run.
      simpl. rewrite Hc.
      destruct (JSON_parse raw) as [obj|]; [|reflexivity].
      destruct (get_prop obj "exp") as [ex|x]; [|reflexivity].
      destruct (js_gt_num ex _) as [[|]|x]; try reflexivity.
      destruct (get_prop obj "val") as [v|x]; reflexivity.
  - unfold cacheGet, bind, mem_has, localStorage_getItem.
    rewrite Hm, Hm2. simpl. rewrite Hl, Hl2. reflexivity.
Qed.

(** X1. [get] never writes to [localStorage] and never moves the clock: an
    expired or unreadable entry stays where it is. The only change it makes
    to [mem] is to add, under the key asked for and when [mem] had nothing
    there, the value it returns. *)
Theorem get_only_promotes (key : string) (e : Env) :
  exists v e',
    cacheGet key e = (Normal v, e') /\
    ls e' = ls e /\ clock e' = clock e /\ fetched e' = fetched e /\
    (mem e' = mem e \/
     mem e !! key = None /\ mem e' = <[key := v]> (mem e)).
Proof.
  destruct (mem e !! key) as [v|] eqn:Hm.
  { exists v, e. rewrite (cacheGet_mem_hit key v e Hm). auto 6. }
  destruct (ls e !! key) as [raw|] eqn:Hl.
  - destruct (String.eqb_spec raw "") as [->|Hne].
    + unfold cacheGet, bind, mem_has, localStorage_getItem.
      rewrite Hm. simpl. rewrite Hl. simpl. unfold ret.
      eexists _, _. split; [reflexivity|]. simpl. auto 6.
    + rewrite (cacheGet_store_path key raw e Hm Hl Hne), cacheGet_try_run.
      destruct (JSON_parse raw) as [obj|];
        [|eexists _, _; split; [reflexivity|]; simpl; auto 6].
      destruct (get_prop obj "exp") as [ex|x];
        [|eexists _, _; split; [reflexivity|]; simpl; auto 6].
      destruct (js_gt_num ex _) as [[|]|x];
        try (eexists _, _; split; [reflexivity|]; simpl; auto 6; fail).
      destruct (get_prop obj "val") as [v|x];
        eexists _, _; (split; [reflexivity|]); simpl; auto 6.
  - unfold cacheGet, bind, mem_has, localStorage_getItem.
    rewrite Hm. simpl. rewrite Hl. simpl. unfold ret.
    eexists _, _. split; [reflexivity|]. simpl. auto 6.
Qed.

(** X2. [set] overwrites: after two [set]s under one key, [get] returns the
    second value and [localStorage] holds the second envelope. And [set]
    under one key changes nothing of what [get] answers for another key. *)
Theorem set_overwrites_and_isolates (key : string) (v1 v2 : JSValue)
    (ttl1 ttl2 : number) (e : Env) :
  let e1 := snd (cacheSet key v1 ttl1 e) in
  let e2 := snd (cacheSet key v2 ttl2 e1) in
  fst (cacheGet key e2) = Normal v2 /\
  ls e2 !! key
  = Some (JSON_stringify (envelope v2 (num_add (num_of_Z (clock e)) ttl2))) /\
  forall other : string,
    other <> key ->
    fst (cacheGet other e1) = fst (cacheGet other e) /\
    ls e1 !! other = ls e !! other.
Proof.
  intros e1 e2. subst e1 e2. rewrite !cacheSet_run. simpl.
  split; [|split].
  - rewrite (cacheGet_mem_hit key v2); [reflexivity|]. simpl.
    apply lookup_insert_eq.
  - apply lookup_insert_eq.
  - intros other Hne. split.
    + apply cacheGet_local; simpl; try reflexivity;
        apply lookup_insert_ne; congruence.
    + apply lookup_insert_ne. congruence.
Qed.

(** X3. The persistent tier honours the expiry. An entry written by [set]
    and read back by a newly loaded page (empty [mem]) is returned, and
    promoted to [mem], while the clock is before [now + ttl]; from then on
    the answer is [null] and [mem] stays empty. This holds for every value
    that [JSON.parse] reads back from what [JSON.stringify] wrote. *)
Theorem stored_entry_expires_across_reload (key : string) (val : JSValue)
    (ttl : Q) (e : Env) (t : Z) :
  JSON_stringify (envelope val (Num (inject_Z (clock e) + ttl))) <> "" ->
  JSON_parse (JSON_stringify (envelope val (Num (inject_Z (clock e) + ttl))))
  = Some (envelope val (Num (inject_Z (clock e) + ttl))) ->
  exists e1,
    cacheGet key (fresh_page t (snd (cacheSet key val (Num ttl) e)))
    = (Normal (if Qle_bool (inject_Z (clock e) + ttl) (inject_Z t)
               then JNull else val), e1) /\
    mem e1 !! key
    = (if Qle_bool (inject_Z (clock e) + ttl) (inject_Z t)
       then None else Some val).
Proof.
  intros Hne Hrt.
  rewrite (cacheGet_store_path key _ _ (lookup_empty key)
             (lookup_insert_eq _ _ _) Hne).
  rewrite cacheGet_try_run, Hrt. simpl. unfold js_gt_num. simpl.
  destruct (Qle_bool _ _); simpl; eexists; (split; [reflexivity|]); simpl.
  - apply lookup_empty.
  - apply lookup_insert_eq.
Qed.

(** X4. Within a page, what [getJSON] cached is served by truthiness alone:
    a truthy response is returned from the cache at every later clock value,
    with no request; a falsy one ([null], [0], [false], the empty string) is
    stored but never served, so every call requests it again. *)
Theorem cached_response_served_iff_truthy (url key : string) (d : JSValue)
    (e : Env) (t : Z) :
  let e1 := set_clock t (snd (getJSON_resume key (Normal d) e)) in
  mem e1 !! key = Some d /\
  getJSON url key e1 =
  if truthy d then (Normal (Ready (mkFetched d true)), e1)
  else (Normal (Pending url key), set_fetched (fetched e1 ++ [url]) e1).
Proof.
  intros e1.
  assert (Hm : mem e1 !! key = Some d).
  { subst e1. rewrite getJSON_resume_run, cacheSet_run. simpl.
    apply lookup_insert_eq. }
  split; [exact Hm|].
  unfold getJSON, bind. rewrite (cacheGet_mem_hit key d e1 Hm).
  destruct (truthy d); reflexivity.
Qed.

(** What caching a response changes. *)
Lemma resume_env (key : string) (d : JSValue) (e : Env) (t : Z) :
  let e1 := set_clock t (snd (getJSON_resume key (Normal d) e)) in
  mem e1 !! key = Some d /\
  (forall k, key <> k -> mem e1 !! k = mem e !! k) /\
  (forall k, key <> k -> ls e1 !! k = ls e !! k) /\
  fetched e1 = fetched e.
Proof.
  intros e1. subst e1. rewrite getJSON_resume_run, cacheSet_run. simpl.
  split; [apply lookup_insert_eq|].
  split; [intros k Hk; now apply lookup_insert_ne|].
  split; [intros k Hk; now apply lookup_insert_ne|reflexivity].
Qed.

(** X5. The forecast cache is keyed by the coordinates rounded to two
    decimals. Once a truthy response is cached for one pair of coordinates,
    a forecast for any pair with the same [toFixed(2)] texts is served that
    response, with no request; the same coordinates under other units miss
    it, when nothing is cached for those, and send a request. *)
Theorem forecast_shared_within_rounding (x y x' y' : number) (u : string)
    (d : JSValue) (e : Env) (t : Z) :
  toFixed2 x' = toFixed2 x ->
  toFixed2 y' = toFixed2 y ->
  truthy d = true ->
  let e1 := set_clock t
              (snd (getJSON_resume (forecast_key (toFixed2 x) (toFixed2 y) u)
                      (Normal d) e)) in
  forecast (JNum x') (JNum y') u e1 = (Normal (Ready (mkFetched d true)), e1) /\
  forall u' : string,
    u' <> u ->
    mem e !! forecast_key (toFixed2 x) (toFixed2 y) u' = None ->
    ls e !! forecast_key (toFixed2 x) (toFixed2 y) u' = None ->
    exists url e2,
      forecast (JNum x) (JNum y) u' e1
      = (Normal (Pending url (forecast_key (toFixed2 x) (toFixed2 y) u')), e2) /\
      fetched e2 = (fetched e ++ [url])%list.
Proof.
  intros Hx Hy Hd e1.
  destruct (resume_env (forecast_key (toFixed2 x) (toFixed2 y) u) d e t)
    as (Hm & Hmo & Hls & Hf).
  fold e1 in Hm, Hmo, Hls, Hf. clearbody e1.
  split.
  - rewrite forecast_run, Hx, Hy. unfold getJSON, bind.
    rewrite (cacheGet_mem_hit _ d e1 Hm), Hd. reflexivity.
  - intros u' Hu Hm' Hl'.
    assert (Hk : forecast_key (toFixed2 x) (toFixed2 y) u
                 <> forecast_key (toFixed2 x) (toFixed2 y) u').
    { unfold forecast_key. intros Heq. apply Hu. symmetry.
      repeat (apply String.app_inj in Heq). exact Heq. }
    rewrite forecast_run. unfold getJSON, bind.
    unfold cacheGet, bind, mem_has, localStorage_getItem.
    rewrite (Hmo _ Hk), Hm'. simpl. rewrite (Hls _ Hk), Hl'. simpl.
    eexists _, _. split; [reflexivity|]. simpl. now rewrite Hf.
Qed.

End CacheMore.

(** ** What the program leaves in [localStorage] *)

#[local] Instance keeps_keys_preorder : PreOrder keeps_keys.
Proof.
  split; [intros e k Hk; exact Hk|].
  intros e1 e2 e3 H12 H23 k Hk. apply H23, H12, Hk.
Qed.

#[local] Instance store_grows_preorder : PreOrder store_grows.
Proof.
  split; [intros a; unfold store_grows; reflexivity|].
  intros a1 a2 a3 H12 H23. unfold store_grows in *. etransitivity; eassumption.
Qed.

#[local] Instance keeps_foreign_preorder k : PreOrder (keeps_foreign k).
Proof.
  split; [intros a; split; auto|].
  intros a1 a2 a3 (?&?) (?&?). split; [congruence | auto].
Qed.

Section StorageUse.
Context `{Platform}.

Lemma setItem_keeps_keys k v : respects keeps_keys (localStorage_setItem k v).
Proof.
  intros e k' Hk'. simpl. apply lookup_insert_is_Some'. now right.
Qed.

Lemma with_env_store_grows {A} (c : M A) :
  respects keeps_keys c -> respects store_grows (with_env c).
Proof. apply respects_with_env. intros a e' He. exact He. Qed.

Lemma observer_store_grows : respects store_grows observer_callback.
Proof.
  unfold observer_callback. frame;
    try (apply respects_still; [typeclasses eauto | reflexivity]).
  apply with_env_store_grows, setItem_keeps_keys.
Qed.

(** Side conditions of the generic frame lemmas for [store_grows]. *)
Ltac store_side :=
  try frame_side;
  try (intros; apply setItem_keeps_keys);
  try (intros; apply with_env_store_grows; assumption);
  try apply observer_store_grows;
  try (intros; intros ? ? Hpresent; exact Hpresent);
  try (intros; intros ? Hpresent; exact Hpresent).

Lemma step_store_grows ev a : store_grows a (step ev a).
Proof.
  assert (Hev : ev = Reload \/ ev <> Reload)
    by (destruct ev; (left; reflexivity) || (right; discriminate)).
  destruct Hev as [->|Hev].
  { simpl. apply (frame_boot keeps_keys store_grows (fun _ => True)); store_side. }
  apply (frame_step keeps_keys store_grows (fun _ => True)); store_side.
  exact Hev.
Qed.

Lemma run_store_grows evs : forall a,
  store_grows a (fold_left (fun x ev => step ev x) evs a).
Proof.
  induction evs as [|ev evs IH]; intros a; simpl; [reflexivity|].
  etransitivity; [apply step_store_grows | apply IH].
Qed.

(** X6. Nothing is ever removed from [localStorage]: a key present when
    the page loads is still present after any sequence of events, page
    loads included. Expired cache entries are overwritten at best, never
    deleted. *)
Theorem storage_never_loses_a_key (t : Z) (store : gmap string string)
    (evs : list Event) (k : string) :
  is_Some (store !! k) -> is_Some (ls (env (session t store evs)) !! k).
Proof.
  intros Hk. unfold session.
  assert (Hb : store_grows (blank t store) (boot t store))
    by (apply (frame_boot keeps_keys store_grows (fun _ => True)); store_side).
  apply (run_store_grows evs (boot t store)), Hb, Hk.
Qed.

Lemma own_meteo a b u : own_key (forecast_key a b u) = true.
Proof. reflexivity. Qed.

Lemma own_geo q : own_key (geocode_key q) = true.
Proof. reflexivity. Qed.

Lemma setItem_keeps_foreign k k' v :
  own_key k = false -> own_key k' = true ->
  respects (keeps (fun e => ls e !! k)) (localStorage_setItem k' v).
Proof.
  intros Hk Hk' e. unfold keeps. simpl. apply lookup_insert_ne.
  intros ->. congruence.
Qed.

Lemma with_env_keeps_foreign {A} k (c : M A) :
  respects (keeps (fun e => ls e !! k)) c ->
  respects (keeps_foreign k) (with_env c).
Proof.
  intros Hc a. unfold with_env. specialize (Hc (env a)).
  destruct (c (env a)) as [o e']. split; [exact Hc | auto].
Qed.

Lemma inflight_own_add req a :
  own_key (request_key req) = true ->
  inflight_own a -> inflight_own (set_inflight (inflight a ++ [req]) a).
Proof.
  intros Hk Ha. unfold inflight_own in *. simpl.
  apply Forall_app. split; [exact Ha|]. constructor; [exact Hk | constructor].
Qed.

Lemma inflight_own_delete i a :
  inflight_own a -> inflight_own (set_inflight (delete i (inflight a)) a).
Proof. unfold inflight_own. simpl. apply Forall_delete. Qed.

Lemma observer_keeps_foreign k :
  own_key k = false -> respects (keeps_foreign k) observer_callback.
Proof.
  intros Hk. unfold observer_callback. frame;
    try (apply respects_still; [typeclasses eauto | reflexivity]).
  apply with_env_keeps_foreign. now apply setItem_keeps_foreign.
Qed.

(** Side conditions of the generic frame lemmas for [keeps_foreign]. *)
Ltac foreign_side Hk :=
  intros;
  first
    [ typeclasses eauto
    | assumption
    | apply own_meteo
    | apply own_geo
    | reflexivity
    | solve [apply setItem_keeps_foreign; assumption]
    | solve [apply with_env_keeps_foreign; assumption]
    | solve [apply observer_keeps_foreign; exact Hk]
    | solve [intros ?; reflexivity]
    | solve [intros ?; hnf; simpl; repeat split; auto;
             try (intros; apply inflight_own_add; assumption);
             try (intros; apply inflight_own_delete; assumption)]
    | solve [hnf; simpl; repeat split; auto;
             try (intros; apply inflight_own_add; assumption);
             try (intros; apply inflight_own_delete; assumption)]
    | idtac ].

Lemma step_keeps_foreign k ev a :
  own_key k = false -> inflight_own a -> keeps_foreign k a (step ev a).
Proof.
  intros Hk Hown.
  assert (Hev : ev = Reload \/ ev <> Reload)
    by (destruct ev; (left; reflexivity) || (right; discriminate)).
  destruct Hev as [->|Hev].
  { simpl.
    destruct (frame_boot (keeps (fun e => ls e !! k)) (keeps_foreign k)
                (fun k' => own_key k' = true)) with (t := clock (env a)) (store := ls (env a)) as [Hl Hi];
      try foreign_side Hk.
    split; [exact Hl|]. intros _. apply Hi. constructor. }
  apply (frame_step (keeps (fun e => ls e !! k)) (keeps_foreign k)
           (fun k' => own_key k' = true)); try foreign_side Hk.
  match goal with
  | Hin : In _ _ |- _ =>
      apply (proj1 (Forall_forall _ _) Hown), list_elem_of_In, Hin
  end.
Qed.

Lemma run_keeps_foreign k evs : forall a,
  own_key k = false -> inflight_own a ->
  keeps_foreign k a (fold_left (fun x ev => step ev x) evs a).
Proof.
  induction evs as [|ev evs IH]; intros a Hk Hown; simpl; [reflexivity|].
  pose proof (step_keeps_foreign k ev a Hk Hown) as Hs.
  etransitivity; [exact Hs | apply IH; [exact Hk | apply Hs, Hown]].
Qed.

(** X7. The program writes [localStorage] under its own keys only:
    [units], [lastCoords], [meteo:...] and [geo:...]. What is stored under
    any other key when the page loads is what is stored there after any
    sequence of events, page loads included. *)
Theorem foreign_keys_untouched (t : Z) (store : gmap string string)
    (evs : list Event) (k : string) :
  own_key k = false ->
  ls (env (session t store evs)) !! k = store !! k.
Proof.
  intros Hk. unfold session.
  destruct (frame_boot (keeps (fun e => ls e !! k)) (keeps_foreign k)
              (fun k' => own_key k' = true)) with (t := t) (store := store)
    as [Hl Hi]; try foreign_side Hk.
  destruct (run_keeps_foreign k evs (boot t store) Hk) as [Hr _].
  { apply Hi. constructor. }
  rewrite Hr. exact Hl.
Qed.

End StorageUse.

(** ** Responses that fail *)

Section Failures.
Context `{Platform}.

(** X8. A request that fails (the network, or the response body not being
    JSON). A failed forecast is handled by nobody: [loadWeather] has no
    [catch] and no caller awaits it, so the failure ends as an unhandled
    rejection; apart from that nothing happens: nothing is rendered, cached
    or persisted, nothing is shown to the user, the skeleton stays. A
    failed lookup, or one answered with [null], is swallowed by the [catch]
    of [search] and leaves no trace at all. *)
Theorem failed_response_leaves_page (i : nat) (req : Request)
    (r : Outcome JSValue) (a : App) :
  inflight a !! i = Some req ->
  dropped req r = true ->
  step (Response i r) a =
  match req, r with
  | ReqForecast _ _ _, Throw x =>
      set_uncaught (uncaught a ++ [x])
        (set_inflight (delete i (inflight a)) a)
  | _, _ => set_inflight (delete i (inflight a)) a
  end.
Proof.
  intros Hreq Hdrop. cbn [step]. unfold settle. rewrite Hreq.
  destruct r as [res|x].
  - destruct req as [key la lo|key]; [discriminate Hdrop|].
    unfold job, landed, notify, bind, try_catch, with_env, geocode_resume,
      bind, lift, ret.
    destruct res; try discriminate Hdrop; simpl;
      rewrite Nat.ltb_irrefl, andb_false_r; reflexivity.
  - destruct req as [key la lo|key];
      unfold job, landed, escape, modify, notify, bind, try_catch, with_env,
        getJSON_resume, geocode_resume, bind, lift, ret; simpl;
      rewrite Nat.ltb_irrefl, andb_false_r; reflexivity.
Qed.

End Failures.

(** ** The debounce, for any burst of keystrokes *)

Section Bursts.
Context `{Platform}.

Lemma elapse_idle t a : timer a = None -> elapse t a = advance t a.
Proof. intros Ht. unfold elapse. now rewrite Ht. Qed.

Lemma elapse_before t due v a :
  timer a = Some (due, v) -> t < due -> elapse t a = advance t a.
Proof.
  intros Ht Hlt. unfold elapse. rewrite Ht.
  destruct (Z.leb_spec due t); [lia | reflexivity].
Qed.

Lemma elapse_due t due v a :
  timer a = Some (due, v) -> due <= t ->
  elapse t a = advance t (search_job v (set_timer None (advance due a))).
Proof.
  intros Ht Hle. unfold elapse. rewrite Ht.
  destruct (Z.leb_spec due t); [reflexivity | lia].
Qed.

Lemma last_default {A} (l : list A) (d d' : A) :
  l <> [] -> List.last l d = List.last l d'.
Proof.
  induction l as [|x [|y l] IH]; intros Hne; [contradiction|reflexivity|].
  change (List.last (y :: l) d = List.last (y :: l) d'). apply IH. discriminate.
Qed.

Lemma last_cons {A} (x : A) (l : list A) (d : A) :
  List.last (x :: l) d = List.last l x.
Proof.
  destruct l as [|y l]; [reflexivity|].
  change (List.last (y :: l) d = List.last (y :: l) x).
  apply last_default. discriminate.
Qed.

(** With the timeout of the keystroke [(tp, vp)] pending: the rest of the
    burst, then the clock running on. *)
Lemma burst_run (T : Z) (ks : list (Z * string)) : forall a tp vp,
  timer a = Some (tp + debounce_wait, vp) ->
  clock (env a) = tp ->
  spaced tp ks = true ->
  (List.last ks (tp, vp)).1 + debounce_wait <= T ->
  geocode_calls (fold_left (fun x ev => step ev x) (typing ks ++ [Elapse T]) a)
  = (geocode_calls a ++ fires (List.last ks (tp, vp)))%list.
Proof.
  induction ks as [|[t v] ks IH]; intros a tp vp Htimer Hclock Hsp Hlast.
  - cbn [typing flat_map app fold_left step List.last fst] in *.
    rewrite (elapse_due T _ vp a Htimer Hlast).
    change (geocode_calls (advance T ?x)) with (geocode_calls x).
    rewrite search_job_calls. unfold fires. cbn [fst snd].
    change (geocode_calls (set_timer None (advance ?d a))) with (geocode_calls a).
    change (clock (env (set_timer None (advance ?d a))))
      with (Z.max d (clock (env a))).
    rewrite Hclock, Z.max_l by (unfold debounce_wait; lia). reflexivity.
  - rewrite last_cons in *. cbn [spaced fst] in Hsp.
    apply andb_true_iff in Hsp as [Hsp Hrest].
    apply andb_true_iff in Hsp as [Hlo Hhi].
    apply Z.leb_le in Hlo. apply Z.ltb_lt in Hhi.
    cbn [typing flat_map app fold_left step fst snd].
    rewrite (elapse_before t _ vp a Htimer Hhi).
    fold (typing ks).
    rewrite (IH (search v (advance t a)) t v); try assumption.
    + reflexivity.
    + unfold search. cbn [timer set_timer]. f_equal. f_equal.
      change (clock (env (advance t a))) with (Z.max t (clock (env a))).
      rewrite Hclock. f_equal. lia.
    + change (Z.max t (clock (env a)) = t). lia.
Qed.

(** X9. Debounce, in general. In a burst of keystrokes each less than
    300 ms after the one before, every keystroke cancels the timeout of the
    previous one: once the clock is 300 ms past the last keystroke, the
    burst has made exactly one [geocode] call, 300 ms after the last
    keystroke and with the last value, or none when that value is blank. *)
Theorem burst_makes_one_call (a : App) (k : Z * string)
    (ks : list (Z * string)) (T : Z) :
  match timer a with
  | Some (due, _) => k.1 < due
  | None => True
  end ->
  clock (env a) <= k.1 ->
  spaced k.1 ks = true ->
  (List.last ks k).1 + debounce_wait <= T ->
  geocode_calls
    (fold_left (fun x ev => step ev x) (typing (k :: ks) ++ [Elapse T]) a)
  = (geocode_calls a ++ fires (List.last ks k))%list.
Proof.
  intros Htimer Hclock Hsp Hlast. destruct k as [t v].
  cbn [typing flat_map app fold_left step fst snd] in *.
  assert (Hel : elapse t a = advance t a).
  { destruct (timer a) as [[due v0]|] eqn:Ht.
    - now apply (elapse_before t due v0).
    - now apply elapse_idle. }
  rewrite Hel. fold (typing ks).
  rewrite (burst_run T ks (search v (advance t a)) t v); try assumption.
  - reflexivity.
  - unfold search. cbn [timer set_timer]. f_equal. f_equal.
    change (clock (env (advance t a))) with (Z.max t (clock (env a))).
    f_equal. lia.
  - change (Z.max t (clock (env a)) = t). lia.
Qed.

End Bursts.

(** ** The units in use and the persisted units *)

#[local] Instance keeps_inflight_cached_preorder : PreOrder keeps_inflight_cached.
Proof.
  split; [intros a Ha; exact Ha|].
  intros a1 a2 a3 H12 H23 Ha. apply H23, H12, Ha.
Qed.

Section UnitsInvariant.
Context `{Platform}.
#[local] Existing Instance settled_preorder.

Lemma inflight_cached_add req a :
  cache_key (request_key req) = true ->
  inflight_cached a -> inflight_cached (set_inflight (inflight a ++ [req]) a).
Proof.
  intros Hk Ha. unfold inflight_cached in *. simpl.
  apply Forall_app. split; [exact Ha|]. constructor; [exact Hk | constructor].
Qed.

Lemma inflight_cached_delete i a :
  inflight_cached a -> inflight_cached (set_inflight (delete i (inflight a)) a).
Proof. unfold inflight_cached. simpl. apply Forall_delete. Qed.

Lemma inflight_cached_ok a : inflight_cached a -> inflight_ok a.
Proof.
  unfold inflight_cached, inflight_ok. intros Ha.
  eapply Forall_impl; [exact Ha|].
  intros req Hk Heq. simpl in Hk. rewrite Heq in Hk. discriminate Hk.
Qed.

Lemma with_env_inflight_cached {A} (c : M A) :
  respects keeps_inflight_cached (with_env c).
Proof. intros a. unfold with_env. destruct (c (env a)). intros Ha. exact Ha. Qed.

Ltac cached_side :=
  intros;
  first
    [ typeclasses eauto
    | exact I
    | assumption
    | reflexivity
    | solve [intros ?; exact I]
    | solve [auto]
    | solve [apply with_env_inflight_cached]
    | solve [apply observer_still_but_env;
             [typeclasses eauto | intros; apply with_env_inflight_cached]]
    | solve [intros ? Hc; first [ apply inflight_cached_add; assumption
                                | apply inflight_cached_delete; assumption
                                | exact Hc ]]
    | solve [intros Hc; first [ apply inflight_cached_delete; assumption
                              | exact Hc ]]
    | idtac ].

Lemma setUnits_inflight_cached u : respects keeps_inflight_cached (setUnits u).
Proof.
  unfold setUnits. frame;
    first [ apply respects_still; [typeclasses eauto | reflexivity]
          | apply with_env_inflight_cached
          | solve [intros ? Hc; exact Hc]
          | apply (frame_call_loadWeather any_env keeps_inflight_cached
                     (fun k => cache_key k = true)); cached_side ].
Qed.

Lemma step_inflight_cached ev a :
  inflight_cached a -> inflight_cached (step ev a).
Proof.
  intros Ha.
  assert (Hreq : forall req, In req (inflight a) ->
                   cache_key (request_key req) = true).
  { intros req Hreq. apply (proj1 (Forall_forall _ _) Ha).
    apply list_elem_of_In, Hreq. }
  destruct ev as [text|t|checked|la lo name|la lo|msg|i r|].
  1, 2, 6, 7:
    match goal with
    | |- inflight_cached (step ?e ?x) =>
        apply (frame_step_plain any_env keeps_inflight_cached
                 (fun k => cache_key k = true)) with (ev := e) (a := x);
        cached_side
    end.
  - apply (frame_handler_job keeps_inflight_cached) with (a := a);
      cached_side.
    apply setUnits_inflight_cached.
  - apply (frame_handler_job keeps_inflight_cached) with (a := a);
      cached_side.
    apply (frame_pick any_env keeps_inflight_cached
             (fun k => cache_key k = true)); cached_side.
  - apply (frame_handler_job keeps_inflight_cached) with (a := a);
      cached_side.
    apply (frame_located any_env keeps_inflight_cached
             (fun k => cache_key k = true)); cached_side.
  - simpl.
    apply (frame_boot any_env keeps_inflight_cached
             (fun k => cache_key k = true)); cached_side.
    constructor.
Qed.

Lemma run_inflight_cached evs : forall a,
  inflight_cached a ->
  inflight_cached (fold_left (fun x ev => step ev x) evs a).
Proof.
  induction evs as [|ev evs IH]; intros a Ha; simpl; [exact Ha|].
  apply IH, step_inflight_cached, Ha.
Qed.

Lemma boot_inflight_cached t store : inflight_cached (boot t store).
Proof.
  apply (frame_boot any_env keeps_inflight_cached
           (fun k => cache_key k = true)); cached_side.
  constructor.
Qed.

(** The job that follows the synchronous part of a handler leaves the
    session state alone. *)
Lemma handler_job_settled (h : ST App Called) a :
  settled (snd (h a)) (handler_job h a).
Proof.
  unfold handler_job.
  destruct (h a) as [[[[[[f|url key] la] lo]|]|x] a1]; simpl;
    try apply settled_notify.
  - etransitivity; [apply settled_notify | apply settled_job_finish].
  - etransitivity; [|apply settled_notify]. repeat split; auto.
Qed.

Lemma boot_settled t store :
  settled (set_observing true (snd ((let* _ := read_units in init) (blank t store))))
          (set_observing true (boot t store)).
Proof.
  unfold boot.
  destruct ((let* _ := read_units in init) (blank t store))
    as [[[[[[f|url key] la] lo]|]|x] a1]; simpl;
    try (repeat split; auto; fail).
  etransitivity; [apply settled_job_finish|]. repeat split; auto.
Qed.

Lemma call_loadWeather_units la lo a :
  units (state (snd (call_loadWeather la lo a))) = units (state a).
Proof.
  rewrite call_loadWeather_run.
  destruct (loadWeather_start_view la lo a) as (a1 & Ha1 & Hs & _).
  destruct (loadWeather_start la lo a) as [[r|x] a1']; simpl in Ha1; subst a1';
    cbn [snd state set_uncaught]; now rewrite Hs.
Qed.

Lemma boot_script_units t store :
  units (state (snd ((let* _ := read_units in init) (blank t store))))
  = units_of store.
Proof.
  unfold bind at 1. unfold read_units, bind, with_env, localStorage_getItem,
    put_state, write. simpl.
  unfold init, bind, with_env, localStorage_getItem, parse, get_state. simpl.
  match goal with
  | |- context [JSON_parse ?x] => destruct (JSON_parse x) as [last|]
  end; simpl; [|reflexivity].
  destruct (truthy last); simpl.
  - unfold lift. destruct (get_prop last "place"); simpl; [|reflexivity].
    destruct (get_prop last "lat"); simpl; [|reflexivity].
    destruct (get_prop last "lon"); simpl; [|reflexivity].
    rewrite call_loadWeather_units. reflexivity.
  - rewrite call_loadWeather_units. reflexivity.
Qed.

Lemma setItem_keeps_units k v :
  k <> "units" -> respects (keeps (fun e => ls e !! "units")) (localStorage_setItem k v).
Proof. intros Hk e. unfold keeps. simpl. now apply lookup_insert_ne. Qed.

Lemma with_env_keeps_units_key {A} (c : M A) :
  respects (keeps (fun e => ls e !! "units")) c ->
  respects keeps_units_key (with_env c).
Proof.
  intros Hc a. unfold with_env. specialize (Hc (env a)).
  destruct (c (env a)) as [o e']. exact Hc.
Qed.

Lemma observer_keeps_units_key : respects keeps_units_key observer_callback.
Proof.
  unfold observer_callback. frame;
    try (apply respects_still; [typeclasses eauto | reflexivity]).
  apply with_env_keeps_units_key, setItem_keeps_units. discriminate.
Qed.

Lemma cache_key_not_units k : cache_key k = true -> k <> "units".
Proof. intros Hk ->. discriminate Hk. Qed.

Ltac units_side :=
  intros;
  first
    [ typeclasses eauto
    | exact I
    | assumption
    | reflexivity
    | discriminate
    | solve [auto using cache_key_not_units]
    | solve [apply setItem_keeps_units; assumption]
    | solve [apply with_env_keeps_units_key; assumption]
    | solve [apply observer_keeps_units_key]
    | solve [intros ?; reflexivity]
    | idtac ].

Lemma handler_job_units_key (h : ST App Called) a :
  keeps_units_key (snd (h a)) (handler_job h a).
Proof.
  unfold handler_job.
  destruct (h a) as [[[[[[f|url key] la] lo]|]|x] a1]; simpl;
    try (apply (frame_notify keeps_units_key); units_side).
  - etransitivity; [apply (frame_notify keeps_units_key); units_side|].
    apply (frame_job keeps_units_key); units_side.
    apply (frame_loadWeather_finish keeps_units_key); units_side.
  - rewrite notify_set_uncaught.
    apply (frame_notify keeps_units_key); units_side.
Qed.

Lemma setUnits_view u a :
  exists a1,
    snd (setUnits u a) = a1 /\
    units (state a1) = u /\ ls (env a1) !! "units" = Some u.
Proof.
  unfold setUnits.
  unfold bind at 1. unfold get_state at 1.
  unfold bind at 1. unfold put_state at 1.
  unfold bind at 1. unfold with_env at 1, localStorage_setItem at 1.
  unfold bind at 1. unfold write at 1.
  unfold bind at 1. unfold get_state at 1.
  cbn [fst snd state set_state set_env set_dom lat lon].
  destruct (truthy (lat (state a)) && truthy (lon (state a))).
  - eexists. split; [reflexivity|]. split.
    + rewrite call_loadWeather_units. reflexivity.
    + etransitivity;
        [apply (frame_call_loadWeather (keeps (fun e => ls e !! "units"))
                  keeps_units_key (fun k => k <> "units")); units_side|].
      simpl. apply lookup_insert_eq.
  - eexists. split; [reflexivity|]. split; [reflexivity|].
    simpl. apply lookup_insert_eq.
Qed.

Lemma toggle_sets_units u a :
  units (state (handler_job (setUnits u) a)) = u /\
  ls (env (handler_job (setUnits u) a)) !! "units" = Some u.
Proof.
  destruct (handler_job_settled (setUnits u) a) as (Hs & _).
  pose proof (handler_job_units_key (setUnits u) a) as Hk.
  unfold keeps_units_key, keeps in Hk.
  destruct (setUnits_view u a) as (a1 & Ha1 & Hu & Hl).
  rewrite Ha1 in Hs, Hk. rewrite Hs, Hk. split; assumption.
Qed.

Lemma units_of_same (m1 m2 : gmap string string) :
  m1 !! "units" = m2 !! "units" -> units_of m1 = units_of m2.
Proof. intros Hm. unfold units_of. now rewrite Hm. Qed.

Lemma boot_units_agree t store :
  units (state (boot t store)) = units_of store /\ units_agree (boot t store).
Proof.
  assert (Hu : units (state (boot t store)) = units_of store).
  { destruct (boot_settled t store) as (Hs & _). simpl in Hs.
    rewrite Hs. apply boot_script_units. }
  split; [exact Hu|]. unfold units_agree. rewrite Hu.
  apply units_of_same. symmetry.
  apply (frame_boot (keeps (fun e => ls e !! "units")) keeps_units_key
           (fun k => k <> "units")); units_side.
Qed.

Lemma plain_step_units ev a :
  match ev with
  | Input _ | Elapse _ | LocationFailed _ | Response _ _ => True
  | _ => False
  end ->
  inflight_cached a ->
  units (state (step ev a)) = units (state a) /\
  ls (env (step ev a)) !! "units" = ls (env a) !! "units".
Proof.
  intros Hev Ha. split.
  - destruct (settled_step_plain ev a Hev (inflight_cached_ok a Ha)) as (Hs & _).
    now rewrite Hs.
  - apply (frame_step_plain (keeps (fun e => ls e !! "units")) keeps_units_key
             (fun k => k <> "units")); units_side.
    apply cache_key_not_units, (proj1 (Forall_forall _ _) Ha).
    apply list_elem_of_In. assumption.
Qed.

Lemma handler_step_units (h : ST App Called) a :
  respects keeps_units_key h ->
  units (state (snd (h a))) = units (state a) ->
  units (state (handler_job h a)) = units (state a) /\
  ls (env (handler_job h a)) !! "units" = ls (env a) !! "units".
Proof.
  intros Hk Hu.
  destruct (handler_job_settled h a) as (Hs & _).
  pose proof (handler_job_units_key h a) as Hj.
  specialize (Hk a). unfold keeps_units_key, keeps in Hj, Hk.
  rewrite Hs, Hj, Hk, Hu. split; reflexivity.
Qed.

Lemma step_units ev a :
  units_agree a -> inflight_cached a ->
  units (state (step ev a))
  = match ev with
    | ToggleUnits checked => if checked then "imperial" else "metric"
    | _ => units (state a)
    end /\
  units_agree (step ev a).
Proof.
  intros Hagree Ha.
  assert (Hkeep : forall a', units (state a') = units (state a) /\
                             ls (env a') !! "units" = ls (env a) !! "units" ->
                             units (state a') = units (state a) /\ units_agree a').
  { intros a' (Hu & Hl). split; [exact Hu|]. unfold units_agree.
    rewrite Hu, (units_of_same _ _ Hl). exact Hagree. }
  destruct ev as [text|t|checked|la lo name|la lo|msg|i r|].
  1, 2, 6, 7: apply Hkeep, plain_step_units; [exact I | exact Ha].
  - cbn [step].
    destruct (toggle_sets_units (if checked then "imperial" else "metric") a)
      as (Hu & Hl).
    split; [exact Hu|]. unfold units_agree, units_of. rewrite Hu, Hl.
    destruct checked; reflexivity.
  - cbn [step]. apply Hkeep, handler_step_units.
    + apply (frame_pick (keeps (fun e => ls e !! "units")) keeps_units_key
               (fun k => k <> "units")); units_side.
    + destruct (pick_view la lo name a) as (a1 & Ha1 & Hs & _).
      rewrite Ha1, Hs. reflexivity.
  - cbn [step]. apply Hkeep, handler_step_units.
    + apply (frame_located (keeps (fun e => ls e !! "units")) keeps_units_key
               (fun k => k <> "units")); units_side.
    + unfold bind at 1. unfold set_place at 1. unfold bind at 1.
      unfold get_state at 1, put_state at 1.
      rewrite call_loadWeather_units. reflexivity.
  - cbn [step].
    destruct (boot_units_agree (clock (env a)) (ls (env a))) as (Hu & Hb).
    split; [|exact Hb]. rewrite Hu. symmetry. exact Hagree.
Qed.

Lemma run_units evs : forall a,
  units_agree a -> inflight_cached a ->
  units_agree (fold_left (fun x ev => step ev x) evs a) /\
  inflight_cached (fold_left (fun x ev => step ev x) evs a).
Proof.
  induction evs as [|ev evs IH]; intros a Hagree Ha; simpl; [auto|].
  apply IH; [apply step_units; assumption | apply step_inflight_cached, Ha].
Qed.

(** X10. The units in use are always the persisted ones: in every state a
    session reaches, [state.units] is what [localStorage] holds under
    [units] ([metric] when it holds nothing). Only the toggle changes the
    units, to the one it selects; every other event keeps them, and a page
    load comes back with them. *)
Theorem units_follow_the_toggle (t : Z) (store : gmap string string)
    (evs : list Event) (ev : Event) :
  units (state (session t store evs))
  = units_of (ls (env (session t store evs))) /\
  units (state (step ev (session t store evs)))
  = match ev with
    | ToggleUnits checked => if checked then "imperial" else "metric"
    | _ => units (state (session t store evs))
    end.
Proof.
  destruct (run_units evs (boot t store)) as (Hagree & Ha).
  { apply boot_units_agree. }
  { apply boot_inflight_cached. }
  split; [exact Hagree|]. apply step_units; assumption.
Qed.

End UnitsInvariant.

(** ** The location restored by a page load *)

Section Restore.
Context `{Platform}.
#[local] Existing Instance settled_preorder.

(** [loadWeather] called with two numbers: its synchronous part returns,
    having made them the active coordinates, logged the load and shown the
    skeleton. *)
Lemma call_loadWeather_numbers x y a :
  exists r a1,
    call_loadWeather (JNum x) (JNum y) a = (Normal (Some (r, JNum x, JNum y)), a1) /\
    state a1 = mkSession (units (state a)) (JNum x) (JNum y) (place (state a)) /\
    started a1 = (started a ++ [(JNum x, JNum y, place (state a))])%list /\
    observing a1 = observing a /\
    dom a1 = (dom a ++ skeleton_ops)%list.
Proof.
  rewrite call_loadWeather_run. unfold loadWeather_start.
  unfold bind at 1. unfold get_state at 1.
  unfold bind at 1. unfold put_state at 1.
  unfold bind at 1. unfold modify at 1.
  unfold bind at 1. rewrite showSkeleton_run.
  unfold bind at 1. unfold with_env at 1. rewrite forecast_run.
  match goal with
  | |- context [getJSON ?url ?key ?e] =>
      destruct (getJSON_run url key e) as (c & e1 & _ & ->)
  end.
  destruct (truthy c); eexists _, _; (split; [reflexivity|]);
    simpl; repeat split.
Qed.

Lemma observer_same_view : respects same_view observer_callback.
Proof.
  apply observer_still_but_env; [typeclasses eauto|].
  intros. apply with_env_same_view.
Qed.

Lemma job_finish_same_view la lo f a :
  same_view a (job (loadWeather_finish la lo f) a).
Proof.
  apply (frame_job same_view); try frame_side.
  - apply observer_same_view.
  - apply (frame_loadWeather_finish same_view); try frame_side.
Qed.

(** The page load when [init] ends in a call of [loadWeather] with two
    numbers: the observer is installed and, if the forecast came from the
    cache, the rest of the load runs. *)
Lemma boot_loading (t : Z) (store : gmap string string) (x y : number) (a0 : App) :
  (let* _ := read_units in init) (blank t store)
  = call_loadWeather (JNum x) (JNum y) a0 ->
  exists post,
    state (boot t store)
    = mkSession (units (state a0)) (JNum x) (JNum y) (place (state a0)) /\
    started (boot t store)
    = (started a0 ++ [(JNum x, JNum y, place (state a0))])%list /\
    observing (boot t store) = true /\
    dom (boot t store) = (dom a0 ++ skeleton_ops ++ post)%list.
Proof.
  intros Hscript. unfold boot. rewrite Hscript.
  destruct (call_loadWeather_numbers x y a0)
    as (r & a1 & -> & Hs & Hst & Ho & Hd).
  destruct r as [f|url key].
  - destruct (job_finish_same_view (JNum x) (JNum y) f (set_observing true a1))
      as (Hs' & Ho' & [post Hp]).
    destruct (job_finish_calm (JNum x) (JNum y) f (set_observing true a1))
      as (_ & Hst' & _).
    exists post. rewrite Hs', Hst', Ho', Hp.
    cbn [state started observing dom set_observing].
    rewrite Hs, Hst, Hd, <- app_assoc. repeat split.
  - exists [].
    cbn [state started observing dom set_observing].
    rewrite Hs, Hst, Hd, app_nil_r. repeat split.
Qed.

(** X11. A page load restores the persisted location. When [lastCoords]
    holds an object whose [lat] and [lon] are numbers, the page load makes
    them the active coordinates, with the stored [place] as the place name,
    whatever their values, starts exactly one load, for them, shows the
    skeleton and installs the observer. *)
Theorem persisted_location_restored (t : Z) (store : gmap string string)
    (raw : string) (fs : list (string * JSValue)) (x y : number) :
  store !! "lastCoords" = Some raw ->
  raw <> "" ->
  JSON_parse raw = Some (JObj fs) ->
  assoc "lat" fs = Some (JNum x) ->
  assoc "lon" fs = Some (JNum y) ->
  exists post,
    state (boot t store)
    = mkSession (units_of store) (JNum x) (JNum y)
                (default JUndefined (assoc "place" fs)) /\
    started (boot t store)
    = [(JNum x, JNum y, default JUndefined (assoc "place" fs))] /\
    observing (boot t store) = true /\
    dom (boot t store)
    = (unit_ops (units_of store) ++ skeleton_ops ++ post)%list.
Proof.
  intros Hlc Hne Hparse Hlat Hlon.
  apply (boot_loading t store x y
           (mkApp (mkEnv t ∅ store ["units"; "lastCoords"] [])
                  (mkSession (units_of store) JUndefined JUndefined
                             (default JUndefined (assoc "place" fs)))
                  (unit_ops (units_of store)) false None [] [] [] [] [])).
  unfold bind at 1. unfold read_units, bind, with_env, localStorage_getItem,
    put_state, write. simpl.
  unfold init, bind, with_env, localStorage_getItem, parse, get_state. simpl.
  rewrite Hlc. destruct (String.eqb_spec raw "") as [|_]; [contradiction|].
  rewrite Hparse. simpl. rewrite Hlat, Hlon. reflexivity.
Qed.

(** X12. A [lastCoords] that holds a falsy JSON value ([null], [0],
    [false], an empty string), or the empty text, is treated as no
    [lastCoords] at all: the page load falls back to (19.076, 72.8777) and
    [Mumbai, IN], starts one load for them and installs the observer. *)
Theorem falsy_lastCoords_falls_back (t : Z) (store : gmap string string)
    (raw : string) (v : JSValue) :
  store !! "lastCoords" = Some raw ->
  JSON_parse (if String.eqb raw "" then "null" else raw) = Some v ->
  truthy v = false ->
  exists post,
    state (boot t store)
    = mkSession (units_of store) (JNum fallback_lat) (JNum fallback_lon)
                (JStr "Mumbai, IN") /\
    started (boot t store)
    = [(JNum fallback_lat, JNum fallback_lon, JStr "Mumbai, IN")] /\
    observing (boot t store) = true /\
    dom (boot t store)
    = (unit_ops (units_of store) ++ skeleton_ops ++ post)%list.
Proof.
  intros Hlc Hparse Hfalsy.
  apply (boot_loading t store fallback_lat fallback_lon
           (mkApp (mkEnv t ∅ store ["units"; "lastCoords"] [])
                  (mkSession (units_of store) JUndefined JUndefined
                             (JStr "Mumbai, IN"))
                  (unit_ops (units_of store)) false None [] [] [] [] [])).
  unfold bind at 1. unfold read_units, bind, with_env, localStorage_getItem,
    put_state, write. simpl.
  unfold init, bind, with_env, localStorage_getItem, parse, get_state. simpl.
  rewrite Hlc, Hparse. simpl. rewrite Hfalsy. reflexivity.
Qed.

(** The page load over a [lastCoords] as the observer writes it. *)
Lemma reload_restores (la lo : number) (name : string) (a1 : App) :
  persisted a1 = Some (JSON_stringify (record (JNum la, JNum lo, JStr name))) ->
  JSON_stringify (record (JNum la, JNum lo, JStr name)) <> "" ->
  JSON_parse (JSON_stringify (record (JNum la, JNum lo, JStr name)))
  = Some (record (JNum la, JNum lo, JStr name)) ->
  coords (state (step Reload a1)) = (JNum la, JNum lo, JStr name) /\
  started (step Reload a1) = [(JNum la, JNum lo, JStr name)].
Proof.
  intros Hp Hne Hrt. cbn [step]. unfold persisted in Hp.
  destruct (boot_loading (clock (env a1)) (ls (env a1)) la lo
              (mkApp (mkEnv (clock (env a1)) ∅ (ls (env a1))
                        ["units"; "lastCoords"] [])
                     (mkSession (units_of (ls (env a1))) JUndefined JUndefined
                                (JStr name))
                     (unit_ops (units_of (ls (env a1)))) false None [] [] [] [] []))
    as (post & Hs & Hst & _).
  { unfold bind at 1. unfold read_units, bind, with_env, localStorage_getItem,
      put_state, write. simpl.
    unfold init, bind, with_env, localStorage_getItem, parse, get_state. simpl.
    rewrite Hp.
    destruct (String.eqb_spec (JSON_stringify
                                 (record (JNum la, JNum lo, JStr name))) "")
      as [|_]; [contradiction|].
    rewrite Hrt. reflexivity. }
  rewrite Hs, Hst. split; reflexivity.
Qed.

(** X13. The location survives a page load. After a suggestion with truthy
    coordinates is picked on a page whose observer is installed, the next
    page load restores these coordinates and this place name and starts a
    load for them, whether or not the forecast of the pick ever arrived;
    this for every record that [JSON.parse] reads back from what
    [JSON.stringify] wrote. *)
Theorem picked_location_survives_reload (la lo : number) (name : string)
    (a : App) :
  observing a = true ->
  truthy (JNum la) = true ->
  truthy (JNum lo) = true ->
  JSON_stringify (record (JNum la, JNum lo, JStr name)) <> "" ->
  JSON_parse (JSON_stringify (record (JNum la, JNum lo, JStr name)))
  = Some (record (JNum la, JNum lo, JStr name)) ->
  coords (state (step Reload (step (PickSuggestion la lo name) a)))
  = (JNum la, JNum lo, JStr name) /\
  started (step Reload (step (PickSuggestion la lo name) a))
  = [(JNum la, JNum lo, JStr name)].
Proof.
  intros Hobs Hla Hlo Hne Hrt.
  apply reload_restores; [|exact Hne|exact Hrt].
  apply pick_persists_at_start; assumption.
Qed.
End Restore.

(** ** The end of a load *)

#[local] Instance only_dom_preorder : PreOrder only_dom.
Proof.
  split.
  - intros a. split; [reflexivity|]. destruct a; reflexivity.
  - intros a1 a2 a3 [Hg1 He1] [Hg2 He2]. split; [etransitivity; eassumption|].
    rewrite <- He1, <- He2. reflexivity.
Qed.

Section LoadEnd.
Context `{Platform}.

Lemma landed_returned {A} (r : Outcome A * App) (x : A) :
  fst r = Normal x -> landed r = snd r.
Proof. destruct r as [[y|y] a]; [reflexivity | discriminate]. Qed.

Lemma write_only_dom op : respects only_dom (write op).
Proof.
  intros a. split; [eexists; reflexivity|]. destruct a; reflexivity.
Qed.

Lemma only_dom_fields a a' :
  only_dom a a' ->
  state a' = state a /\ observing a' = observing a /\ env a' = env a /\
  completed a' = completed a /\ started a' = started a /\
  inflight a' = inflight a /\ (mutations a <= mutations a')%nat.
Proof.
  intros [[post Hd] He]. rewrite <- He. simpl. repeat split.
  unfold mutations. simpl. rewrite Hd, filter_app, length_app. lia.
Qed.

(** A computation that returned: its continuation ran. *)
Lemma bind_returned {S A B} (R : S -> S -> Prop) (c : ST S A)
    (k : A -> ST S B) (s : S) (y : B) :
  respects R c ->
  fst (bind c k s) = Normal y ->
  exists x s1, R s s1 /\ bind c k s = k x s1.
Proof.
  intros Hc Hy. specialize (Hc s). unfold bind in *.
  destruct (c s) as [[x|e] s1]; [|discriminate Hy]. eauto.
Qed.

Lemma label_only_dom (s : Session) la lo :
  respects only_dom
    (if truthy (place s) then ret (place s)
     else
       let* a := lift (call_toFixed2 la) in
       let* b := lift (call_toFixed2 lo) in
       ret (JStr (a ++ ", " ++ b))).
Proof. frame; apply respects_still; try typeclasses eauto; reflexivity. Qed.

Lemma renderCurrent_only_dom l d : respects only_dom (renderCurrent l d).
Proof.
  apply (frame_renderCurrent only_dom); try typeclasses eauto; apply write_only_dom.
Qed.

Lemma renderDaily_only_dom d : respects only_dom (renderDaily d).
Proof.
  apply (frame_renderDaily only_dom); try typeclasses eauto; apply write_only_dom.
Qed.

Lemma renderHourly_only_dom d : respects only_dom (renderHourly d).
Proof.
  apply (frame_renderHourly only_dom); try typeclasses eauto; apply write_only_dom.
Qed.

(** A load that ran to its end wrote [#perf] last and was logged as
    completed; before that only the DOM log changed. *)
Lemma finish_returned la lo f a :
  fst (loadWeather_finish la lo f a) = Normal tt ->
  exists a5,
    only_dom a a5 /\
    snd (loadWeather_finish la lo f a)
    = set_completed (completed a5 ++ [(la, lo, place (state a))])
        (set_dom (dom a5 ++ [perf_op f]) a5).
Proof.
  unfold loadWeather_finish. intros Hy.
  unfold bind at 1 in Hy. unfold get_state at 1 in Hy.
  unfold bind at 1. unfold get_state at 1.
  destruct (bind_returned only_dom _ _ _ _ (label_only_dom (state a) la lo) Hy)
    as (label & a1 & H1 & Hb).
  rewrite Hb in Hy |- *. clear Hb.
  destruct (bind_returned only_dom _ _ _ _ (renderCurrent_only_dom _ _) Hy)
    as (? & a2 & H2 & Hb).
  rewrite Hb in Hy |- *. clear Hb.
  destruct (bind_returned only_dom _ _ _ _ (renderDaily_only_dom _) Hy)
    as (? & a3 & H3 & Hb).
  rewrite Hb in Hy |- *. clear Hb.
  destruct (bind_returned only_dom _ _ _ _ (renderHourly_only_dom _) Hy)
    as (? & a4 & H4 & Hb).
  rewrite Hb. clear Hb Hy.
  exists a4. split; [|reflexivity].
  etransitivity; [exact H1|]. etransitivity; [exact H2|].
  etransitivity; [exact H3 | exact H4].
Qed.

(** X14. The end of a successful load. When the rest of [loadWeather] runs
    to its end on a page whose observer is installed and whose active
    coordinates are truthy: the load is logged as completed, the last write
    to the DOM is the [#perf] label, and [lastCoords] then holds the record
    of the session state, which is that of the most recently started load,
    not necessarily the one that just ended. *)
Theorem finished_load_is_persisted (la lo : JSValue) (f : Fetched) (a : App) :
  observing a = true ->
  truthy (lat (state a)) = true ->
  truthy (lon (state a)) = true ->
  fst (loadWeather_finish la lo f a) = Normal tt ->
  exists a' pre,
    job (loadWeather_finish la lo f) a = a' /\
    persisted a' = Some (JSON_stringify (record (coords (state a)))) /\
    state a' = state a /\
    completed a' = (completed a ++ [(la, lo, place (state a))])%list /\
    dom a' = (dom a ++ pre ++ [perf_op f])%list.
Proof.
  intros Hobs Hla Hlo Hy.
  destruct (finish_returned la lo f a Hy) as (a5 & H5 & Hrun).
  destruct (only_dom_fields a a5 H5) as (Hs & Ho & He & Hc & _ & _ & Hm).
  destruct H5 as [[pre Hd] _].
  unfold job. rewrite (landed_returned _ _ Hy), Hrun. unfold notify.
  cbn [observing set_completed set_dom]. rewrite Ho, Hobs.
  assert (Hlt : (mutations a <? mutations
                   (set_completed (completed a5 ++ [(la, lo, place (state a))])
                      (set_dom (dom a5 ++ [perf_op f]) a5)))%nat = true).
  { apply Nat.ltb_lt. unfold mutations in *. cbn [dom set_completed set_dom].
    rewrite filter_app, length_app. simpl. lia. }
  rewrite Hlt. cbn [andb].
  rewrite observer_callback_writes by (cbn [state set_completed set_dom]; rewrite Hs; assumption).
  eexists _, pre. split; [reflexivity|].
  cbn [snd persisted state completed dom env ls set_env set_ls set_completed set_dom].
  unfold persisted. cbn [env ls set_env set_ls].
  rewrite Hs, Hc, Hd, <- app_assoc.
  split; [apply lookup_insert_eq|]. repeat split.
Qed.




End LoadEnd.

(** ** The daily and hourly strips *)

Section Strips.
Context `{Platform}.

Lemma cell_entry owner s i c :
  cell owner s i = Normal c <-> entry_text owner s i c.
Proof.
  unfold cell, entry_text. split.
  - destruct (get_prop owner s) as [col|] eqn:Hcol; [|discriminate].
    destruct (index col i) as [v|] eqn:Hv; [|discriminate].
    intros Hc. exists col, v. auto.
  - intros (col & v & -> & -> & Hc). exact Hc.
Qed.

(** What [cards] returns, when it returns: every element of [times] can be
    made a date of, and the rows are the cards of the positions from [i]
    on. *)
Lemma cards_sound owner series times : forall i rows,
  cards owner series i times = Normal rows ->
  Forall (fun dt => new_Date dt = Normal tt) times /\
  Forall2 (card_at owner series) (seq i (length times)) rows.
Proof.
  induction times as [|dt rest IH]; intros i rows Hc.
  - injection Hc as <-. split; constructor.
  - cbn [cards] in Hc. destruct (new_Date dt) as [[]|] eqn:Hdt; [|discriminate Hc].
    revert Hc.
    match goal with |- ?F series [] = _ -> _ => set (row := F) end.
    assert (Hrow : forall cols acc,
               row cols acc = Normal rows ->
               exists r rest',
                 rows = (rev acc ++ r)%list :: rest' /\
                 Forall2 (fun s c => entry_text owner s i c) cols r /\
                 cards owner series (S i) rest = Normal rest').
    { induction cols as [|c cols IHc]; intros acc Hr.
      - change (row [] acc)
          with (match cards owner series (S i) rest with
                | Normal rows0 => Normal (rev acc :: rows0)
                | Throw x => Throw x
                end) in Hr.
        destruct (cards owner series (S i) rest) as [rows'|]; [|discriminate Hr].
        injection Hr as <-. exists [], rows'.
        rewrite app_nil_r. split; [reflexivity|]. split; [constructor | reflexivity].
      - change (row (c :: cols) acc)
          with (match cell owner c i with
                | Normal s => row cols (s :: acc)
                | Throw x => Throw x
                end) in Hr.
        destruct (cell owner c i) as [s|] eqn:Hs; [|discriminate Hr].
        destruct (IHc _ Hr) as (r & rest' & Hrows & Hcells & Hrest).
        exists (s :: r), rest'. split; [|split; [|exact Hrest]].
        + rewrite Hrows. simpl. now rewrite <- app_assoc.
        + constructor; [now apply cell_entry | exact Hcells]. }
    intros Hc. destruct (Hrow series [] Hc) as (r & rest' & -> & Hcells & Hrest).
    destruct (IH _ _ Hrest) as [Hd Hf].
    split; [constructor; [exact Hdt | exact Hd]|].
    simpl. constructor; [exact Hcells | exact Hf].
Qed.

(** [cards] returns whenever it can. *)
Lemma cards_complete owner series times : forall i rows,
  Forall (fun dt => new_Date dt = Normal tt) times ->
  Forall2 (card_at owner series) (seq i (length times)) rows ->
  cards owner series i times = Normal rows.
Proof.
  induction times as [|dt rest IH]; intros i rows Hd Hrows.
  - inversion Hrows. reflexivity.
  - simpl in Hrows.
    inversion Hrows as [|? r ? rest' Hr Hrest]; subst.
    inversion Hd as [|? ? Hdt Hd']; subst.
    cbn [cards]. rewrite Hdt.
    match goal with |- ?F series [] = _ => set (row := F) end.
    assert (Hrow : forall cols acc r0,
               Forall2 (fun s c => entry_text owner s i c) cols r0 ->
               row cols acc = Normal ((rev acc ++ r0)%list :: rest')).
    { induction cols as [|c cols IHc]; intros acc r0 Hr0.
      - inversion Hr0; subst.
        change (row [] acc)
          with (match cards owner series (S i) rest with
                | Normal rows0 => Normal (rev acc :: rows0)
                | Throw x => Throw x
                end).
        rewrite (IH _ _ Hd' Hrest), app_nil_r. reflexivity.
      - inversion Hr0 as [|? s ? r1 Hs Hr1]; subst.
        change (row (c :: cols) acc)
          with (match cell owner c i with
                | Normal s => row cols (s :: acc)
                | Throw x => Throw x
                end).
        apply cell_entry in Hs. rewrite Hs, (IHc _ _ Hr1). simpl.
        now rewrite <- app_assoc. }
    exact (Hrow series [] r Hr).
Qed.

(** A strip is written exactly when it can be made. *)
Lemma strip_run (part sel : string) (series : list string)
    (shown : list JSValue -> list JSValue) (d : JSValue) (a : App) :
  let render : ST App unit :=
    let* owner := lift (get_prop d part) in
    let* time := lift (get_prop owner "time") in
    let* times := lift (as_array time) in
    let* rows := lift (cards owner series 0 (shown times)) in
    write (SetHTML sel (Cards rows)) in
  (forall rows,
     strip_of d part series shown rows ->
     render a = (Normal tt, set_dom (dom a ++ [SetHTML sel (Cards rows)]) a)) /\
  ((forall rows, ~ strip_of d part series shown rows) ->
   exists x, render a = (Throw x, a)).
Proof.
  intros render. subst render. unfold bind, lift, write. split.
  - intros rows (owner & times & -> & -> & Hd & Hrows). cbn [as_array].
    rewrite (cards_complete owner series (shown times) 0 rows Hd Hrows).
    reflexivity.
  - intros Hno.
    destruct (get_prop d part) as [owner|x] eqn:Ho; [|eauto].
    destruct (get_prop owner "time") as [time|x] eqn:Ht; [|eauto].
    destruct time as [| | | | |times|]; cbn [as_array]; eauto.
    destruct (cards owner series 0 (shown times)) as [rows|x] eqn:Hc; [|eauto].
    exfalso. apply (Hno rows). exists owner, times.
    destruct (cards_sound _ _ _ _ _ Hc) as [Hd Hrows]. auto.
Qed.

(** X16. The strips are written whole or not at all. [renderDaily] writes
    one card per element of [daily.time]: the card of position [i] holds the
    texts of the elements at position [i] of the maximum temperatures, the
    minimum temperatures and the mean precipitation probabilities, in this
    order. [renderHourly] does the same for the first 24 elements of
    [hourly.time], with the hourly temperatures and precipitation
    probabilities. The strip is written exactly when it can be made: the
    member is there, its [time] is a list, a date can be made of each
    element shown, and each series has an element with a text at each
    position shown. In every other case the function throws and has written
    nothing. *)
Theorem strips_whole_or_nothing (d : JSValue) (a : App) :
  (forall rows,
     strip_of d "daily" daily_series id rows ->
     renderDaily d a
     = (Normal tt, set_dom (dom a ++ [SetHTML "#daily" (Cards rows)]) a)) /\
  ((forall rows, ~ strip_of d "daily" daily_series id rows) ->
   exists x, renderDaily d a = (Throw x, a)) /\
  (forall rows,
     strip_of d "hourly" hourly_series (take 24) rows ->
     renderHourly d a
     = (Normal tt, set_dom (dom a ++ [SetHTML "#hourly" (Cards rows)]) a)) /\
  ((forall rows, ~ strip_of d "hourly" hourly_series (take 24) rows) ->
   exists x, renderHourly d a = (Throw x, a)).
Proof.
  destruct (strip_run "daily" "#daily" daily_series id d a) as [Hd1 Hd2].
  destruct (strip_run "hourly" "#hourly" hourly_series (take 24) d a)
    as [Hh1 Hh2].
  split; [exact Hd1|]. split; [exact Hd2|]. split; [exact Hh1 | exact Hh2].
Qed.

End Strips.

(** ** A [lastCoords] that is not JSON *)

#[local] Instance keeps_unobserved_preorder : PreOrder keeps_unobserved.
Proof.
  split; [intros a; repeat split; auto|].
  intros a1 a2 a3 (?&?&?) (?&?&?). unfold keeps_unobserved.
  repeat split; [congruence | congruence | auto].
Qed.

Section Corrupt.
Context `{Platform}.

Lemma notify_off n a : observing a = false -> notify n a = a.
Proof. intros Ho. unfold notify. now rewrite Ho. Qed.

Lemma with_env_keeps_unobserved {A} (c : M A) :
  respects keeps_lastCoords c -> respects keeps_unobserved (with_env c).
Proof.
  intros Hc a. unfold with_env. specialize (Hc (env a)).
  destruct (c (env a)) as [o e']. repeat split; auto.
Qed.

(** Side conditions of the generic frame lemmas for [keeps_unobserved]. *)
Ltac unobserved_side :=
  intros;
  first
    [ typeclasses eauto
    | assumption
    | apply forecast_key_ok
    | apply geocode_key_ok
    | discriminate
    | solve [apply setItem_keeps_lastCoords; assumption]
    | solve [apply with_env_keeps_unobserved; assumption]
    | solve [intros ?; reflexivity]
    | solve [intros ?; hnf; unfold persisted; simpl; repeat split; auto;
             try (intros; apply inflight_ok_add; assumption);
             try (intros; apply inflight_ok_delete; assumption)]
    | solve [hnf; unfold persisted; simpl; repeat split; auto;
             try (intros; apply inflight_ok_add; assumption);
             try (intros; apply inflight_ok_delete; assumption)]
    | idtac ].

Lemma landed_unobserved {A} (c : ST App A) a :
  respects keeps_unobserved c -> keeps_unobserved a (landed (c a)).
Proof.
  intros Hc. specialize (Hc a). unfold landed.
  destruct (c a) as [[x|x] a1]; cbn [snd] in Hc; [exact Hc|].
  destruct Hc as (Ho & Hp & Hi). repeat split; auto.
Qed.

(** Without the observer, a job is its body. *)
Lemma job_off (body : ST App unit) a :
  respects keeps_unobserved body -> observing a = false ->
  keeps_unobserved a (job body a).
Proof.
  intros Hb Ho. unfold job.
  pose proof (landed_unobserved body a Hb) as Hl.
  rewrite notify_off; [exact Hl|]. destruct Hl as (-> & _). exact Ho.
Qed.

Lemma finish_keeps_unobserved la lo f :
  respects keeps_unobserved (loadWeather_finish la lo f).
Proof. apply (frame_loadWeather_finish keeps_unobserved); unobserved_side. Qed.

Lemma handler_job_off (h : ST App Called) a :
  respects keeps_unobserved h -> observing a = false ->
  keeps_unobserved a (handler_job h a).
Proof.
  intros Hh Ho. unfold handler_job.
  pose proof (landed_unobserved h a Hh) as Hl. specialize (Hh a).
  assert (Ho1 : observing (snd (h a)) = false)
    by (destruct Hh as (-> & _); exact Ho).
  assert (Ho2 : observing (landed (h a)) = false)
    by (destruct Hl as (-> & _); exact Ho).
  destruct (h a) as [[[[[[f|url key] la] lo]|]|x] a1]; cbn [snd] in *;
    try (rewrite (notify_off _ _ Ho2); exact Hl).
  rewrite (notify_off _ a1 Ho1).
  etransitivity; [exact Hh|]. apply job_off; [|exact Ho1].
  apply finish_keeps_unobserved.
Qed.

Lemma search_job_off text a :
  observing a = false -> keeps_unobserved a (search_job text a).
Proof.
  intros Ho. unfold search_job.
  assert (Hs : keeps_unobserved a (snd (search_start text a))).
  { apply (frame_search_start keeps_lastCoords keeps_unobserved
             (fun k => k <> "lastCoords")); unobserved_side. }
  assert (Ho1 : observing (snd (search_start text a)) = false)
    by (destruct Hs as (-> & _); exact Ho).
  destruct (search_start text a) as [[[results|]|x] a1]; cbn [snd] in *;
    rewrite (notify_off _ a1 Ho1); try exact Hs.
  etransitivity; [exact Hs|]. apply job_off; [|exact Ho1].
  frame; try (apply respects_ret; typeclasses eauto).
  apply (frame_search_finish keeps_unobserved); unobserved_side.
Qed.

Lemma settle_off i r a :
  inflight_ok a -> observing a = false -> keeps_unobserved a (settle i r a).
Proof.
  intros Hok Ho. unfold settle.
  destruct (inflight a !! i) as [req|] eqn:Hreq; [|reflexivity].
  assert (Hk : request_key req <> "lastCoords").
  { apply (proj1 (Forall_forall _ _) Hok), list_elem_of_lookup. eauto. }
  etransitivity;
    [|destruct req as [key la lo|key]; simpl in Hk; apply job_off;
      try exact Ho].
  - repeat split; auto. intros _. now apply inflight_ok_delete.
  - frame; [|apply finish_keeps_unobserved].
    apply with_env_keeps_unobserved.
    apply (frame_getJSON_resume keeps_lastCoords (fun k => k <> "lastCoords"));
      unobserved_side.
  - frame; try (apply respects_ret; typeclasses eauto).
    + apply with_env_keeps_unobserved.
      apply (frame_geocode_resume keeps_lastCoords (fun k => k <> "lastCoords"));
        unobserved_side.
    + apply (frame_search_finish keeps_unobserved); unobserved_side.
Qed.

Lemma step_off ev a :
  ev <> Reload -> inflight_ok a -> observing a = false ->
  keeps_unobserved a (step ev a).
Proof.
  intros Hev Hok Ho.
  destruct ev as [text|t|checked|la lo name|la lo|msg|i r|]; cbn [step];
    try contradiction.
  - unfold search. repeat split; auto.
  - unfold elapse. destruct (timer a) as [[due text]|]; [|repeat split; auto].
    destruct (due <=? t); [|repeat split; auto].
    transitivity (set_timer None (advance due a)); [repeat split; auto|].
    transitivity (search_job text (set_timer None (advance due a)));
      [apply search_job_off; exact Ho | repeat split; auto].
  - apply handler_job_off; [|exact Ho].
    apply (frame_setUnits keeps_lastCoords keeps_unobserved
             (fun k => k <> "lastCoords")); unobserved_side.
  - apply handler_job_off; [|exact Ho].
    apply (frame_pick keeps_lastCoords keeps_unobserved
             (fun k => k <> "lastCoords")); unobserved_side.
  - apply handler_job_off; [|exact Ho].
    apply (frame_located keeps_lastCoords keeps_unobserved
             (fun k => k <> "lastCoords")); unobserved_side.
  - apply job_off; [|exact Ho]. unobserved_side.
  - apply settle_off; assumption.
Qed.

(** The page load over a [lastCoords] that [JSON.parse] rejects: [init]
    throws, and the script ends there. *)
Lemma boot_corrupt t store raw :
  store !! "lastCoords" = Some raw -> raw <> "" -> JSON_parse raw = None ->
  boot t store
  = mkApp (mkEnv t ∅ store ["units"; "lastCoords"] [])
          (mkSession (units_of store) JUndefined JUndefined JUndefined)
          (unit_ops (units_of store)) false None [] [] [] [] [SyntaxError].
Proof.
  intros Hlc Hne Hparse.
  unfold boot, bind, read_units, init, with_env, localStorage_getItem,
    put_state, get_state, write, parse, bind, ret, throw.
  simpl. rewrite Hlc. destruct (String.eqb_spec raw "") as [|_]; [contradiction|].
  rewrite Hparse. reflexivity.
Qed.

Lemma run_corrupt raw evs : forall a,
  raw <> "" -> JSON_parse raw = None ->
  observing a = false -> persisted a = Some raw -> inflight_ok a ->
  observing (fold_left (fun x ev => step ev x) evs a) = false /\
  persisted (fold_left (fun x ev => step ev x) evs a) = Some raw.
Proof.
  induction evs as [|ev evs IH]; intros a Hne Hparse Ho Hp Hok; simpl; [auto|].
  assert (Hev : ev = Reload \/ ev <> Reload)
    by (destruct ev; (left; reflexivity) || (right; discriminate)).
  destruct Hev as [->|Hev].
  - cbn [step]. rewrite (boot_corrupt _ _ raw Hp Hne Hparse).
    apply IH; try assumption; try reflexivity. constructor.
  - destruct (step_off ev a Hev Hok Ho) as (Ho' & Hp' & Hok').
    apply IH; try assumption; [congruence | congruence | auto].
Qed.

(** X17. A [lastCoords] that is not JSON is never repaired. The page load
    then stops inside [init]: no load is started, no request is sent and
    the observer is not installed. From there on, whatever the user does,
    page loads included, the observer stays off and [lastCoords] keeps the
    same text, so every page load fails the same way. *)
Theorem corrupt_lastCoords_never_repaired (t : Z) (store : gmap string string)
    (raw : string) (evs : list Event) :
  store !! "lastCoords" = Some raw ->
  raw <> "" ->
  JSON_parse raw = None ->
  started (boot t store) = [] /\
  fetched (env (boot t store)) = [] /\
  dom (boot t store) = unit_ops (units_of store) /\
  observing (session t store evs) = false /\
  persisted (session t store evs) = Some raw.
Proof.
  intros Hlc Hne Hparse. unfold session.
  rewrite (boot_corrupt t store raw Hlc Hne Hparse).
  split; [reflexivity|]. split; [reflexivity|]. split; [reflexivity|].
  apply run_corrupt; try assumption; try reflexivity. constructor.
Qed.

End Corrupt.

(** ** A toggle served from the cache *)

Section ToggleCached.
Context `{Platform}.



End ToggleCached.

(** ** The suggestion list *)

Section Suggestions.
Context `{Platform}.










End Suggestions.

(** ** Geolocation *)

Section Geolocation.
Context `{Platform}.
#[local] Existing Instance settled_preorder.




End Geolocation.

(** ** The further properties on concrete inputs *)

Section MoreRuns.
#[local] Existing Instance Ref.platform.
Import Sample Inputs.

Lemma stored_entry_expires_across_reload_witness :
  exists e1,
    cacheGet "k" (fresh_page 500
                    (snd (cacheSet "k" (JStr "v") (Num 1000) empty_env)))
    = (Normal (JStr "v"), e1) /\
    mem e1 !! "k" = Some (JStr "v").
Proof.
  apply (stored_entry_expires_across_reload "k" (JStr "v") 1000 empty_env 500).
  - vm_compute. discriminate.
  - vm_compute. reflexivity.
Defined.

Lemma forecast_shared_within_rounding_witness :
  forecast (JNum (Num (1908 # 100))) (JNum fallback_lon) "metric"
    (set_clock 99 (snd (getJSON_resume mumbai_metric (Normal weather) empty_env)))
  = (Normal (Ready (mkFetched weather true)),
     set_clock 99 (snd (getJSON_resume mumbai_metric (Normal weather) empty_env))).
Proof.
  apply (proj1 (forecast_shared_within_rounding fallback_lat fallback_lon
                  (Num (1908 # 100)) fallback_lon "metric" weather empty_env 99
                  eq_refl eq_refl eq_refl)).
Defined.

Lemma storage_never_loses_a_key_witness :
  is_Some (ls (env (session 0 theme_store two_failed_loads)) !! "theme").
Proof.
  apply (storage_never_loses_a_key 0 theme_store two_failed_loads "theme").
  exists "dark". reflexivity.
Defined.

Lemma foreign_keys_untouched_witness :
  ls (env (session 0 theme_store two_failed_loads)) !! "theme" = Some "dark".
Proof.
  apply (foreign_keys_untouched 0 theme_store two_failed_loads "theme").
  reflexivity.
Defined.

Lemma failed_response_leaves_page_witness :
  step (Response 0 (Throw FetchError)) (boot 0 ∅)
  = set_uncaught (uncaught (boot 0 ∅) ++ [FetchError])
      (set_inflight (delete 0%nat (inflight (boot 0 ∅))) (boot 0 ∅)).
Proof.
  apply (failed_response_leaves_page 0%nat
           (ReqForecast mumbai_metric (JNum fallback_lat) (JNum fallback_lon))).
  - vm_compute. reflexivity.
  - reflexivity.
Defined.

Lemma burst_makes_one_call_witness :
  geocode_calls
    (fold_left (fun x ev => step ev x)
       (typing ((0, "L") :: burst) ++ [Elapse 1000]) (boot 0 ∅))
  = (geocode_calls (boot 0 ∅) ++ [(600, "Lond")])%list.
Proof.
  assert (Htimer : match timer (boot 0 ∅) with
                   | Some (due, _) => (0, "L").1 < due
                   | None => True
                   end) by (vm_compute; exact I).
  assert (Hclock : clock (env (boot 0 ∅)) <= (0, "L").1)
    by (vm_compute; discriminate).
  assert (Hlast : (List.last burst (0, "L")).1 + debounce_wait <= 1000)
    by (vm_compute; discriminate).
  exact (burst_makes_one_call (boot 0 ∅) (0, "L") burst 1000
           Htimer Hclock eq_refl Hlast).
Defined.

Lemma persisted_location_restored_witness :
  exists post,
    state (boot 0 london_store)
    = mkSession "metric" (JNum london_lat) (JNum london_lon) (JStr "London") /\
    started (boot 0 london_store)
    = [(JNum london_lat, JNum london_lon, JStr "London")] /\
    observing (boot 0 london_store) = true /\
    dom (boot 0 london_store) = (unit_ops "metric" ++ skeleton_ops ++ post)%list.
Proof.
  apply (persisted_location_restored 0 london_store (Ref.stringify london_record)
           [("lat", JNum london_lat); ("lon", JNum london_lon);
            ("place", JStr "London")] london_lat london_lon).
  - reflexivity.
  - vm_compute. discriminate.
  - vm_compute. reflexivity.
  - reflexivity.
  - reflexivity.
Defined.

Lemma picked_location_survives_reload_witness :
  coords (state (step Reload (step (PickSuggestion london_lat london_lon "London")
                                (boot 0 ∅))))
  = (JNum london_lat, JNum london_lon, JStr "London") /\
  started (step Reload (step (PickSuggestion london_lat london_lon "London")
                          (boot 0 ∅)))
  = [(JNum london_lat, JNum london_lon, JStr "London")].
Proof.
  apply (picked_location_survives_reload london_lat london_lon "London" (boot 0 ∅)).
  - vm_compute. reflexivity.
  - reflexivity.
  - reflexivity.
  - vm_compute. discriminate.
  - vm_compute. reflexivity.
Defined.

Lemma finished_load_is_persisted_witness :
  exists a' pre,
    job (loadWeather_finish (JNum fallback_lat) (JNum fallback_lon)
           (mkFetched weather false)) (boot 0 ∅) = a' /\
    persisted a'
    = Some (JSON_stringify (record (coords (state (boot 0 ∅))))) /\
    state a' = state (boot 0 ∅) /\
    completed a'
    = (completed (boot 0 ∅)
       ++ [(JNum fallback_lat, JNum fallback_lon, place (state (boot 0 ∅)))])%list /\
    dom a' = (dom (boot 0 ∅) ++ pre ++ [perf_op (mkFetched weather false)])%list.
Proof.
  apply (finished_load_is_persisted (JNum fallback_lat) (JNum fallback_lon)
           (mkFetched weather false) (boot 0 ∅));
    vm_compute; reflexivity.
Defined.


Lemma corrupt_lastCoords_never_repaired_witness :
  started (boot 0 corrupt_store) = [] /\
  fetched (env (boot 0 corrupt_store)) = [] /\
  dom (boot 0 corrupt_store) = unit_ops (units_of corrupt_store) /\
  observing
    (session 0 corrupt_store
       [PickSuggestion london_lat london_lon "London"; Reload]) = false /\
  persisted
    (session 0 corrupt_store
       [PickSuggestion london_lat london_lon "London"; Reload]) = Some "{oops".
Proof.
  apply (corrupt_lastCoords_never_repaired 0 corrupt_store "{oops"
           [PickSuggestion london_lat london_lon "London"; Reload]).
  - reflexivity.
  - discriminate.
  - vm_compute. reflexivity.
Defined.

Lemma falsy_lastCoords_falls_back_witness :
  exists post,
    state (boot 0 null_store)
    = mkSession (units_of null_store) (JNum fallback_lat) (JNum fallback_lon)
                (JStr "Mumbai, IN") /\
    started (boot 0 null_store)
    = [(JNum fallback_lat, JNum fallback_lon, JStr "Mumbai, IN")] /\
    observing (boot 0 null_store) = true /\
    dom (boot 0 null_store)
    = (unit_ops (units_of null_store) ++ skeleton_ops ++ post)%list.
Proof.
  apply (falsy_lastCoords_falls_back 0 null_store "null" JNull).
  - reflexivity.
  - vm_compute. reflexivity.
  - reflexivity.
Defined.



Lemma strips_whole_or_nothing_witness :
  renderDaily weather (boot 0 ∅)
  = (Normal tt,
     set_dom (dom (boot 0 ∅) ++ [SetHTML "#daily" (Cards [["30"; "20"; "10"]])])
             (boot 0 ∅)) /\
  renderHourly weather (boot 0 ∅)
  = (Normal tt,
     set_dom (dom (boot 0 ∅) ++ [SetHTML "#hourly" (Cards [["25"; "5"]])])
             (boot 0 ∅)) /\
  exists x, renderDaily error_payload (boot 0 ∅) = (Throw x, boot 0 ∅).
Proof.
  destruct (strips_whole_or_nothing weather (boot 0 ∅)) as (Hd & _ & Hh & _).
  destruct (strips_whole_or_nothing error_payload (boot 0 ∅)) as (_ & Hno & _).
  split; [|split].
  - apply Hd. eexists _, _. split; [reflexivity|]. split; [reflexivity|].
    split; [repeat constructor|].
    repeat constructor; eexists _, _; repeat split; reflexivity.
  - apply Hh. eexists _, _. split; [reflexivity|]. split; [reflexivity|].
    split; [repeat constructor|].
    repeat constructor; eexists _, _; repeat split; reflexivity.
  - apply Hno. intros rows (owner & times & Ho & Ht & _).
    simpl in Ho. injection Ho as <-. discriminate Ht.
Defined.


End MoreRuns.
